(** * Duplicate invoice automation: a shallow embedding of [DF_Final.py]
    and of the pipeline class of [PyQt_Final.py].

    The development follows the Python sources function by function.
    Python values are modelled as follows.
    - A [str] is the list of its Unicode code points ([pystr]).
    - [bytes] are lists of numbers below 256.
    - A folder is an association list from file names to files, in the
      order in which [os.listdir] reports the entries.  Python leaves
      this order to the file system; here a file written under a new
      name comes last and a file written over keeps its place, so what
      is said of the order of a listing after a write is said of this
      choice.
    - A [dict] is a [gmap], a [set] is a [gset].
    - Exceptions are values of [exn]; a computation that may raise runs in
      a state-and-exception monad whose state survives the exception, as
      the effects of a Python [try] body survive into its handler.

    The file system is the record [world] of the six folders the program
    works on, pairwise distinct; file names are compared exactly.  The
    five folders that [ensure_folders] makes are there.  The repository
    is at a path that the operator types: the stage functions are those
    of a run in which this path names a folder, and
    [cross_compare_with_repository_at], [update_repository_at] and
    [main_at] take the path as it is, naming a folder or not.  A file
    held by another process ([locked]) makes every operation on it
    raise [PermissionError]; a file whose content is not text makes
    reading it raise [UnicodeDecodeError].  Log lines carrying an
    elapsed time are left out of [stdout].

    The first part is on the functions of [DF_Final.py]; for a run in
    which the [stop_event] of the pipeline class is not set, the methods
    of the class are these functions.  The last part has the class with
    its event and its queue, proves this, and follows a run that is
    stopped. *)

From Stdlib Require Import NArith ZArith List Lia Bool Sorted.
From stdpp Require Import gmap strings list pretty.

Set Warnings "-register-all,-clear-no-such-hyp".

Open Scope N_scope.

(** ** Python strings *)

Abbreviation pystr := (list N).

Module Py.

(** A string literal of the sources, as code points.  Only used on ASCII
    literals. *)
Definition str (s : string) : pystr :=
  map (fun a => N.of_nat (Ascii.nat_of_ascii a)) (String.list_ascii_of_string s).

(** [str.isspace] of a one-character string: the code points CPython
    treats as whitespace ([_PyUnicode_IsWhitespace]). *)
Definition isspace (c : N) : bool :=
  ((9 <=? c) && (c <=? 13)) || ((28 <=? c) && (c <=? 32))
  || (c =? 133) || (c =? 160) || (c =? 5760)
  || ((8192 <=? c) && (c <=? 8202))
  || (c =? 8232) || (c =? 8233) || (c =? 8239) || (c =? 8287) || (c =? 12288).

Definition is_ascii (c : N) : bool := c <? 128.

Definition ascii_lower (c : N) : N :=
  if (65 <=? c) && (c <=? 90) then c + 32 else c.

Section Lower.
(** [str.lower] on a string with a non-ASCII character is computed by
    CPython from the Unicode character database (and is context
    dependent, for the final sigma); that table is a parameter. *)
Variable unicode_lower : pystr -> pystr.

(** [str.lower]: CPython lower-cases an ASCII string bytewise and goes
    through the Unicode tables otherwise. *)
Definition lower (s : pystr) : pystr :=
  if forallb is_ascii s then map ascii_lower s else unicode_lower s.
End Lower.

(** [str.split()] without a separator: the maximal runs of characters
    that are not whitespace, in order.  [cur] is the run being read. *)
Fixpoint split_from (cur : pystr) (s : pystr) : list pystr :=
  match s with
  | [] => match cur with [] => [] | _ => [cur] end
  | c :: s' =>
      if isspace c
      then match cur with
           | [] => split_from [] s'
           | _ => cur :: split_from [] s'
           end
      else split_from (cur ++ [c]) s'
  end.

Definition split (s : pystr) : list pystr := split_from [] s.

(** [sep.join(parts)]. *)
Fixpoint join (sep : pystr) (parts : list pystr) : pystr :=
  match parts with
  | [] => []
  | [p] => p
  | p :: ps => p ++ sep ++ join sep ps
  end.

(** [s.startswith(p)] and [s.endswith(p)]. *)
Fixpoint startswith (s p : pystr) : bool :=
  match p, s with
  | [], _ => true
  | _ :: _, [] => false
  | a :: p', b :: s' => (a =? b) && startswith s' p'
  end.

Definition endswith (s p : pystr) : bool := startswith (rev s) (rev p).

(** [s.replace(old, new)] for a non-empty [old]: every occurrence, left
    to right, without overlap.  [fuel] bounds the scan by the length of
    the string. *)
Fixpoint replace_from (fuel : nat) (s old new : pystr) : pystr :=
  match fuel with
  | O => s
  | S fuel' =>
      match s with
      | [] => []
      | c :: s' =>
          if startswith s old
          then new ++ replace_from fuel' (drop (length old) s) old new
          else c :: replace_from fuel' s' old new
      end
  end.

Definition replace (s old new : pystr) : pystr :=
  replace_from (length s) s old new.

(** [s.strip()] *)
Fixpoint lstrip (s : pystr) : pystr :=
  match s with
  | [] => []
  | c :: s' => if isspace c then lstrip s' else s
  end.

Definition strip (s : pystr) : pystr := rev (lstrip (rev (lstrip s))).

(** [os.path.splitext(name)[0]] for a file name (no separator in it):
    the name up to its last dot, unless only dots come before that dot. *)
Fixpoint before_last_dot (s : pystr) : option pystr :=
  match s with
  | [] => None
  | c :: s' =>
      match before_last_dot s' with
      | Some r => Some (c :: r)
      | None => if c =? 46 then Some [] else None
      end
  end.

Definition splitext_root (name : pystr) : pystr :=
  match before_last_dot name with
  | Some r => if forallb (fun c => c =? 46) r then name else r
  | None => name
  end.

(** [str(n)] for a natural number, as in an f-string. *)
Definition str_of_nat (n : nat) : pystr := str (pretty n).

(** [s.encode('utf-8')]: [None] stands for [UnicodeEncodeError], raised
    on a lone surrogate. *)
Definition encode_char (c : N) : option (list N) :=
  if c <? 128 then Some [c]
  else if c <? 2048 then
    Some [192 + N.shiftr c 6; 128 + N.land c 63]
  else if c <? 65536 then
    if (55296 <=? c) && (c <=? 57343) then None
    else Some [224 + N.shiftr c 12; 128 + N.land (N.shiftr c 6) 63;
               128 + N.land c 63]
  else if c <? 1114112 then
    Some [240 + N.shiftr c 18; 128 + N.land (N.shiftr c 12) 63;
          128 + N.land (N.shiftr c 6) 63; 128 + N.land c 63]
  else None.

Fixpoint encode_utf8 (s : pystr) : option (list N) :=
  match s with
  | [] => Some []
  | c :: s' =>
      match encode_char c, encode_utf8 s' with
      | Some b, Some bs => Some (b ++ bs)
      | _, _ => None
      end
  end.

End Py.

(** ** [hashlib.sha256] (FIPS 180-4), on 32-bit words held in [N] *)

Module SHA256.

Definition w32 : N := 4294967296.

Definition add32 (x y : N) : N := (x + y) mod w32.
Definition not32 (x : N) : N := N.lxor x 4294967295.
Definition shr (n x : N) : N := N.shiftr x n.
Definition rotr (n x : N) : N :=
  N.lor (N.shiftr x n) (N.shiftl x (32 - n) mod w32).

Definition Ch (x y z : N) : N := N.lxor (N.land x y) (N.land (not32 x) z).
Definition Maj (x y z : N) : N :=
  N.lxor (N.lxor (N.land x y) (N.land x z)) (N.land y z).
Definition Sigma0 (x : N) : N := N.lxor (N.lxor (rotr 2 x) (rotr 13 x)) (rotr 22 x).
Definition Sigma1 (x : N) : N := N.lxor (N.lxor (rotr 6 x) (rotr 11 x)) (rotr 25 x).
Definition sigma0 (x : N) : N := N.lxor (N.lxor (rotr 7 x) (rotr 18 x)) (shr 3 x).
Definition sigma1 (x : N) : N := N.lxor (N.lxor (rotr 17 x) (rotr 19 x)) (shr 10 x).

(** The constants of the standard are the first thirty-two bits of the
    fractional parts of the cube roots (for [K]) and of the square roots
    (for [H0]) of the first prime numbers. *)
Definition is_prime (n : nat) : bool :=
  forallb (fun d => negb (n mod d =? 0)%nat) (seq 2 (n - 2)).

Definition primes (count : nat) : list N :=
  map N.of_nat (take count (List.filter is_prime (seq 2 400))).

(** The integer cube root, one bit after the other from bit [i] down. *)
Fixpoint cube_root_bits (i : nat) (n r : N) : N :=
  match i with
  | O => r
  | S i' =>
      let r' := r + N.shiftl 1 (N.of_nat i') in
      cube_root_bits i' n (if r' * r' * r' <=? n then r' else r)
  end.

Definition frac_cube_root (p : N) : N :=
  cube_root_bits 40 (N.shiftl p 96) 0 mod w32.

Definition frac_square_root (p : N) : N :=
  N.sqrt (N.shiftl p 64) mod w32.

Definition K : list N := Eval vm_compute in map frac_cube_root (primes 64).

(** The eight working variables, and the hash value between blocks. *)
Record regs := Regs { ra : N; rb : N; rc : N; rd : N; re : N; rf : N; rg : N; rh : N }.

Definition regs_of_list (l : list N) : regs :=
  Regs (nth 0 l 0) (nth 1 l 0) (nth 2 l 0) (nth 3 l 0)
       (nth 4 l 0) (nth 5 l 0) (nth 6 l 0) (nth 7 l 0).

Definition H0 : regs :=
  Eval vm_compute in regs_of_list (map frac_square_root (primes 8)).

(** Padding: a one bit, zeros up to 56 modulo 64, the bit length on eight
    bytes, most significant first. *)
Definition be_bytes (n : nat) (x : N) : list N :=
  map (fun i => N.land (N.shiftr x (8 * N.of_nat i)) 255) (rev (seq 0 n)).

Definition pad (msg : list N) : list N :=
  let len := length msg in
  let zeros := ((119 - len mod 64) mod 64)%nat in
  msg ++ [128] ++ repeat 0 zeros ++ be_bytes 8 (8 * N.of_nat len).

Fixpoint chunks (n : nat) (size : nat) (l : list N) : list (list N) :=
  match n with
  | O => []
  | S n' => take size l :: chunks n' size (drop size l)
  end.

Definition word_of_bytes (b : list N) : N :=
  fold_left (fun acc x => acc * 256 + x) b 0.

(** The message schedule: sixteen words of the block, then forty-eight
    derived ones. *)
Definition schedule_step (w : list N) (_ : nat) : list N :=
  let t := length w in
  let at_ i := nth (t - i) w 0 in
  w ++ [add32 (add32 (sigma1 (at_ 2%nat)) (at_ 7%nat))
              (add32 (sigma0 (at_ 15%nat)) (at_ 16%nat))].

Definition schedule (block : list N) : list N :=
  fold_left schedule_step (seq 16 48) (map word_of_bytes (chunks 16 4 block)).

Definition round (r : regs) (kw : N * N) : regs :=
  let '(k, w) := kw in
  let t1 := add32 (add32 (add32 (add32 (rh r) (Sigma1 (re r))) (Ch (re r) (rf r) (rg r))) k) w in
  let t2 := add32 (Sigma0 (ra r)) (Maj (ra r) (rb r) (rc r)) in
  Regs (add32 t1 t2) (ra r) (rb r) (rc r) (add32 (rd r) t1) (re r) (rf r) (rg r).

Definition compress (h : regs) (block : list N) : regs :=
  let r := fold_left round (combine K (schedule block)) h in
  Regs (add32 (ra h) (ra r)) (add32 (rb h) (rb r)) (add32 (rc h) (rc r))
       (add32 (rd h) (rd r)) (add32 (re h) (re r)) (add32 (rf h) (rf r))
       (add32 (rg h) (rg r)) (add32 (rh h) (rh r)).

Definition digest (msg : list N) : regs :=
  let p := pad msg in
  fold_left compress (chunks (length p / 64) 64 p) H0.

(** [.hexdigest()]: eight words, eight lower-case hexadecimal digits each. *)
Definition hex_digit (d : N) : N := if d <? 10 then 48 + d else 87 + d.

Definition hex_word (w : N) : pystr :=
  [ hex_digit (N.land (N.shiftr w 28) 15); hex_digit (N.land (N.shiftr w 24) 15);
    hex_digit (N.land (N.shiftr w 20) 15); hex_digit (N.land (N.shiftr w 16) 15);
    hex_digit (N.land (N.shiftr w 12) 15); hex_digit (N.land (N.shiftr w 8) 15);
    hex_digit (N.land (N.shiftr w 4) 15); hex_digit (N.land w 15) ].

Definition hexdigest (r : regs) : pystr :=
  hex_word (ra r) ++ hex_word (rb r) ++ hex_word (rc r) ++ hex_word (rd r) ++
  hex_word (re r) ++ hex_word (rf r) ++ hex_word (rg r) ++ hex_word (rh r).

End SHA256.

(** The first and the last constant, as the standard prints them. *)
Example sha256_constants :
  nth 0 SHA256.K 0 = 0x428a2f98 /\ nth 63 SHA256.K 0 = 0xc67178f2
  /\ SHA256.ra SHA256.H0 = 0x6a09e667 /\ SHA256.rh SHA256.H0 = 0x5be0cd19.
Proof. repeat split; reflexivity. Qed.

(** Known answers of [hashlib.sha256(...).hexdigest()]. *)
Example sha256_empty :
  SHA256.hexdigest (SHA256.digest []) =
  Py.str "e3b0c44298fc1c149afbf4c8996fb92427ae41e4649b934ca495991b7852b855".
Proof. vm_compute. reflexivity. Qed.

Example sha256_abc :
  SHA256.hexdigest (SHA256.digest [97; 98; 99]) =
  Py.str "ba7816bf8f01cfea414140de5dae2223b00361a396177a9cb410ff61f20015ad".
Proof. vm_compute. reflexivity. Qed.

Example sha256_two_blocks :
  SHA256.hexdigest (SHA256.digest (repeat 97 64)) =
  Py.str "ffe054fe7ae0cb6dc65c3af9b61d5209f439851db43d0ba5997337df154668eb".
Proof. vm_compute. reflexivity. Qed.

(** ** Files, folders and the state of a run *)

(** What [open(path, 'r', encoding='utf-8').read()] finds in a file:
    bytes that decode to a text, or bytes that do not decode
    ([UnicodeDecodeError]). *)
Inductive content :=
| Text (t : pystr)
| Binary (b : list N).

(** A regular file: its content, what [os.stat] reports, and whether
    another process holds it, in which case every operation on it raises
    [PermissionError]. *)
Record file := File {
  data : content;
  st_size : N;
  st_mtime : Z;
  locked : bool
}.

(** A bucket folder: its regular files, in [os.listdir] order. *)
Abbreviation dir := (list (pystr * file)).

(** A folder that may contain sub-folders (the source folder of the
    intake, the folder given to the inventory reporter). *)
Inductive node :=
| FileNode (x : file)
| FolderNode (entries : list (pystr * node)).

Abbreviation tree := (list (pystr * node)).

(** The five bucket folders created by [ensure_folders] and the
    repository folder given by the operator.  They are six distinct
    folders, and they exist throughout a run. *)
Inductive folder :=
| MAIN_PDF_FOLDER
| EXTRACTED_TEXT_FOLDER
| EXCEPTION_FOLDER
| UNIQUE_INVOICES_FOLDER
| DUPLICATES_INVOICES_FOLDER
| repository_folder.

Inductive exn :=
| FileNotFoundError
| PermissionError
| UnicodeDecodeError
| UnicodeEncodeError
| LoopBoundReached.

(** The messages passed to [log], one constructor per call site; the
    lines reporting elapsed seconds are left out. *)
Inductive event :=
| Version_banner
| Copying_files
| Non_PDF_moved_to_Exception (filename : pystr)
| PDFs_copied (pdf_count : nat)
| Non_PDFs_moved (other_count : nat)
| Error_copying_files (e : exn)
| Starting_text_extraction
| Extracted_text (f : pystr) (method : pystr)
| Failed_to_save_text (f : pystr) (e : exn)
| Extraction_failed_moved (f : pystr)
| Failed_to_move_to_Exception (f : pystr) (e : exn)
| Extraction_done (count_extracted count_exception : nat)
| Starting_deduplication
| Removed_duplicate_text (f : pystr) (duplicate_of : pystr)
| Moved_duplicate_PDF (pdf_name : pystr)
| Error_during_deduplication (f : pystr) (e : exn)
| Deduplication_done (removed_count : nat)
| Cross_comparing
| Could_not_read_repo_file (f : pystr) (e : exn)
| Moved_duplicate_and_deleted_text (pdf_name : pystr)
| Moved_unique_PDF (pdf_name : pystr)
| Error_comparing_file (f : pystr) (e : exn)
| Copied_exception_PDF (f : pystr)
| Could_not_copy_exception_PDF (f : pystr) (e : exn)
| Cross_comparison_complete (count_unique count_duplicates : nat)
| Updating_repository
| Moved_and_renamed (f : pystr) (new_name : pystr)
| Failed_to_move_and_rename (f : pystr) (e : exn)
| Moved_and_renamed_count (moved_count : nat)
| No_leftover_PDFs
| Cleaning_up_leftover_PDFs
| Moved_leftover_PDF (f : pystr)
| Failed_to_move_leftover_PDF (f : pystr) (e : exn)
| All_tasks_completed.

Record world := World {
  main_pdf : dir;
  extracted_text : dir;
  exception_dir : dir;
  unique_invoices : dir;
  duplicates_invoices : dir;
  repository : dir;
  stdout : list event
}.

Definition get_dir (F : folder) (w : world) : dir :=
  match F with
  | MAIN_PDF_FOLDER => main_pdf w
  | EXTRACTED_TEXT_FOLDER => extracted_text w
  | EXCEPTION_FOLDER => exception_dir w
  | UNIQUE_INVOICES_FOLDER => unique_invoices w
  | DUPLICATES_INVOICES_FOLDER => duplicates_invoices w
  | repository_folder => repository w
  end.

Definition set_dir (F : folder) (d : dir) (w : world) : world :=
  match F with
  | MAIN_PDF_FOLDER =>
      World d (extracted_text w) (exception_dir w) (unique_invoices w)
            (duplicates_invoices w) (repository w) (stdout w)
  | EXTRACTED_TEXT_FOLDER =>
      World (main_pdf w) d (exception_dir w) (unique_invoices w)
            (duplicates_invoices w) (repository w) (stdout w)
  | EXCEPTION_FOLDER =>
      World (main_pdf w) (extracted_text w) d (unique_invoices w)
            (duplicates_invoices w) (repository w) (stdout w)
  | UNIQUE_INVOICES_FOLDER =>
      World (main_pdf w) (extracted_text w) (exception_dir w) d
            (duplicates_invoices w) (repository w) (stdout w)
  | DUPLICATES_INVOICES_FOLDER =>
      World (main_pdf w) (extracted_text w) (exception_dir w)
            (unique_invoices w) d (repository w) (stdout w)
  | repository_folder =>
      World (main_pdf w) (extracted_text w) (exception_dir w)
            (unique_invoices w) (duplicates_invoices w) d (stdout w)
  end.

Definition print (e : event) (w : world) : world :=
  World (main_pdf w) (extracted_text w) (exception_dir w) (unique_invoices w)
        (duplicates_invoices w) (repository w) (stdout w ++ [e]).

#[global] Instance folder_eq_dec : EqDecision folder.
Proof. solve_decision. Defined.

(** Folder contents. *)
Fixpoint dir_lookup (d : dir) (f : pystr) : option file :=
  match d with
  | [] => None
  | (g, x) :: d' => if decide (g = f) then Some x else dir_lookup d' f
  end.

Definition dir_remove (d : dir) (f : pystr) : dir :=
  filter (fun e => e.1 <> f) d.

(** Writing a file keeps the place of an entry of that name and puts a
    new name last. *)
Fixpoint dir_write (d : dir) (f : pystr) (x : file) : dir :=
  match d with
  | [] => [(f, x)]
  | (g, y) :: d' =>
      if decide (g = f) then (g, x) :: d' else (g, y) :: dir_write d' f x
  end.

Definition names (d : dir) : list pystr := map fst d.

(** ** Computations that read and write the folders and may raise *)

Inductive outcome (A : Type) :=
| Returns (a : A)
| Raises (e : exn).
Arguments Returns {A} a.
Arguments Raises {A} e.

(** [L] is the type of the local variables of the running function. *)
Definition M (L A : Type) : Type := world * L -> outcome A * (world * L).

Definition ret {L A} (a : A) : M L A := fun s => (Returns a, s).

Definition bind {L A B} (m : M L A) (k : A -> M L B) : M L B :=
  fun s =>
    match m s with
    | (Returns a, s') => k a s'
    | (Raises e, s') => (Raises e, s')
    end.

Definition raise {L A} (e : exn) : M L A := fun s => (Raises e, s).

(** [try: body except Exception as e: handler(e)] *)
Definition try_except {L A} (body : M L A) (handler : exn -> M L A) : M L A :=
  fun s =>
    match body s with
    | (Returns a, s') => (Returns a, s')
    | (Raises e, s') => handler e s'
    end.

Declare Scope py_scope.
Delimit Scope py_scope with py.
Notation "x ← y ; z" := (bind y (fun x => z))
  (at level 20, y at level 100, z at level 200, only parsing) : py_scope.
Notation "y ;; z" := (bind y (fun _ => z))
  (at level 100, z at level 200, only parsing, right associativity) : py_scope.
Open Scope py_scope.

(** [for x in xs: body(x)] *)
Fixpoint for_each {L X} (xs : list X) (body : X -> M L unit) : M L unit :=
  match xs with
  | [] => ret tt
  | x :: xs' => body x;; for_each xs' body
  end.

Definition when {L} (b : bool) (m : M L unit) : M L unit :=
  if b then m else ret tt.

(** Local variables. *)
Definition local {L} : M L L := fun s => (Returns s.2, s).
Definition assign {L} (f : L -> L) : M L unit := fun s => (Returns tt, (s.1, f s.2)).

(** The state of the folders. *)
Definition the_world {L} : M L world := fun s => (Returns s.1, s).
Definition update_world {L} (f : world -> world) : M L unit :=
  fun s => (Returns tt, (f s.1, s.2)).

(** A call: the callee runs on its own local variables. *)
Definition call {L L' A} (init : L') (m : M L' A) : M L A :=
  fun s =>
    match m (s.1, init) with
    | (r, (w, _)) => (r, (w, s.2))
    end.

Definition log {L} (e : event) : M L unit := update_world (print e).

(** *** [os] and [shutil] *)

Definition os_listdir {L} (F : folder) : M L (list pystr) :=
  w ← the_world; ret (names (get_dir F w)).

Definition os_path_exists {L} (F : folder) (f : pystr) : M L bool :=
  w ← the_world; ret (bool_decide (is_Some (dir_lookup (get_dir F w) f))).

(** [os.remove(path)] *)
Definition os_remove {L} (F : folder) (f : pystr) : M L unit :=
  w ← the_world;
  match dir_lookup (get_dir F w) f with
  | None => raise FileNotFoundError
  | Some x =>
      if locked x then raise PermissionError
      else update_world (set_dir F (dir_remove (get_dir F w) f))
  end.

(** The last step of a copy or a move: the file [x] arrives under the
    name [g] of the folder [G], over a file of that name if there is
    one, unless that one is held. *)
Definition put_file {L} (x : file) (G : folder) (g : pystr) : M L unit :=
  w ← the_world;
  match dir_lookup (get_dir G w) g with
  | Some y =>
      if locked y then raise PermissionError
      else update_world (set_dir G (dir_write (get_dir G w) g x))
  | None => update_world (set_dir G (dir_write (get_dir G w) g x))
  end.

(** [shutil.copy2(src, dst)] of the file [x] read at [src]: content and
    metadata are copied. *)
Definition copy2_file {L} (x : file) (G : folder) (g : pystr) : M L unit :=
  if locked x then raise PermissionError
  else put_file x G g.

Definition shutil_copy2 {L} (F : folder) (f : pystr) (G : folder) (g : pystr) : M L unit :=
  w ← the_world;
  match dir_lookup (get_dir F w) f with
  | None => raise FileNotFoundError
  | Some x => copy2_file x G g
  end.

(** [shutil.move(src, dst)] of a file onto a file path. *)
Definition shutil_move {L} (F : folder) (f : pystr) (G : folder) (g : pystr) : M L unit :=
  w ← the_world;
  match dir_lookup (get_dir F w) f with
  | None => raise FileNotFoundError
  | Some x =>
      if locked x then raise PermissionError
      else
        put_file x G g;;
        w' ← the_world;
        update_world (set_dir F (dir_remove (get_dir F w') f))
  end.

(** [with open(path, 'r', encoding='utf-8') as file: file.read()] *)
Definition read_text {L} (F : folder) (f : pystr) : M L pystr :=
  w ← the_world;
  match dir_lookup (get_dir F w) f with
  | None => raise FileNotFoundError
  | Some x =>
      if locked x then raise PermissionError
      else match data x with
           | Text t => ret t
           | Binary _ => raise UnicodeDecodeError
           end
  end.

(** [with open(path, 'w', encoding='utf-8') as file: file.write(text)]:
    the file is created or emptied when it is opened, and the text is
    encoded when it is written.  [clock] is the time of the write. *)
Definition write_text {L} (clock : Z) (F : folder) (f : pystr) (text : pystr) : M L unit :=
  w ← the_world;
  match dir_lookup (get_dir F w) f with
  | Some y => if locked y then raise PermissionError else ret tt
  | None => ret tt
  end;;
  match Py.encode_utf8 text with
  | None =>
      update_world (set_dir F (dir_write (get_dir F w) f (File (Text []) 0 clock false)));;
      raise UnicodeEncodeError
  | Some b =>
      update_world (set_dir F (dir_write (get_dir F w) f
                                 (File (Text text) (N.of_nat (length b)) clock false)))
  end.

(** [os.walk(top)]: for each folder, top first, the files directly in
    it; then its sub-folders in turn. *)
Definition files_of (entries : tree) : list (pystr * file) :=
  omap (fun e => match e.2 with FileNode x => Some (e.1, x) | FolderNode _ => None end) entries.

Fixpoint os_walk (top : node) : list (list (pystr * file)) :=
  match top with
  | FileNode _ => []
  | FolderNode entries =>
      files_of entries ::
      (fix below (es : tree) : list (list (pystr * file)) :=
         match es with
         | [] => []
         | (_, child) :: es' => os_walk child ++ below es'
         end) entries
  end.

Definition isdir (nd : node) : bool :=
  match nd with FolderNode _ => true | FileNode _ => false end.

(** ** The pipeline *)

(** The three strings [update_repository] takes from [datetime.now()]. *)
Record timestamp := Timestamp {
  date_str : pystr;
  time_str : pystr;
  month_year_str : pystr
}.

(** A row of the listing of [list_files_as_dataframe]. *)
Record row := Row {
  Filename : pystr;
  Size_Bytes : N;
  Modified_Time : pystr
}.

Record dedup_vars := DedupVars {
  seen_hashes : gmap pystr pystr;
  removed_count : nat
}.

Record compare_vars := CompareVars {
  repo_hashes : gset pystr;
  count_unique : nat;
  count_duplicates : nat
}.

Section Pipeline.

Set Default Proof Using "Type*".

(** The runtime and the external tools. *)
Variable unicode_lower : pystr -> pystr.
(** [pdfplumber]: the text of each page ([None] for a page without
    text), or [None] when it raises. *)
Variable pdfplumber_pages : file -> option (list (option pystr)).
(** [pdf2image] and [pytesseract]: the string read on each page, or
    [None] when one of them raises. *)
Variable ocr_pages : file -> option (list pystr).
(** [time.strftime('%Y-%m-%d %H:%M:%S', time.localtime(t))] *)
Variable strftime_localtime : Z -> pystr.
(** The time at which the run writes the extracted texts. *)
Variable clock : Z.

Definition lower : pystr -> pystr := Py.lower unicode_lower.

Definition is_pdf (f : pystr) : bool := Py.endswith (lower f) (Py.str ".pdf").
Definition is_txt (f : pystr) : bool := Py.endswith (lower f) (Py.str ".txt").

(** *** Fingerprint *)

Definition sha256_hash (text : pystr) : option pystr :=
  let normalized := Py.join [] (Py.split (lower text)) in
  match Py.encode_utf8 normalized with
  | Some b => Some (SHA256.hexdigest (SHA256.digest b))
  | None => None
  end.

Definition sha256_hash_or_raise {L} (text : pystr) : M L pystr :=
  match sha256_hash text with
  | Some h => ret h
  | None => raise UnicodeEncodeError
  end.

(** *** Intake *)

Definition process_file (x : file) (filename : pystr) : M (nat * nat) unit :=
  let dst_folder := if is_pdf filename then MAIN_PDF_FOLDER else EXCEPTION_FOLDER in
  copy2_file x dst_folder filename;;
  if decide (dst_folder = MAIN_PDF_FOLDER)
  then assign (fun c => (S c.1, c.2))
  else assign (fun c => (c.1, S c.2));;
       log (Non_PDF_moved_to_Exception filename).

(** [source_folder] is what is found at the path the operator gave:
    [None] when there is no such folder. *)
Definition copy_pdfs_to_main_folder {L} (source_folder : option tree) : M L unit :=
  call (0%nat, 0%nat)
    (log Copying_files;;
     try_except
       (entries ← match source_folder with
                   | Some entries => ret entries
                   | None => raise FileNotFoundError
                   end;
        let has_subfolders := existsb (fun e => isdir e.2) entries in
        (if has_subfolders
         then for_each (os_walk (FolderNode entries))
                (fun files => for_each files (fun e => process_file e.2 e.1))
         else for_each entries
                (fun e => match e.2 with
                          | FileNode x => process_file x e.1
                          | FolderNode _ => ret tt
                          end));;
        c ← local;
        log (PDFs_copied c.1);;
        log (Non_PDFs_moved c.2))
       (fun e => log (Error_copying_files e))).

(** *** Text extraction *)

(** What a tool gets when it opens the file at a path: nothing when the
    file is not there or is held, and the tool raises. *)
Definition open_with {A} (tool : file -> option A) (at_path : option file) : option A :=
  match at_path with
  | Some x => if locked x then None else tool x
  | None => None
  end.

Definition extract_text_from_pdf (at_path : option file) : pystr * option pystr :=
  let first :=
    match open_with pdfplumber_pages at_path with
    | Some pages =>
        let text := Py.strip (concat (map (default []) pages)) in
        if (30 <=? length text)%nat then Some (text, Some (Py.str "pdfplumber")) else None
    | None => None
    end in
  match first with
  | Some r => r
  | None =>
      match open_with ocr_pages at_path with
      | Some pages =>
          let text := concat (map Py.strip pages) in
          if (30 <=? length text)%nat then (text, Some (Py.str "ocr")) else ([], None)
      | None => ([], None)
      end
  end.

Definition extract_texts {L} : M L unit :=
  call (0%nat, 0%nat)
    (log Starting_text_extraction;;
     listing ← os_listdir MAIN_PDF_FOLDER;
     for_each listing (fun f =>
       when (is_pdf f)
         (w ← the_world;
          let '(text, method) :=
            extract_text_from_pdf (dir_lookup (get_dir MAIN_PDF_FOLDER w) f) in
          match text with
          | _ :: _ =>
              try_except
                (write_text clock EXTRACTED_TEXT_FOLDER
                   (Py.splitext_root f ++ Py.str ".txt") text;;
                 assign (fun c => (S c.1, c.2));;
                 log (Extracted_text f (default [] method)))
                (fun e => log (Failed_to_save_text f e))
          | [] =>
              try_except
                (shutil_move MAIN_PDF_FOLDER f EXCEPTION_FOLDER f;;
                 assign (fun c => (c.1, S c.2));;
                 log (Extraction_failed_moved f))
                (fun e => log (Failed_to_move_to_Exception f e))
          end));;
     c ← local;
     log (Extraction_done c.1 c.2)).

(** *** Local deduplication *)

Definition dedup_file (f : pystr) : M dedup_vars unit :=
  try_except
    (content ← read_text EXTRACTED_TEXT_FOLDER f;
     h ← sha256_hash_or_raise content;
     v ← local;
     match seen_hashes v !! h with
     | Some first_seen =>
         os_remove EXTRACTED_TEXT_FOLDER f;;
         assign (fun v => DedupVars (seen_hashes v) (S (removed_count v)));;
         log (Removed_duplicate_text f first_seen);;
         let pdf_name := Py.splitext_root f ++ Py.str ".pdf" in
         present ← os_path_exists MAIN_PDF_FOLDER pdf_name;
         when present
           (shutil_move MAIN_PDF_FOLDER pdf_name DUPLICATES_INVOICES_FOLDER pdf_name;;
            log (Moved_duplicate_PDF pdf_name))
     | None =>
         assign (fun v => DedupVars (<[h := f]> (seen_hashes v)) (removed_count v))
     end)
    (fun e => log (Error_during_deduplication f e)).

Definition deduplicate_loop (files : list pystr) : M dedup_vars unit :=
  for_each files dedup_file.

Definition deduplicate_text_files {L} : M L unit :=
  call (DedupVars ∅ 0)
    (log Starting_deduplication;;
     listing ← os_listdir EXTRACTED_TEXT_FOLDER;
     let files := filter (fun f => is_txt f = true) listing in
     deduplicate_loop files;;
     v ← local;
     log (Deduplication_done (removed_count v))).

(** *** Comparison with the repository *)

(** The comparator and the updater of a run whose repository path names
    a folder, the folder [repository] of the world.  The case of a path
    that names none is in [cross_compare_with_repository_at] and
    [update_repository_at]. *)

Definition add_repo_hash (f : pystr) : M compare_vars unit :=
  when (is_txt f)
    (try_except
       (content ← read_text repository_folder f;
        h ← sha256_hash_or_raise content;
        assign (fun v => CompareVars ({[h]} ∪ repo_hashes v) (count_unique v) (count_duplicates v)))
       (fun e => log (Could_not_read_repo_file f e))).

Definition compare_file (f : pystr) : M compare_vars unit :=
  try_except
    (content ← read_text EXTRACTED_TEXT_FOLDER f;
     h ← sha256_hash_or_raise content;
     let pdf_name := Py.splitext_root f ++ Py.str ".pdf" in
     v ← local;
     if decide (h ∈ repo_hashes v)
     then
       present ← os_path_exists MAIN_PDF_FOLDER pdf_name;
       when present (shutil_move MAIN_PDF_FOLDER pdf_name DUPLICATES_INVOICES_FOLDER pdf_name);;
       os_remove EXTRACTED_TEXT_FOLDER f;;
       assign (fun v => CompareVars (repo_hashes v) (count_unique v) (S (count_duplicates v)));;
       log (Moved_duplicate_and_deleted_text pdf_name)
     else
       present ← os_path_exists MAIN_PDF_FOLDER pdf_name;
       when present
         (shutil_move MAIN_PDF_FOLDER pdf_name UNIQUE_INVOICES_FOLDER pdf_name;;
          assign (fun v => CompareVars (repo_hashes v) (S (count_unique v)) (count_duplicates v));;
          log (Moved_unique_PDF pdf_name)))
    (fun e => log (Error_comparing_file f e)).

Definition copy_exception_pdf (f : pystr) : M compare_vars unit :=
  when (is_pdf f)
    (try_except
       (shutil_copy2 EXCEPTION_FOLDER f UNIQUE_INVOICES_FOLDER f;;
        log (Copied_exception_PDF f))
       (fun e => log (Could_not_copy_exception_PDF f e))).

(** The three loops of [cross_compare_with_repository], on its local
    variables. *)
Definition build_repo_hashes : M compare_vars unit :=
  listing ← os_listdir repository_folder;
  for_each listing add_repo_hash.

Definition compare_extracted : M compare_vars unit :=
  listing ← os_listdir EXTRACTED_TEXT_FOLDER;
  let extracted_files := filter (fun f => is_txt f = true) listing in
  for_each extracted_files compare_file.

Definition copy_exception_pdfs : M compare_vars unit :=
  listing ← os_listdir EXCEPTION_FOLDER;
  for_each listing copy_exception_pdf.

Definition cross_compare_body : M compare_vars unit :=
  log Cross_comparing;;
  build_repo_hashes;;
  compare_extracted;;
  copy_exception_pdfs;;
  v ← local;
  log (Cross_comparison_complete (count_unique v) (count_duplicates v)).

Definition cross_compare_with_repository {L} : M L unit :=
  call (CompareVars ∅ 0 0) cross_compare_body.

(** *** Repository update *)

(** The [while os.path.exists(...)] loop.  [fuel] bounds its iterations;
    [None] says that the bound was reached. *)
Fixpoint resolve_name (fuel : nat) (repo : dir) (base_name new_name : pystr) (count : nat)
  : option (pystr * nat) :=
  match fuel with
  | O => None
  | S fuel' =>
      if bool_decide (is_Some (dir_lookup repo new_name))
      then resolve_name fuel' repo base_name
             (Py.replace base_name (Py.str ".txt")
                (Py.str "_" ++ Py.str_of_nat count ++ Py.str ".txt"))
             (S count)
      else Some (new_name, count)
  end.

Definition base_name_of (now : timestamp) : pystr :=
  Py.str "INVC_" ++ date_str now ++ Py.str "_" ++ time_str now ++ Py.str "_"
  ++ month_year_str now ++ Py.str ".txt".

Definition file_text (now : timestamp) (f : pystr) : M nat unit :=
  when (is_txt f)
    (let base_name := base_name_of now in
     w ← the_world;
     match resolve_name (S (length (repository w))) (repository w) base_name base_name 1 with
     | None => raise LoopBoundReached
     | Some (new_name, _) =>
         try_except
           (shutil_move EXTRACTED_TEXT_FOLDER f repository_folder new_name;;
            log (Moved_and_renamed f new_name);;
            assign S)
           (fun e => log (Failed_to_move_and_rename f e))
     end).

Definition update_repository {L} (now : timestamp) : M L unit :=
  call 0%nat
    (log Updating_repository;;
     listing ← os_listdir EXTRACTED_TEXT_FOLDER;
     for_each listing (file_text now);;
     moved_count ← local;
     log (Moved_and_renamed_count moved_count)).

(** *** Cleanup *)

Definition cleanup_main_pdf_folder {L} : M L unit :=
  listing ← os_listdir MAIN_PDF_FOLDER;
  let leftover_files := filter (fun f => is_pdf f = true) listing in
  match leftover_files with
  | [] => log No_leftover_PDFs
  | _ =>
      log Cleaning_up_leftover_PDFs;;
      for_each leftover_files (fun f =>
        try_except
          (shutil_move MAIN_PDF_FOLDER f EXCEPTION_FOLDER f;;
           log (Moved_leftover_PDF f))
          (fun e => log (Failed_to_move_leftover_PDF f e)))
  end.

(** *** Inventory *)

Definition rows_of (entries : tree) : list row :=
  omap (fun e => match e.2 with
                 | FileNode x => Some (Row e.1 (st_size x) (strftime_localtime (st_mtime x)))
                 | FolderNode _ => None
                 end) entries.

(** [folder_path] is what is found at the path: [None] when nothing is
    there.  [DF_Final.py]: *)
Definition list_files_as_dataframe {L} (folder_path : option tree) : M L (list row) :=
  match folder_path with
  | None => raise FileNotFoundError
  | Some entries => ret (rows_of entries)
  end.

(** [PyQt_Final.py], which first tests [os.path.exists(folder_path)]: *)
Definition InvoicePipeline_list_files_as_dataframe {L} (folder_path : option tree)
  : M L (list row) :=
  match folder_path with
  | None => ret []
  | Some entries => ret (rows_of entries)
  end.

Definition bucket_tree (d : dir) : tree := map (fun e => (e.1, FileNode e.2)) d.

Definition get_duplicate_invoices_dataframe {L} : M L (list row) :=
  w ← the_world;
  list_files_as_dataframe (Some (bucket_tree (get_dir DUPLICATES_INVOICES_FOLDER w))).

Definition get_unique_invoices_dataframe {L} : M L (list row) :=
  w ← the_world;
  list_files_as_dataframe (Some (bucket_tree (get_dir UNIQUE_INVOICES_FOLDER w))).

(** *** The run *)

(** [ensure_folders]: the six folders of [world] exist, so
    [os.makedirs(..., exist_ok=True)] changes nothing. *)
Definition ensure_folders {L} : M L unit := ret tt.

Definition main (source_folder : option tree) (now : timestamp)
  : M unit (list row * list row) :=
  log Version_banner;;
  ensure_folders;;
  copy_pdfs_to_main_folder source_folder;;
  extract_texts;;
  deduplicate_text_files;;
  cross_compare_with_repository;;
  update_repository now;;
  cleanup_main_pdf_folder;;
  log All_tasks_completed;;
  df_duplicates ← get_duplicate_invoices_dataframe;
  df_unique ← get_unique_invoices_dataframe;
  ret (df_duplicates, df_unique).

(** ** The specification's words, for comparison with the code *)

(** "Lower-case the text, then remove all whitespace." *)
Definition remove_whitespace (s : pystr) : pystr :=
  filter (fun c => Py.isspace c = false) s.

Definition normalized (t : pystr) : pystr := remove_whitespace (lower t).

(** "A cryptographic hash (256-bit) of the UTF-8 encoding of the
    normalized string, rendered as a fixed-width hexadecimal string." *)
Definition fingerprint (t : pystr) : option pystr :=
  (fun b => SHA256.hexdigest (SHA256.digest b)) <$> Py.encode_utf8 (normalized t).

(** The PDF that goes with a text artifact: "same base name, PDF
    extension". *)
Definition pdf_name_of (f : pystr) : pystr := Py.splitext_root f ++ Py.str ".pdf".

(** The fingerprint that a stage computes for the file [f] of the folder
    [d], when it can read it and hash it. *)
Definition fingerprint_in (d : dir) (f : pystr) : option pystr :=
  match dir_lookup d f with
  | Some x =>
      if locked x then None
      else match data x with
           | Text t => sha256_hash t
           | Binary _ => None
           end
  | None => None
  end.

(** The fingerprint of a text artifact of the batch. *)
Definition fingerprint_at (w : world) (f : pystr) : option pystr :=
  fingerprint_in (extracted_text w) f.

(** "A read-only Fingerprint set" built "by hashing every text file" of
    the repository; a file that cannot be read is left out. *)
Definition repository_fingerprints (d : dir) : gset pystr :=
  list_to_set (omap (fun g => if is_txt g then fingerprint_in d g else None) (names d)).

(** ** Fingerprint *)

Lemma join_nil_cons (p : pystr) (ps : list pystr) :
  Py.join [] (p :: ps) = p ++ Py.join [] ps.
Proof. destruct ps; simpl; [ by rewrite app_nil_r | done ]. Qed.

Lemma join_split_from (s cur : pystr) :
  Py.join [] (Py.split_from cur s) = cur ++ remove_whitespace s.
Proof.
  revert cur. induction s as [|c s IH]; intros cur.
  - destruct cur; simpl; [ done | by rewrite app_nil_r ].
  - unfold remove_whitespace in *. simpl Py.split_from.
    destruct (Py.isspace c) eqn:Hc.
    + rewrite filter_cons_False by (rewrite Hc; discriminate).
      destruct cur as [|a cur].
      * apply IH.
      * rewrite join_nil_cons, IH. done.
    + rewrite filter_cons_True by done.
      rewrite IH, <- app_assoc. done.
Qed.

(** Joining the pieces of a split string removes exactly its whitespace. *)
Lemma join_split (s : pystr) : Py.join [] (Py.split s) = remove_whitespace s.
Proof. unfold Py.split. by rewrite join_split_from. Qed.

Lemma hexdigest_length (r : SHA256.regs) : length (SHA256.hexdigest r) = 64%nat.
Proof. destruct r. reflexivity. Qed.

Lemma sha256_hash_fingerprint (t : pystr) : sha256_hash t = fingerprint t.
Proof.
  unfold sha256_hash, fingerprint, normalized. rewrite join_split.
  by destruct (Py.encode_utf8 _).
Qed.

(** C1.  The fingerprint computed by [sha256_hash] is the SHA-256 digest,
    in 64 hexadecimal digits, of the UTF-8 encoding of the text
    lower-cased and without its whitespace; it is defined whenever that
    encoding is; texts with the same normalized form have the same
    fingerprint, as "Invoice  #123" and "invoice#123" do. *)
Theorem sha256_hash_is_fingerprint (t : pystr) :
  sha256_hash t = fingerprint t
  /\ (forall b, Py.encode_utf8 (normalized t) = Some b ->
        sha256_hash t = Some (SHA256.hexdigest (SHA256.digest b)))
  /\ (forall d, sha256_hash t = Some d -> length d = 64%nat)
  /\ (forall t', normalized t = normalized t' -> sha256_hash t = sha256_hash t')
  /\ (sha256_hash (Py.str "Invoice  #123") = sha256_hash (Py.str "invoice#123")
      /\ sha256_hash (Py.str "invoice#123")
         = Some (Py.str "5f14a9570854f36322d244519f60ce06f8767cb5f91d59add3094b069fc4ec54")).
Proof.
  split; [ apply sha256_hash_fingerprint | ].
  split.
  { intros b Hb. rewrite sha256_hash_fingerprint. unfold fingerprint. by rewrite Hb. }
  split.
  { intros d. rewrite sha256_hash_fingerprint. unfold fingerprint.
    destruct (Py.encode_utf8 _); simpl; [ | discriminate ].
    intros [= <-]. apply hexdigest_length. }
  split.
  { intros t' Ht. rewrite !sha256_hash_fingerprint. unfold fingerprint. by rewrite Ht. }
  split; vm_compute; reflexivity.
Qed.

(** ** Folders as association lists *)

Lemma dir_lookup_write_eq (d : dir) f x : dir_lookup (dir_write d f x) f = Some x.
Proof.
  induction d as [|[g y] d IH]; simpl.
  - by rewrite decide_True.
  - destruct (decide (g = f)) as [->|Hne]; simpl.
    + by rewrite decide_True.
    + by rewrite decide_False.
Qed.

Lemma dir_lookup_write_ne (d : dir) f g x :
  f <> g -> dir_lookup (dir_write d f x) g = dir_lookup d g.
Proof.
  intros Hfg. induction d as [|[k y] d IH]; simpl.
  - by rewrite decide_False.
  - destruct (decide (k = f)) as [->|Hne]; simpl.
    + by rewrite !decide_False.
    + by rewrite IH.
Qed.

Lemma dir_lookup_remove_eq (d : dir) f : dir_lookup (dir_remove d f) f = None.
Proof.
  unfold dir_remove. induction d as [|[g y] d IH]; [ done | ].
  rewrite filter_cons. simpl. destruct (decide (g <> f)) as [Hne|Heq]; simpl.
  - by rewrite decide_False.
  - done.
Qed.

Lemma dir_lookup_remove_ne (d : dir) f g :
  f <> g -> dir_lookup (dir_remove d f) g = dir_lookup d g.
Proof.
  intros Hfg. unfold dir_remove. induction d as [|[k y] d IH]; [ done | ].
  rewrite filter_cons. simpl. destruct (decide (k <> f)) as [Hne|Heq]; simpl.
  - by rewrite IH.
  - apply dec_stable in Heq. subst k. by rewrite decide_False.
Qed.

Lemma dir_lookup_is_Some (d : dir) f : is_Some (dir_lookup d f) <-> f ∈ names d.
Proof.
  unfold names. induction d as [|[g y] d IH]; simpl.
  - split; [ by intros [? ?] | by intros ?%elem_of_nil ].
  - rewrite elem_of_cons. destruct (decide (g = f)) as [->|Hne].
    + split; eauto.
    + rewrite IH. split; [ auto | intros [?|?]; congruence ].
Qed.

Lemma dir_lookup_None (d : dir) f : dir_lookup d f = None <-> f ∉ names d.
Proof. rewrite <- dir_lookup_is_Some, eq_None_not_Some. done. Qed.

Lemma dir_write_fresh (d : dir) f x :
  dir_lookup d f = None -> dir_write d f x = d ++ [(f, x)].
Proof.
  induction d as [|[g y] d IH]; simpl; [ done | ].
  destruct (decide (g = f)); [ discriminate | ]. intros H. by rewrite IH.
Qed.

Lemma dir_remove_absent (d : dir) f : dir_lookup d f = None -> dir_remove d f = d.
Proof.
  unfold dir_remove. induction d as [|[g y] d IH]; simpl; [ done | ].
  destruct (decide (g = f)); [ discriminate | ]. intros H.
  rewrite filter_cons. simpl. rewrite decide_True by done. by rewrite IH.
Qed.

(** ** The folders of a world *)

Lemma get_set_eq F d w : get_dir F (set_dir F d w) = d.
Proof. by destruct F. Qed.

Lemma get_set_ne F G d w : F <> G -> get_dir G (set_dir F d w) = get_dir G w.
Proof. by destruct F, G. Qed.

Lemma get_print F e w : get_dir F (print e w) = get_dir F w.
Proof. by destruct F. Qed.

Lemma stdout_set F d w : stdout (set_dir F d w) = stdout w.
Proof. by destruct F. Qed.

(** ** Running a computation *)

(** The state in which a computation ends. *)
Definition exec {L A} (m : M L A) (s : world * L) : world * L := (m s).2.

(** The computation returns, whatever the state: it lets no exception
    out. *)
Definition total {L A} (m : M L A) : Prop :=
  forall s, exists a, (m s).1 = Returns a.

Lemma for_each_cons_exec {L X} (body : X -> M L unit) x xs s :
  (body x s).1 = Returns tt ->
  for_each (x :: xs) body s = for_each xs body (exec (body x) s).
Proof.
  intros H. unfold exec. simpl. unfold bind.
  destruct (body x s) as [[[]|e] s']; simpl in *; congruence.
Qed.

Lemma for_each_total {L X} (body : X -> M L unit) xs :
  (forall x, total (body x)) -> total (for_each xs body).
Proof.
  intros Hb. induction xs as [|x xs IH]; intros s; simpl.
  - by exists tt.
  - unfold bind. destruct (Hb x s) as [[] Hx].
    destruct (body x s) as [[[]|e] s']; simpl in *; [ apply IH | discriminate ].
Qed.

(** A property of states kept by every iteration is kept by the loop. *)
Lemma for_each_invariant {L X} (I : world * L -> Prop) (body : X -> M L unit) xs :
  (forall x s, I s -> I (exec (body x) s)) ->
  forall s, I s -> I (exec (for_each xs body) s).
Proof.
  intros Hb. induction xs as [|x xs IH]; intros s Hs; [ done | ].
  unfold exec in *. simpl. unfold bind.
  specialize (Hb x s Hs). destruct (body x s) as [[[]|e] s']; simpl in *; auto.
Qed.

(** ** Reasoning about computations: weakest preconditions *)

(** [wp m Q s]: run from [s], the computation [m] ends with an outcome and
    a state that satisfy [Q]. *)
Definition wp {L A} (m : M L A) (Q : outcome A -> world * L -> Prop) (s : world * L) : Prop :=
  Q (m s).1 (m s).2.

Lemma wp_eq {L A} (m : M L A) Q s r s' : m s = (r, s') -> Q r s' -> wp m Q s.
Proof. unfold wp. by intros ->. Qed.

Lemma wp_elim {L A} (m : M L A) Q s : wp m Q s -> Q (m s).1 (m s).2.
Proof. done. Qed.

Lemma wp_run {L A} (m : M L A) s p : wp m (fun r s' => (r, s') = p) s -> m s = p.
Proof. unfold wp. by destruct (m s). Qed.

Lemma wp_mono {L A} (m : M L A) (Q Q' : outcome A -> world * L -> Prop) s :
  (forall r s', Q r s' -> Q' r s') -> wp m Q s -> wp m Q' s.
Proof. unfold wp. auto. Qed.

Lemma wp_ret {L A} (a : A) (Q : outcome A -> world * L -> Prop) s :
  Q (Returns a) s -> wp (ret a) Q s.
Proof. done. Qed.

Lemma wp_raise {L A} e (Q : outcome A -> world * L -> Prop) s :
  Q (Raises e) s -> wp (raise e) Q s.
Proof. done. Qed.

Lemma wp_bind {L A B} (m : M L A) (k : A -> M L B) Q s :
  wp m (fun r s' => match r with
                    | Returns a => wp (k a) Q s'
                    | Raises e => Q (Raises e) s'
                    end) s ->
  wp (bind m k) Q s.
Proof. unfold wp, bind. by destruct (m s) as [[a|e] s']. Qed.

Lemma wp_try_except {L A} (body : M L A) handler Q s :
  wp body (fun r s' => match r with
                       | Returns a => Q (Returns a) s'
                       | Raises e => wp (handler e) Q s'
                       end) s ->
  wp (try_except body handler) Q s.
Proof. unfold wp, try_except. by destruct (body s) as [[a|e] s']. Qed.

Lemma wp_when {L} (b : bool) (m : M L unit) Q s :
  (if b then wp m Q s else Q (Returns tt) s) -> wp (when b m) Q s.
Proof. by destruct b. Qed.

Lemma wp_local {L} (Q : outcome L -> world * L -> Prop) w l :
  Q (Returns l) (w, l) -> wp local Q (w, l).
Proof. done. Qed.

Lemma wp_assign {L} (f : L -> L) Q w l :
  Q (Returns tt) (w, f l) -> wp (assign f) Q (w, l).
Proof. done. Qed.

Lemma wp_the_world {L} (Q : outcome world -> world * L -> Prop) w l :
  Q (Returns w) (w, l) -> wp the_world Q (w, l).
Proof. done. Qed.

Lemma wp_update_world {L} (f : world -> world) Q w (l : L) :
  Q (Returns tt) (f w, l) -> wp (update_world f) Q (w, l).
Proof. done. Qed.

Lemma wp_log {L} e Q w (l : L) :
  Q (Returns tt) (print e w, l) -> wp (log e) Q (w, l).
Proof. done. Qed.

Lemma wp_call {L L' A} (init : L') (m : M L' A) Q w (l : L) :
  wp m (fun r s' => Q r (s'.1, l)) (w, init) -> wp (call init m) Q (w, l).
Proof. unfold wp, call. simpl. by destruct (m (w, init)) as [r [w' l']]. Qed.

Lemma wp_os_listdir {L} F Q w (l : L) :
  Q (Returns (names (get_dir F w))) (w, l) -> wp (os_listdir F) Q (w, l).
Proof. done. Qed.

Lemma wp_os_path_exists {L} F f Q w (l : L) :
  match dir_lookup (get_dir F w) f with
  | Some _ => Q (Returns true) (w, l)
  | None => Q (Returns false) (w, l)
  end ->
  wp (os_path_exists F f) Q (w, l).
Proof.
  unfold wp, os_path_exists, bind, the_world, ret. simpl.
  by destruct (dir_lookup _ _).
Qed.

Lemma wp_os_remove {L} F f Q w (l : L) :
  match dir_lookup (get_dir F w) f with
  | None => Q (Raises FileNotFoundError) (w, l)
  | Some x =>
      if locked x then Q (Raises PermissionError) (w, l)
      else Q (Returns tt) (set_dir F (dir_remove (get_dir F w) f) w, l)
  end ->
  wp (os_remove F f) Q (w, l).
Proof.
  unfold wp, os_remove, bind, the_world. simpl.
  destruct (dir_lookup _ _) as [x|]; [ | done ]. by destruct (locked x).
Qed.

Lemma wp_put_file {L} x G g Q w (l : L) :
  match dir_lookup (get_dir G w) g with
  | Some y =>
      if locked y then Q (Raises PermissionError) (w, l)
      else Q (Returns tt) (set_dir G (dir_write (get_dir G w) g x) w, l)
  | None => Q (Returns tt) (set_dir G (dir_write (get_dir G w) g x) w, l)
  end ->
  wp (put_file x G g) Q (w, l).
Proof.
  unfold wp, put_file, bind, the_world. simpl.
  destruct (dir_lookup _ _) as [y|]; [ | done ]. by destruct (locked y).
Qed.

Lemma wp_copy2_file {L} x G g Q w (l : L) :
  (if locked x then Q (Raises PermissionError) (w, l)
   else wp (put_file x G g) Q (w, l)) ->
  wp (copy2_file x G g) Q (w, l).
Proof. unfold copy2_file. by destruct (locked x). Qed.

Lemma wp_shutil_copy2 {L} F f G g Q w (l : L) :
  match dir_lookup (get_dir F w) f with
  | None => Q (Raises FileNotFoundError) (w, l)
  | Some x => wp (copy2_file x G g) Q (w, l)
  end ->
  wp (shutil_copy2 F f G g) Q (w, l).
Proof.
  unfold shutil_copy2. intros H. apply wp_bind, wp_the_world.
  by destruct (dir_lookup _ _).
Qed.

Lemma wp_shutil_move {L} F f G g Q w (l : L) :
  match dir_lookup (get_dir F w) f with
  | None => Q (Raises FileNotFoundError) (w, l)
  | Some x =>
      if locked x then Q (Raises PermissionError) (w, l)
      else wp (put_file x G g)
             (fun r s' => match r with
                          | Returns _ =>
                              Q (Returns tt)
                                (set_dir F (dir_remove (get_dir F s'.1) f) s'.1, s'.2)
                          | Raises e => Q (Raises e) s'
                          end) (w, l)
  end ->
  wp (shutil_move F f G g) Q (w, l).
Proof.
  unfold shutil_move. intros H. apply wp_bind, wp_the_world.
  destruct (dir_lookup _ _) as [x|]; [ | done ].
  destruct (locked x); [ done | ].
  apply wp_bind. eapply wp_mono; [ | exact H ].
  intros [[]|e] [w' l'] Hq; [ | done ]. simpl in *.
  by apply wp_bind, wp_the_world, wp_update_world.
Qed.

Lemma wp_read_text {L} F f Q w (l : L) :
  match dir_lookup (get_dir F w) f with
  | None => Q (Raises FileNotFoundError) (w, l)
  | Some x =>
      if locked x then Q (Raises PermissionError) (w, l)
      else match data x with
           | Text t => Q (Returns t) (w, l)
           | Binary _ => Q (Raises UnicodeDecodeError) (w, l)
           end
  end ->
  wp (read_text F f) Q (w, l).
Proof.
  unfold read_text. intros H. apply wp_bind, wp_the_world.
  destruct (dir_lookup _ _) as [x|]; [ | done ].
  destruct (locked x); [ done | ]. by destruct (data x).
Qed.

Lemma wp_sha256_hash_or_raise {L} text Q (s : world * L) :
  match sha256_hash text with
  | Some h => Q (Returns h) s
  | None => Q (Raises UnicodeEncodeError) s
  end ->
  wp (sha256_hash_or_raise text) Q s.
Proof. unfold sha256_hash_or_raise. by destruct (sha256_hash text). Qed.

(** One step of symbolic execution. *)
Ltac wp_step :=
  lazymatch goal with
  | |- wp (bind _ _) _ _ => apply wp_bind
  | |- wp (try_except _ _) _ _ => apply wp_try_except
  | |- wp (ret _) _ _ => apply wp_ret
  | |- wp (raise _) _ _ => apply wp_raise
  | |- wp (when _ _) _ _ => apply wp_when
  | |- wp local _ _ => apply wp_local
  | |- wp (assign _) _ _ => apply wp_assign
  | |- wp the_world _ _ => apply wp_the_world
  | |- wp (update_world _) _ _ => apply wp_update_world
  | |- wp (log _) _ _ => apply wp_log
  | |- wp (call _ _) _ _ => apply wp_call
  | |- wp (os_listdir _) _ _ => apply wp_os_listdir
  | |- wp (os_path_exists _ _) _ _ => apply wp_os_path_exists
  | |- wp (os_remove _ _) _ _ => apply wp_os_remove
  | |- wp (put_file _ _ _) _ _ => apply wp_put_file
  | |- wp (copy2_file _ _ _) _ _ => apply wp_copy2_file
  | |- wp (shutil_copy2 _ _ _ _) _ _ => apply wp_shutil_copy2
  | |- wp (shutil_move _ _ _ _) _ _ => apply wp_shutil_move
  | |- wp (read_text _ _) _ _ => apply wp_read_text
  | |- wp (sha256_hash_or_raise _) _ _ => apply wp_sha256_hash_or_raise
  end.


Arguments Py.str : simpl never.
Arguments sha256_hash : simpl never.

Ltac wp_known :=
  match goal with
  | H : ?x = _ |- context [match ?x with _ => _ end] => rewrite H
  | H : dir_lookup ?d ?f = _ |- context [dir_lookup ?d ?f] => rewrite H
  end.

Ltac wp_go := repeat first [ wp_step | wp_known | progress simpl ].

(** ** Intake *)

(** C3 (the code departs from the claim).  When the copy of the first
    file of a source folder raises, the handler around the whole walk logs
    the error and the walk is over: no file after it is visited, and the
    staging folders are as they were. *)
Theorem intake_stops_at_first_failure {L} f x (rest : tree) w (l : L) :
  locked x = true ->
  existsb (fun e => isdir e.2) rest = false ->
  copy_pdfs_to_main_folder (Some ((f, FileNode x) :: rest)) (w, l)
  = (Returns tt, (print (Error_copying_files PermissionError) (print Copying_files w), l)).
Proof.
  intros Hx Hrest. apply wp_run. unfold copy_pdfs_to_main_folder.
  wp_go. unfold process_file. wp_go. done.
Qed.

(** ** Local deduplication *)

(** C9.  A local duplicate whose PDF is not in the staging folder: the
    text artifact is deleted, no PDF is relocated, no error is logged and
    the loop goes on with the next artifact. *)
Theorem dedup_duplicate_without_pdf f rest w v h first_seen :
  fingerprint_at w f = Some h ->
  seen_hashes v !! h = Some first_seen ->
  dir_lookup (main_pdf w) (pdf_name_of f) = None ->
  let w' := print (Removed_duplicate_text f first_seen)
              (set_dir EXTRACTED_TEXT_FOLDER (dir_remove (extracted_text w) f) w) in
  let v' := DedupVars (seen_hashes v) (S (removed_count v)) in
  dedup_file f (w, v) = (Returns tt, (w', v'))
  /\ dir_lookup (extracted_text w') f = None
  /\ main_pdf w' = main_pdf w
  /\ duplicates_invoices w' = duplicates_invoices w
  /\ stdout w' = stdout w ++ [Removed_duplicate_text f first_seen]
  /\ deduplicate_loop (f :: rest) (w, v) = deduplicate_loop rest (w', v').
Proof.
  intros Hf Hs Hp w' v'. unfold fingerprint_at, fingerprint_in, pdf_name_of in *.
  assert (Hrun : dedup_file f (w, v) = (Returns tt, (w', v'))).
  { apply wp_run. unfold dedup_file.
    destruct (dir_lookup _ f) as [x|] eqn:Hx; [ | done ].
    destruct (locked x) eqn:Hl; [ done | ].
    destruct (data x) eqn:Hd; [ | done ].
    wp_go. done. }
  split; [ done | ].
  split; [ apply dir_lookup_remove_eq | ].
  repeat (split; [ done | ]).
  unfold deduplicate_loop. rewrite for_each_cons_exec by (by rewrite Hrun).
  unfold exec. by rewrite Hrun.
Qed.

(** ** Inventory *)

(** C8 (the code departs from the claim).  [list_files_as_dataframe] of
    [DF_Final.py], given a path at which there is no folder, raises. *)
Theorem list_files_as_dataframe_missing_folder_raises {L} (s : world * L) :
  list_files_as_dataframe None s = (Raises FileNotFoundError, s).
Proof. reflexivity. Qed.

(** The method of [PyQt_Final.py] does what the claim says: an empty
    listing for a missing folder, one row per regular file directly in an
    existing one, nothing changed. *)
Lemma InvoicePipeline_list_files_as_dataframe_reports {L} (s : world * L) :
  InvoicePipeline_list_files_as_dataframe None s = (Returns [], s)
  /\ forall entries,
       InvoicePipeline_list_files_as_dataframe (Some entries) s
       = (Returns (rows_of entries), s)
       /\ map Filename (rows_of entries) = map fst (files_of entries).
Proof.
  split; [ done | ]. intros entries. split; [ done | ].
  unfold rows_of, files_of. induction entries as [|[n [x|sub]] es IH]; simpl; [ done | | done ].
  f_equal. apply IH.
Qed.

Lemma list_files_as_dataframe_existing {L} entries (s : world * L) :
  list_files_as_dataframe (Some entries) s = (Returns (rows_of entries), s).
Proof. reflexivity. Qed.

(** ** Loops *)

Lemma wp_for_each {L X} (P : list X -> world * L -> Prop) (body : X -> M L unit) :
  (forall x xs s, P (x :: xs) s ->
     wp (body x) (fun r s' => r = Returns tt /\ P xs s') s) ->
  forall xs s, P xs s ->
    wp (for_each xs body) (fun r s' => r = Returns tt /\ P [] s') s.
Proof.
  intros Hb. induction xs as [|x xs IH]; intros s Hs; simpl.
  - by apply wp_ret.
  - apply wp_bind. eapply wp_mono; [ | apply (Hb x xs s Hs) ].
    intros r s' [-> Hs']. by apply IH.
Qed.

(** A loop invariant that does not depend on what is left to do. *)
Lemma wp_for_each_inv {L X} (I : world * L -> Prop) (body : X -> M L unit) xs s :
  (forall x s, x ∈ xs -> I s -> wp (body x) (fun r s' => r = Returns tt /\ I s') s) ->
  I s ->
  wp (for_each xs body) (fun r s' => r = Returns tt /\ I s') s.
Proof.
  intros Hb Hs.
  pose (P := fun (rem : list X) (s : world * L) => rem ⊆ xs /\ I s).
  eapply wp_mono; [ | apply (wp_for_each P body) with (xs := xs) ].
  - intros r s' [-> [_ Hs']]. done.
  - intros x rem s0 [Hsub Hs0]. eapply wp_mono; [ | apply Hb; [ | done ] ].
    + intros r s' [-> Hs']. split; [ done | ]. split; [ | done ].
      intros y Hy. apply Hsub. by right.
    + apply Hsub. by left.
  - done.
Qed.

Ltac goal_case :=
  match goal with
  | |- context [match ?x with _ => _ end] => destruct x eqn:?
  end.

Ltac wp_cases := repeat first [ wp_step | wp_known | progress simpl | goal_case ].

Ltac dir_simpl :=
  repeat first
    [ rewrite dir_lookup_write_eq
    | rewrite dir_lookup_write_ne by congruence
    | rewrite dir_lookup_remove_eq
    | rewrite dir_lookup_remove_ne by congruence ].

(** ** Comparison with the repository *)

Section Exception_copy.
Variables (w0 : world) (f : pystr) (x : file).
Hypothesis Hx : dir_lookup (exception_dir w0) f = Some x.
Hypothesis Hpdf : is_pdf f = true.
Hypothesis Hfree : locked x = false.

(** What the first two loops of the comparator keep: the Exception
    folder, and that nothing held stands at [f] in the Unique folder. *)
Definition exception_kept (s : world * compare_vars) : Prop :=
  exception_dir s.1 = exception_dir w0
  /\ forall y, dir_lookup (unique_invoices s.1) f = Some y -> locked y = false.

Lemma add_repo_hash_keeps g s :
  exception_kept s -> wp (add_repo_hash g) (fun r s' => r = Returns tt /\ exception_kept s') s.
Proof.
  destruct s as [w v]. unfold exception_kept, add_repo_hash. intros [He Hu].
  wp_cases; done.
Qed.

Lemma compare_file_keeps g s :
  exception_kept s -> wp (compare_file g) (fun r s' => r = Returns tt /\ exception_kept s') s.
Proof.
  destruct s as [w v]. unfold exception_kept, compare_file. intros [He Hu].
  wp_cases; try done;
    (split; [ done | ]; split; [ done | ]; intros y;
     match goal with
     | |- context [dir_write _ ?p _] =>
         destruct (decide (p = f)) as [->|Hne]; dir_simpl; [ congruence | auto ]
     end).
Qed.

(** The last loop: the Exception folder is kept, and once [f] has been
    met its copy is in the Unique folder. *)
Definition exception_copied (rem : list pystr) (s : world * compare_vars) : Prop :=
  exception_kept s
  /\ (f ∈ rem \/ dir_lookup (unique_invoices s.1) f = Some x).

Lemma copy_exception_pdf_step g rem s :
  exception_copied (g :: rem) s ->
  wp (copy_exception_pdf g) (fun r s' => r = Returns tt /\ exception_copied rem s') s.
Proof.
  destruct s as [w v]. unfold exception_copied, exception_kept, copy_exception_pdf.
  intros [[He Hu] Hf]. simpl in *.
  destruct (decide (g = f)) as [->|Hne].
  - pose proof Hx as Hx'. rewrite <- He in Hx'. rewrite Hpdf. wp_go.
    destruct (dir_lookup (unique_invoices w) f) as [y|] eqn:Hy.
    + rewrite (Hu y eq_refl). wp_go. dir_simpl.
      repeat split; auto. intros ? [= <-]. done.
    + wp_go. dir_simpl. repeat split; auto. intros ? [= <-]. done.
  - assert (Hf' : f ∈ rem \/ dir_lookup (unique_invoices w) f = Some x).
    { destruct Hf as [Hin|?]; [ | by right ].
      apply elem_of_cons in Hin as [?|?]; [ congruence | by left ]. }
    wp_cases; dir_simpl; repeat split; auto.
Qed.
End Exception_copy.

(** C6.  A PDF that is in the Exception folder when the comparator runs,
    and that can be read, is copied into the Unique folder and not moved:
    after the stage the Exception folder is what it was and the Unique
    folder has the file under the same name. *)
Theorem exception_pdf_copied_not_moved {L} w (l : L) f x :
  dir_lookup (exception_dir w) f = Some x ->
  is_pdf f = true ->
  locked x = false ->
  (forall y, dir_lookup (unique_invoices w) f = Some y -> locked y = false) ->
  exists w',
    cross_compare_with_repository (w, l) = (Returns tt, (w', l))
    /\ exception_dir w' = exception_dir w
    /\ dir_lookup (exception_dir w') f = Some x
    /\ dir_lookup (unique_invoices w') f = Some x.
Proof.
  intros Hx Hpdf Hfree Hu.
  pose (Q := fun (r : outcome unit) (s' : world * L) =>
               r = Returns tt /\ s'.2 = l /\ exception_dir s'.1 = exception_dir w
               /\ dir_lookup (unique_invoices s'.1) f = Some x).
  assert (Hwp : wp cross_compare_with_repository Q (w, l)).
  { unfold cross_compare_with_repository, cross_compare_body, build_repo_hashes,
      compare_extracted, copy_exception_pdfs.
    wp_go.
    eapply wp_mono; [ | apply (wp_for_each_inv (exception_kept w f)) ];
      [ | intros; by apply (add_repo_hash_keeps w f x) | by split ].
    intros r [w1 v1] [-> H1]. wp_go.
    eapply wp_mono; [ | apply (wp_for_each_inv (exception_kept w f)) ];
      [ | intros; by apply (compare_file_keeps w f x) | done ].
    intros r [w2 v2] [-> H2]. wp_go.
    eapply wp_mono; [ | apply (wp_for_each (exception_copied w f x)) ];
      [ | intros; by apply copy_exception_pdf_step | ].
    - intros r [w3 v3] [-> [[He3 _] Hf3]]. wp_go.
      destruct Hf3 as [Hin|Hf3]; [ by apply elem_of_nil in Hin | ].
      by repeat split.
    - split; [ done | ]. left. destruct H2 as [He2 _]. simpl in *. rewrite He2.
      apply dir_lookup_is_Some. by rewrite Hx. }
  unfold wp, Q in Hwp.
  destruct (cross_compare_with_repository (w, l)) as [r [w' l']]. simpl in Hwp.
  destruct Hwp as (-> & -> & He & Hf). exists w'.
  repeat split; [ done | by rewrite He | done ].
Qed.

(** ** What a stage leaves alone *)

(** [untouched P w w']: from [w] to [w'], a file can only have changed
    where [P] holds, and a folder none of whose names satisfies [P] is
    the same list. *)
Definition untouched (P : folder -> pystr -> Prop) (w w' : world) : Prop :=
  forall F,
    (forall g, ~ P F g -> dir_lookup (get_dir F w') g = dir_lookup (get_dir F w) g)
    /\ ((forall g, ~ P F g) -> get_dir F w' = get_dir F w).

Lemma untouched_refl P w : untouched P w w.
Proof. by intros F. Qed.

Lemma untouched_trans P w1 w2 w3 :
  untouched P w1 w2 -> untouched P w2 w3 -> untouched P w1 w3.
Proof.
  intros H12 H23 F. destruct (H12 F) as [Ha Hb], (H23 F) as [Hc Hd]. split.
  - intros g Hg. by rewrite Hc, Ha.
  - intros Hall. by rewrite Hd, Hb.
Qed.

Lemma untouched_weaken (P P' : folder -> pystr -> Prop) w w' :
  (forall F g, P F g -> P' F g) -> untouched P w w' -> untouched P' w w'.
Proof.
  intros HP H F. destruct (H F) as [Ha Hb]. split.
  - intros g Hg. apply Ha. auto.
  - intros Hall. apply Hb. intros g Hg. by apply (Hall g), HP.
Qed.

Lemma untouched_print P w w1 e : untouched P w w1 -> untouched P w (print e w1).
Proof. intros H F. rewrite get_print. apply H. Qed.

Lemma untouched_write P w w1 G g x :
  P G g -> untouched P w w1 ->
  untouched P w (set_dir G (dir_write (get_dir G w1) g x) w1).
Proof.
  intros HP H F. destruct (H F) as [Ha Hb].
  destruct (decide (G = F)) as [<-|Hne].
  - rewrite get_set_eq. split.
    + intros g' Hg'. rewrite dir_lookup_write_ne by (intros ->; done). auto.
    + intros Hall. by destruct (Hall g).
  - by rewrite get_set_ne.
Qed.

Lemma untouched_remove P w w1 G g :
  P G g -> untouched P w w1 ->
  untouched P w (set_dir G (dir_remove (get_dir G w1) g) w1).
Proof.
  intros HP H F. destruct (H F) as [Ha Hb].
  destruct (decide (G = F)) as [<-|Hne].
  - rewrite get_set_eq. split.
    + intros g' Hg'. rewrite dir_lookup_remove_ne by (intros ->; done). auto.
    + intros Hall. by destruct (Hall g).
  - by rewrite get_set_ne.
Qed.

Lemma wp_returns {L A} (m : M L A) (a : A) (Q : world -> Prop) w (l : L) :
  wp m (fun r s' => r = Returns a /\ s'.2 = l /\ Q s'.1) (w, l) ->
  exists w', m (w, l) = (Returns a, (w', l)) /\ Q w'.
Proof.
  unfold wp. destruct (m (w, l)) as [r [w' l']]. simpl.
  intros (-> & -> & HQ). eauto.
Qed.

(** A loop whose body may raise: the invariant holds where it stops. *)
Lemma wp_for_each_may_raise {L X} (I : world * L -> Prop) (body : X -> M L unit) xs s :
  (forall x s, I s -> wp (body x) (fun _ s' => I s') s) ->
  I s ->
  wp (for_each xs body) (fun _ s' => I s') s.
Proof.
  intros Hb. revert s. induction xs as [|x xs IH]; intros s Hs; simpl.
  - by apply wp_ret.
  - apply wp_bind. eapply wp_mono; [ | apply (Hb x s Hs) ].
    intros [[]|e] s' Hs'; [ by apply IH | done ].
Qed.

Lemma wp_write_text {L} clk F f text Q w (l : L) :
  (let written :=
     match Py.encode_utf8 text with
     | None =>
         Q (Raises UnicodeEncodeError)
           (set_dir F (dir_write (get_dir F w) f (File (Text []) 0 clk false)) w, l)
     | Some b =>
         Q (Returns tt)
           (set_dir F (dir_write (get_dir F w) f
                         (File (Text text) (N.of_nat (length b)) clk false)) w, l)
     end in
   match dir_lookup (get_dir F w) f with
   | Some y => if locked y then Q (Raises PermissionError) (w, l) else written
   | None => written
   end) ->
  wp (write_text clk F f text) Q (w, l).
Proof.
  unfold write_text. intros H. apply wp_bind, wp_the_world. apply wp_bind.
  destruct (dir_lookup _ _) as [y|]; [ destruct (locked y); [ done | ] | ];
    apply wp_ret; destruct (Py.encode_utf8 text); simpl in *;
    try (by apply wp_update_world);
    by apply wp_bind, wp_update_world, wp_raise.
Qed.

Ltac wp_step ::=
  lazymatch goal with
  | |- wp (bind _ _) _ _ => apply wp_bind
  | |- wp (try_except _ _) _ _ => apply wp_try_except
  | |- wp (ret _) _ _ => apply wp_ret
  | |- wp (raise _) _ _ => apply wp_raise
  | |- wp (when _ _) _ _ => apply wp_when
  | |- wp local _ _ => apply wp_local
  | |- wp (assign _) _ _ => apply wp_assign
  | |- wp the_world _ _ => apply wp_the_world
  | |- wp (update_world _) _ _ => apply wp_update_world
  | |- wp (log _) _ _ => apply wp_log
  | |- wp (call _ _) _ _ => apply wp_call
  | |- wp (os_listdir _) _ _ => apply wp_os_listdir
  | |- wp (os_path_exists _ _) _ _ => apply wp_os_path_exists
  | |- wp (os_remove _ _) _ _ => apply wp_os_remove
  | |- wp (put_file _ _ _) _ _ => apply wp_put_file
  | |- wp (copy2_file _ _ _) _ _ => apply wp_copy2_file
  | |- wp (shutil_copy2 _ _ _ _) _ _ => apply wp_shutil_copy2
  | |- wp (shutil_move _ _ _ _) _ _ => apply wp_shutil_move
  | |- wp (read_text _ _) _ _ => apply wp_read_text
  | |- wp (write_text _ _ _ _) _ _ => apply wp_write_text
  | |- wp (sha256_hash_or_raise _) _ _ => apply wp_sha256_hash_or_raise
  end.

(** Symbolic execution that keeps the folder updates folded. *)
Ltac wp_frame :=
  repeat first [ wp_step | progress cbn beta iota zeta delta [fst snd] | goal_case ].

Ltac untouched_leaf side :=
  cbn beta iota zeta delta [fst snd] in *;
  repeat first
    [ assumption
    | apply untouched_refl
    | apply untouched_print
    | apply untouched_write; [ solve [ side ] | ]
    | apply untouched_remove; [ solve [ side ] | ] ].

(** What each stage may touch. *)
Definition touched_by_intake (F : folder) (g : pystr) : Prop :=
  (F = MAIN_PDF_FOLDER /\ is_pdf g = true) \/ (F = EXCEPTION_FOLDER /\ is_pdf g = false).

Definition touched_by_extraction (F : folder) (g : pystr) : Prop :=
  F = EXTRACTED_TEXT_FOLDER \/ F = MAIN_PDF_FOLDER
  \/ (F = EXCEPTION_FOLDER /\ is_pdf g = true).

Definition touched_by_dedup (F : folder) (g : pystr) : Prop :=
  F = EXTRACTED_TEXT_FOLDER \/ F = MAIN_PDF_FOLDER \/ F = DUPLICATES_INVOICES_FOLDER.

Lemma copy_pdfs_to_main_folder_frame {L} source_folder w (l : L) :
  exists w',
    copy_pdfs_to_main_folder source_folder (w, l) = (Returns tt, (w', l))
    /\ untouched touched_by_intake w w'.
Proof.
  apply wp_returns. unfold copy_pdfs_to_main_folder.
  assert (Hfile : forall x g (s : world * (nat * nat)),
            untouched touched_by_intake w s.1 ->
            wp (process_file x g) (fun _ s' => untouched touched_by_intake w s'.1) s).
  { intros x g [w1 c] H1. unfold process_file.
    wp_frame; untouched_leaf ltac:(unfold touched_by_intake; auto). }
  wp_frame.
  - eapply wp_mono;
      [ | apply (wp_for_each_may_raise (fun s => untouched touched_by_intake w s.1)) ].
    + intros [[]|e] [w1 c] H1; wp_frame; repeat split; untouched_leaf idtac.
    + intros files s Hs.
      eapply wp_mono;
        [ | apply (wp_for_each_may_raise (fun s => untouched touched_by_intake w s.1)) ];
        [ done | intros e s0; apply Hfile | done ].
    + untouched_leaf idtac.
  - eapply wp_mono;
      [ | apply (wp_for_each_may_raise (fun s => untouched touched_by_intake w s.1)) ].
    + intros [[]|e] [w1 c] H1; wp_frame; repeat split; untouched_leaf idtac.
    + intros [g [x|sub]] s Hs; cbn beta iota zeta delta [fst snd].
      * by apply Hfile.
      * by apply wp_ret.
    + untouched_leaf idtac.
  - repeat split; untouched_leaf idtac.
Qed.

Lemma extract_texts_frame {L} w (l : L) :
  exists w',
    extract_texts (w, l) = (Returns tt, (w', l))
    /\ untouched touched_by_extraction w w'.
Proof.
  apply wp_returns. unfold extract_texts. wp_frame.
  eapply wp_mono;
    [ | apply (wp_for_each_inv (fun s => untouched touched_by_extraction w s.1)) ].
  - intros r [w1 c] [-> H1]. wp_frame. repeat split; untouched_leaf idtac.
  - intros f [w1 c] _ H1.
    wp_frame; (split; [ done | ]);
      untouched_leaf ltac:(unfold touched_by_extraction; auto).
  - untouched_leaf idtac.
Qed.

Lemma dedup_file_frame w f (s : world * dedup_vars) :
  untouched touched_by_dedup w s.1 ->
  wp (dedup_file f) (fun r s' => r = Returns tt /\ untouched touched_by_dedup w s'.1) s.
Proof.
  intros Hs. destruct s as [w1 v1]. unfold dedup_file.
  wp_frame; (split; [ done | ]);
    untouched_leaf ltac:(unfold touched_by_dedup; auto).
Qed.

Lemma deduplicate_text_files_frame {L} w (l : L) :
  exists w',
    deduplicate_text_files (w, l) = (Returns tt, (w', l))
    /\ untouched touched_by_dedup w w'.
Proof.
  apply wp_returns. unfold deduplicate_text_files, deduplicate_loop. wp_frame.
  eapply wp_mono;
    [ | apply (wp_for_each_inv (fun s => untouched touched_by_dedup w s.1)) ].
  - intros r [w1 c] [-> H1]. wp_frame. repeat split; untouched_leaf idtac.
  - intros f s _ Hs. by apply dedup_file_frame.
  - untouched_leaf idtac.
Qed.

(** ** The comparison set *)

(** The six folders are the same lists; only the log may differ. *)
Definition same_folders (w w' : world) : Prop :=
  main_pdf w' = main_pdf w /\ extracted_text w' = extracted_text w
  /\ exception_dir w' = exception_dir w /\ unique_invoices w' = unique_invoices w
  /\ duplicates_invoices w' = duplicates_invoices w /\ repository w' = repository w.

Definition repo_fingerprint (d : dir) (g : pystr) : option pystr :=
  if is_txt g then fingerprint_in d g else None.

Lemma repository_fingerprints_eq d :
  repository_fingerprints d = list_to_set (omap (repo_fingerprint d) (names d)).
Proof. reflexivity. Qed.

Definition hashes_built (w : world) (v : compare_vars) (rem : list pystr)
    (s : world * compare_vars) : Prop :=
  same_folders w s.1
  /\ repo_hashes s.2 ∪ list_to_set (omap (repo_fingerprint (repository w)) rem)
     = repo_hashes v ∪ repository_fingerprints (repository w)
  /\ count_unique s.2 = count_unique v /\ count_duplicates s.2 = count_duplicates v.

Lemma add_repo_hash_step w v g rem s :
  hashes_built w v (g :: rem) s ->
  wp (add_repo_hash g) (fun r s' => r = Returns tt /\ hashes_built w v rem s') s.
Proof.
  destruct s as [w1 v1]. unfold hashes_built, same_folders, add_repo_hash.
  simpl. intros ((E1 & E2 & E3 & E4 & E5 & E6) & Hset & Hu & Hd).
  unfold repo_fingerprint at 1 in Hset. unfold fingerprint_in in Hset.
  rewrite <- E6 in Hset at 1.
  wp_cases; simpl in *; (split; [ done | ]); repeat split; try done.
  rewrite <- Hset. clear -Hset. set_solver.
Qed.

Lemma build_repo_hashes_run w v :
  wp build_repo_hashes
     (fun r s' => r = Returns tt /\ same_folders w s'.1
                  /\ repo_hashes s'.2 = repo_hashes v ∪ repository_fingerprints (repository w)
                  /\ count_unique s'.2 = count_unique v
                  /\ count_duplicates s'.2 = count_duplicates v)
     (w, v).
Proof.
  unfold build_repo_hashes. wp_go.
  eapply wp_mono; [ | apply (wp_for_each (hashes_built w v)) ].
  - intros r s' (-> & Hf & Hset & Hu & Hd). simpl in Hset.
    rewrite right_id_L in Hset; [ | apply _ ]. done.
  - intros; by apply add_repo_hash_step.
  - unfold hashes_built, same_folders. simpl. repeat split; done.
Qed.

Lemma wp_post {L A} (m : M L A) Q s : wp m Q s -> exists r s', m s = (r, s') /\ Q r s'.
Proof. unfold wp. destruct (m s) as [r s']. eauto. Qed.

Lemma compare_file_keeps_snapshot f (s : world * compare_vars) :
  wp (compare_file f)
     (fun r s' => r = Returns tt /\ repo_hashes s'.2 = repo_hashes s.2
                  /\ repository s'.1 = repository s.1) s.
Proof. destruct s as [w v]. unfold compare_file. wp_cases; done. Qed.

Lemma copy_exception_pdf_keeps_snapshot f (s : world * compare_vars) :
  wp (copy_exception_pdf f)
     (fun r s' => r = Returns tt /\ s'.2 = s.2 /\ repository s'.1 = repository s.1) s.
Proof. destruct s as [w v]. unfold copy_exception_pdf. wp_cases; done. Qed.

(** The stages of [main] before the comparator, and after it. *)
Definition before_comparison (source_folder : option tree) : M unit unit :=
  log Version_banner;;
  ensure_folders;;
  copy_pdfs_to_main_folder source_folder;;
  extract_texts;;
  deduplicate_text_files.

Definition after_comparison (now : timestamp) : M unit (list row * list row) :=
  update_repository now;;
  cleanup_main_pdf_folder;;
  log All_tasks_completed;;
  df_duplicates ← get_duplicate_invoices_dataframe;
  df_unique ← get_unique_invoices_dataframe;
  ret (df_duplicates, df_unique).

Lemma cross_compare_body_snapshot w :
  exists w' cu cd,
    cross_compare_body (w, CompareVars ∅ 0 0)
    = (Returns tt, (w', CompareVars (repository_fingerprints (repository w)) cu cd))
    /\ repository w' = repository w.
Proof.
  pose (I := fun s : world * compare_vars =>
               repo_hashes s.2 = repository_fingerprints (repository w)
               /\ repository s.1 = repository w).
  assert (Hwp : wp cross_compare_body (fun r s' => r = Returns tt /\ I s')
                   (w, CompareVars ∅ 0 0)).
  { unfold cross_compare_body. wp_go.
    eapply wp_mono; [ | apply build_repo_hashes_run ].
    intros r [w1 v1] (-> & Hf & Hset & _). simpl in *.
    rewrite left_id_L in Hset; [ | apply _ ].
    destruct Hf as (_ & _ & _ & _ & _ & Hrepo).
    unfold compare_extracted, copy_exception_pdfs. wp_go.
    eapply wp_mono; [ | apply (wp_for_each_inv I) ].
    - intros r [w2 v2] [-> H2]. wp_go.
      eapply wp_mono; [ | apply (wp_for_each_inv I) ].
      + intros r [w3 v3] [-> H3]. wp_go. done.
      + intros f [w3 v3] _ [H3 H3']. eapply wp_mono; [ | apply copy_exception_pdf_keeps_snapshot ].
        intros r [w4 v4] (-> & Hv & Hw). simpl in *. subst v4. split; [ done | ].
        split; simpl; congruence.
      + done.
    - intros f [w2 v2] _ [H2 H2']. eapply wp_mono; [ | apply compare_file_keeps_snapshot ].
      intros r [w3 v3] (-> & Hv & Hw). simpl in *. split; [ done | ].
      split; simpl; congruence.
    - by split. }
  apply wp_post in Hwp as (r & [w' [h cu cd]] & Hrun & -> & Hh & Hrepo).
  simpl in *. subst h. by exists w', cu, cd.
Qed.

Lemma bind_run {L A B} (m : M L A) (k : A -> M L B) s a s' :
  m s = (Returns a, s') -> bind m k s = k a s'.
Proof. unfold bind. by intros ->. Qed.

Lemma bind_assoc {L A B C} (m : M L A) (k : A -> M L B) (k' : B -> M L C) s :
  bind (bind m k) k' s = bind m (fun a => bind (k a) k') s.
Proof. unfold bind. by destruct (m s) as [[a|e] s']. Qed.

(** C5.  The comparator builds its fingerprint set once, from the
    repository as it stands when the stage starts; classifying a batch
    artifact and copying an exception PDF neither change the set nor the
    repository; and in a run the updater starts only after the comparator
    has returned, so that what it writes is not in the set of that run. *)
Theorem comparator_uses_repository_snapshot w :
  (exists w1 v1,
      (log Cross_comparing;; build_repo_hashes) (w, CompareVars ∅ 0 0)
      = (Returns tt, (w1, v1))
      /\ repo_hashes v1 = repository_fingerprints (repository w)
      /\ same_folders w w1)
  /\ (forall f s,
        (compare_file f s).1 = Returns tt
        /\ repo_hashes (exec (compare_file f) s).2 = repo_hashes s.2
        /\ repository (exec (compare_file f) s).1 = repository s.1)
  /\ (forall f s,
        (copy_exception_pdf f s).1 = Returns tt
        /\ repo_hashes (exec (copy_exception_pdf f) s).2 = repo_hashes s.2
        /\ repository (exec (copy_exception_pdf f) s).1 = repository s.1)
  /\ (exists w' cu cd,
        cross_compare_body (w, CompareVars ∅ 0 0)
        = (Returns tt, (w', CompareVars (repository_fingerprints (repository w)) cu cd))
        /\ repository w' = repository w)
  /\ (forall source_folder now,
        exists w1 w2 cu cd,
          before_comparison source_folder (w, tt) = (Returns tt, (w1, tt))
          /\ repository w1 = repository w
          /\ cross_compare_body (w1, CompareVars ∅ 0 0)
             = (Returns tt, (w2, CompareVars (repository_fingerprints (repository w)) cu cd))
          /\ repository w2 = repository w
          /\ main source_folder now (w, tt) = after_comparison now (w2, tt)).
Proof.
  split; [ | split; [ | split; [ | split ] ] ].
  - assert (Hwp : wp (log Cross_comparing;; build_repo_hashes)
                    (fun r s' => r = Returns tt
                                 /\ repo_hashes s'.2 = repository_fingerprints (repository w)
                                 /\ same_folders w s'.1)
                    (w, CompareVars ∅ 0 0)).
    { wp_go. eapply wp_mono; [ | apply build_repo_hashes_run ].
      intros r [w1 v1] (-> & Hf & Hset & _). simpl in *.
      rewrite left_id_L in Hset; [ | apply _ ]. done. }
    apply wp_post in Hwp as (r & [w1 v1] & Hrun & -> & Hh & Hf). eauto.
  - intros f s. pose proof (compare_file_keeps_snapshot f s) as Hwp.
    apply wp_post in Hwp as (r & s' & Hrun & -> & Hh & Hr).
    unfold exec. rewrite Hrun. done.
  - intros f s. pose proof (copy_exception_pdf_keeps_snapshot f s) as Hwp.
    apply wp_post in Hwp as (r & s' & Hrun & -> & Hh & Hr).
    unfold exec. rewrite Hrun. simpl. by rewrite Hh.
  - apply cross_compare_body_snapshot.
  - intros source_folder now.
    set (w0 := print Version_banner w).
    destruct (copy_pdfs_to_main_folder_frame (L := unit) source_folder w0 tt) as (wa & Ha & Fa).
    destruct (extract_texts_frame (L := unit) wa tt) as (wb & Hb & Fb).
    destruct (deduplicate_text_files_frame (L := unit) wb tt) as (w1 & Hc & Fc).
    destruct (cross_compare_body_snapshot w1) as (w2 & cu & cd & Hd & Hrepo).
    assert (Hr1 : repository w1 = repository w).
    { transitivity (repository wb); [ | transitivity (repository wa) ].
      - apply (Fc repository_folder). intros g Hg. unfold touched_by_dedup in Hg.
        destruct Hg as [?|[?|?]]; discriminate.
      - apply (Fb repository_folder). intros g Hg. unfold touched_by_extraction in Hg.
        destruct Hg as [?|[?|[? _]]]; discriminate.
      - apply (Fa repository_folder). intros g Hg. unfold touched_by_intake in Hg.
        destruct Hg as [[? _]|[? _]]; discriminate. }
    assert (He : cross_compare_with_repository (w1, tt) = (Returns tt, (w2, tt))).
    { unfold cross_compare_with_repository, call. simpl. by rewrite Hd. }
    exists w1, w2, cu, cd. rewrite <- Hr1.
    split; [ | split; [ done | split; [ done | split; [ done | ] ] ] ].
    + unfold before_comparison, ensure_folders.
      rewrite (bind_run (log Version_banner) _ (w, tt) tt (w0, tt)) by done.
      rewrite (bind_run (ret tt) _ (w0, tt) tt (w0, tt)) by done.
      rewrite (bind_run _ _ _ _ _ Ha), (bind_run _ _ _ _ _ Hb). exact Hc.
    + unfold main, after_comparison, ensure_folders.
      rewrite (bind_run (log Version_banner) _ (w, tt) tt (w0, tt)) by done.
      rewrite (bind_run (ret tt) _ (w0, tt) tt (w0, tt)) by done.
      rewrite (bind_run _ _ _ _ _ Ha), (bind_run _ _ _ _ _ Hb), (bind_run _ _ _ _ _ Hc),
        (bind_run _ _ _ _ _ He).
      reflexivity.
Qed.

(** ** Repository names *)

(** The name before its extension, and the names the collision policy
    goes through: the generated name, then "_1", "_2", ... before the
    extension. *)
Definition stem_of (now : timestamp) : pystr :=
  Py.str "INVC_" ++ date_str now ++ Py.str "_" ++ time_str now ++ Py.str "_"
  ++ month_year_str now.

Definition suffixed_name (now : timestamp) (n : nat) : pystr :=
  match n with
  | O => stem_of now ++ Py.str ".txt"
  | S _ => stem_of now ++ Py.str "_" ++ Py.str_of_nat n ++ Py.str ".txt"
  end.

(** What [strftime] gives for the three formats has no dot in it. *)
Definition timestamp_ok (now : timestamp) : Prop :=
  Forall (fun c => c <> 46) (date_str now ++ time_str now ++ month_year_str now).

(** The names given to the artifacts that were filed, in order. *)
Definition moved_names (out : list event) : list pystr :=
  omap (fun e => match e with Moved_and_renamed _ new_name => Some new_name | _ => None end) out.

Lemma replace_from_suffix (stem new : pystr) (fuel : nat) :
  Forall (fun c => c <> 46) stem ->
  (length stem < fuel)%nat ->
  Py.replace_from fuel (stem ++ Py.str ".txt") (Py.str ".txt") new = stem ++ new.
Proof.
  intros Hstem. revert fuel. induction Hstem as [|c stem Hc _ IH]; intros fuel Hlen.
  - destruct fuel as [|fuel]; [ simpl in Hlen; lia | ].
    change (Py.str ".txt") with [46; 116; 120; 116]. simpl.
    destruct fuel; simpl; by rewrite app_nil_r.
  - destruct fuel as [|fuel]; [ simpl in Hlen; lia | ].
    change (Py.str ".txt") with [46; 116; 120; 116] in *.
    cbn [Py.replace_from Py.startswith app].
    rewrite (proj2 (N.eqb_neq 46 c)) by done. cbn [andb].
    rewrite IH; [ done | simpl in Hlen; lia ].
Qed.

Lemma stem_of_no_dot now : timestamp_ok now -> Forall (fun c => c <> 46) (stem_of now).
Proof.
  unfold timestamp_ok, stem_of. rewrite !Forall_app. intros (Hd & Ht & Hm).
  repeat split; try done; by repeat constructor.
Qed.

Lemma base_name_of_stem now : base_name_of now = stem_of now ++ Py.str ".txt".
Proof. unfold base_name_of, stem_of. by rewrite <- !app_assoc. Qed.

Lemma replace_base_name now (new : pystr) :
  timestamp_ok now ->
  Py.replace (base_name_of now) (Py.str ".txt") new = stem_of now ++ new.
Proof.
  intros Hok. unfold Py.replace. rewrite base_name_of_stem.
  apply replace_from_suffix; [ by apply stem_of_no_dot | ].
  rewrite length_app. change (length (Py.str ".txt")) with 4%nat. lia.
Qed.

Lemma str_inj (s1 s2 : string) : Py.str s1 = Py.str s2 -> s1 = s2.
Proof.
  unfold Py.str. intros H.
  rewrite <- (String.string_of_list_ascii_of_string s1),
          <- (String.string_of_list_ascii_of_string s2).
  f_equal. revert H. generalize (String.list_ascii_of_string s2).
  induction (String.list_ascii_of_string s1) as [|a l1 IH]; intros [|b l2] H;
    simpl in *; try done.
  injection H as Hab Hl. f_equal; [ | by apply IH ].
  apply Nat2N.inj in Hab.
  rewrite <- (Ascii.ascii_nat_embedding a), <- (Ascii.ascii_nat_embedding b).
  by rewrite Hab.
Qed.

Lemma str_of_nat_inj n m : Py.str_of_nat n = Py.str_of_nat m -> n = m.
Proof. unfold Py.str_of_nat. intros H%str_inj. by apply (inj pretty). Qed.

Lemma suffixed_name_inj now n m : suffixed_name now n = suffixed_name now m -> n = m.
Proof.
  unfold suffixed_name. destruct n as [|n], m as [|m]; intros H;
    apply app_inv_head in H; try done.
  change (Py.str "_") with [95] in H. simpl in H. injection H as H.
  apply app_inv_tail in H. by apply str_of_nat_inj.
Qed.

(** Names below [c] that are all in the folder leave room for no more
    than its length. *)
Lemma taken_names_bound now (repo : dir) (c : nat) :
  (forall j, (j < c)%nat -> is_Some (dir_lookup repo (suffixed_name now j))) ->
  (c <= length repo)%nat.
Proof.
  intros Hall.
  assert (Hsub : suffixed_name now <$> seq 0 c ⊆+ names repo).
  { apply NoDup_submseteq.
    - apply NoDup_fmap_2; [ intros n m; apply suffixed_name_inj | apply NoDup_seq ].
    - intros g (j & -> & Hj%elem_of_seq)%list_elem_of_fmap.
      apply dir_lookup_is_Some, Hall. lia. }
  apply submseteq_length in Hsub. unfold names in Hsub.
  rewrite !length_fmap, length_seq in Hsub. done.
Qed.

Lemma resolve_name_from now (repo : dir) (fuel c : nat) :
  timestamp_ok now ->
  (forall j, (j < c)%nat -> is_Some (dir_lookup repo (suffixed_name now j))) ->
  (length repo < fuel + c)%nat ->
  exists k,
    (c <= k)%nat
    /\ resolve_name fuel repo (base_name_of now) (suffixed_name now c) (S c)
       = Some (suffixed_name now k, S k)
    /\ dir_lookup repo (suffixed_name now k) = None
    /\ forall j, (j < k)%nat -> is_Some (dir_lookup repo (suffixed_name now j)).
Proof.
  intros Hok. revert c. induction fuel as [|fuel IH]; intros c Hall Hlen.
  - apply taken_names_bound in Hall. simpl in Hlen. lia.
  - simpl. destruct (dir_lookup repo (suffixed_name now c)) as [y|] eqn:Hc.
    + rewrite bool_decide_true by eauto.
      rewrite replace_base_name by done.
      destruct (IH (S c)) as (k & Hk & Hres & Habs & Hbelow).
      * intros j Hj. destruct (decide (j = c)) as [->|]; [ eauto | apply Hall; lia ].
      * lia.
      * exists k. split; [ lia | ]. by rewrite <- Hres.
    + rewrite bool_decide_false by (by intros [? ?]).
      exists c. by repeat split.
Qed.

(** The [while] loop of the updater ends, on the first name of the
    sequence that is not in the repository. *)
Lemma resolve_name_first_free now (repo : dir) :
  timestamp_ok now ->
  exists k,
    resolve_name (S (length repo)) repo (base_name_of now) (base_name_of now) 1
    = Some (suffixed_name now k, S k)
    /\ dir_lookup repo (suffixed_name now k) = None
    /\ forall j, (j < k)%nat -> is_Some (dir_lookup repo (suffixed_name now j)).
Proof.
  intros Hok.
  destruct (resolve_name_from now repo (S (length repo)) 0 Hok) as (k & _ & H);
    [ intros; lia | lia | ].
  exists k. change (suffixed_name now 0) with (stem_of now ++ Py.str ".txt") in H.
  by rewrite <- base_name_of_stem in H.
Qed.

(** ** Repository update *)

Arguments resolve_name : simpl never.

(** One iteration of the updater files the artifact under the first free
    name of the sequence... *)
Definition filed_step (now : timestamp) (f : pystr) (k : nat) (s s' : world * nat) : Prop :=
  exists x,
    is_txt f = true
    /\ dir_lookup (extracted_text s.1) f = Some x /\ locked x = false
    /\ dir_lookup (repository s.1) (suffixed_name now k) = None
    /\ (forall j, (j < k)%nat -> is_Some (dir_lookup (repository s.1) (suffixed_name now j)))
    /\ repository s'.1 = dir_write (repository s.1) (suffixed_name now k) x
    /\ extracted_text s'.1 = dir_remove (extracted_text s.1) f
    /\ main_pdf s'.1 = main_pdf s.1 /\ exception_dir s'.1 = exception_dir s.1
    /\ unique_invoices s'.1 = unique_invoices s.1
    /\ duplicates_invoices s'.1 = duplicates_invoices s.1
    /\ stdout s'.1 = stdout s.1 ++ [Moved_and_renamed f (suffixed_name now k)]
    /\ s'.2 = S s.2.

(** ... or files nothing: the entry is not a text artifact, or it is gone,
    or it is held. *)
Definition skipped_step (f : pystr) (s s' : world * nat) : Prop :=
  (is_txt f = false \/ dir_lookup (extracted_text s.1) f = None
   \/ exists x, dir_lookup (extracted_text s.1) f = Some x /\ locked x = true)
  /\ same_folders s.1 s'.1
  /\ moved_names (stdout s'.1) = moved_names (stdout s.1)
  /\ (exists out, stdout s'.1 = stdout s.1 ++ out)
  /\ s'.2 = s.2.

Lemma moved_names_app out1 out2 :
  moved_names (out1 ++ out2) = moved_names out1 ++ moved_names out2.
Proof. unfold moved_names. apply omap_app. Qed.

Lemma file_text_step now f (s : world * nat) :
  timestamp_ok now ->
  exists s',
    file_text now f s = (Returns tt, s')
    /\ ((exists k, filed_step now f k s s') \/ skipped_step f s s').
Proof.
  intros Hok. destruct s as [w c].
  destruct (resolve_name_first_free now (repository w) Hok) as (k & Hres & Hfree & Hbelow).
  cut (wp (file_text now f)
          (fun r s' => r = Returns tt
                       /\ ((exists k, filed_step now f k (w, c) s') \/ skipped_step f (w, c) s'))
          (w, c)).
  { intros (r & s' & Hrun & -> & H)%wp_post. eauto. }
  unfold file_text.
  destruct (is_txt f) eqn:Htxt; simpl.
  2: { apply wp_ret. split; [ done | ]. right.
       unfold skipped_step, same_folders. simpl.
       repeat split; auto. exists []. by rewrite app_nil_r. }
  wp_go.
  destruct (dir_lookup (extracted_text w) f) as [x|] eqn:Hx; wp_go.
  2: { split; [ done | ]. right. unfold skipped_step, same_folders. simpl.
       rewrite moved_names_app. simpl. rewrite app_nil_r.
       repeat split; eauto. }
  destruct (locked x) eqn:Hl; wp_go.
  { split; [ done | ]. right. unfold skipped_step, same_folders. simpl.
    rewrite moved_names_app. simpl. rewrite app_nil_r.
    repeat split; eauto. }
  split; [ done | ]. left. exists k, x. simpl. repeat split; done.
Qed.

(** A text artifact that the updater can file: a [.txt] of the batch that
    is not held. *)
Definition unheld_text (w : world) (f : pystr) : Prop :=
  is_txt f = true
  /\ exists x, dir_lookup (extracted_text w) f = Some x /\ locked x = false.

(** From [w] to [w'] the artifact [f] has been filed under the name of
    index [k]: the repository did not have this name and has the file
    under it afterwards, with every name of the sequence before it. *)
Definition filed_under (now : timestamp) (w w' : world) (k : nat) (f : pystr) : Prop :=
  exists x,
    is_txt f = true
    /\ dir_lookup (extracted_text w) f = Some x /\ locked x = false
    /\ dir_lookup (repository w) (suffixed_name now k) = None
    /\ dir_lookup (repository w') (suffixed_name now k) = Some x
    /\ forall j, (j < k)%nat -> is_Some (dir_lookup (repository w') (suffixed_name now j)).

Lemma dir_lookup_remove_Some (d : dir) f g y :
  dir_lookup (dir_remove d f) g = Some y -> f <> g /\ dir_lookup d g = Some y.
Proof.
  destruct (decide (f = g)) as [->|Hne].
  - by rewrite dir_lookup_remove_eq.
  - by rewrite dir_lookup_remove_ne.
Qed.

(** The loop of the updater: the artifacts [fs] that it files, in the
    order of the listing, and the indices [ks] of their names. *)
Lemma file_text_loop_filed now listing :
  timestamp_ok now ->
  forall (s : world * nat) (bound : nat),
    (forall j, (j < bound)%nat ->
       is_Some (dir_lookup (repository s.1) (suffixed_name now j))) ->
    exists s' ks fs,
      for_each listing (file_text now) s = (Returns tt, s')
      /\ moved_names (stdout s'.1)
         = moved_names (stdout s.1) ++ (suffixed_name now <$> ks)
      /\ StronglySorted lt ks
      /\ Forall (fun k => (bound <= k)%nat) ks
      /\ Forall2 (filed_under now s.1 s'.1) ks fs
      /\ NoDup fs
      /\ (forall f, f ∈ fs <-> f ∈ listing /\ unheld_text s.1 f)
      /\ (forall g y, dir_lookup (repository s.1) g = Some y ->
                      dir_lookup (repository s'.1) g = Some y)
      /\ s'.2 = (s.2 + length ks)%nat.
Proof.
  intros Hok. induction listing as [|f rest IH]; intros s bound Hbound.
  - exists s, [], []. simpl. rewrite app_nil_r.
    split; [ done | ]. split; [ done | ]. split; [ constructor | ].
    split; [ constructor | ]. split; [ constructor | ]. split; [ constructor | ].
    split; [ | split; [ done | lia ] ].
    intros f. split; [ by intros ?%elem_of_nil | by intros [?%elem_of_nil _] ].
  - destruct (file_text_step now f s Hok) as (s1 & Hrun & Hstep).
    rewrite for_each_cons_exec by (by rewrite Hrun). unfold exec. rewrite Hrun. simpl.
    destruct Hstep as [(k & x & Htxt & Hx & Hl & Hfree & Hbelow & Hrepo & Hext & _ & _ & _ & _
                        & Hout & Hc)
                      |(Hwhy & Hsame & Hout & _ & Hc)].
    + assert (Hk : (bound <= k)%nat).
      { destruct (decide (bound <= k)%nat) as [|Hlt]; [ done | ].
        destruct (Hbound k) as [y Hy]; [ lia | congruence ]. }
      destruct (IH s1 (S k))
        as (s' & ks & fs & Hloop & Hnames & Hsorted & Hge & Hfiled & Hnd & Hfs & Hmono & Hcount).
      { intros j Hj. rewrite Hrepo. destruct (decide (j = k)) as [->|Hjk].
        - rewrite dir_lookup_write_eq. eauto.
        - rewrite dir_lookup_write_ne by (intros ?%suffixed_name_inj; done).
          apply Hbelow. lia. }
      assert (Hmono1 : forall g y, dir_lookup (repository s.1) g = Some y ->
                                   dir_lookup (repository s1.1) g = Some y).
      { intros g y Hg. rewrite Hrepo.
        rewrite dir_lookup_write_ne; [ done | ]. intros <-. congruence. }
      exists s', (k :: ks), (f :: fs). split; [ done | ].
      split; [ | split; [ | split; [ | split; [ | split; [ | split; [ | split ] ] ] ] ] ].
      * rewrite Hnames, Hout, moved_names_app. simpl. by rewrite <- app_assoc.
      * constructor; [ done | ]. eapply Forall_impl; [ exact Hge | ]. simpl. lia.
      * constructor; [ done | ]. eapply Forall_impl; [ exact Hge | ]. simpl. lia.
      * constructor.
        -- exists x. do 4 (split; [ done | ]). split.
           ++ apply Hmono. rewrite Hrepo. apply dir_lookup_write_eq.
           ++ intros j Hj. destruct (Hbelow j Hj) as [y Hy]. exists y.
              by apply Hmono, Hmono1.
        -- eapply Forall2_impl; [ exact Hfiled | ].
           intros k' f' (x' & Htxt' & Hx' & Hl' & Hfree' & Hin' & Hbelow').
           rewrite Hext in Hx'. apply dir_lookup_remove_Some in Hx' as [_ Hx'].
           exists x'. do 3 (split; [ done | ]). split; [ | done ].
           destruct (dir_lookup (repository s.1) (suffixed_name now k')) as [y|] eqn:Hy;
             [ | done ].
           apply Hmono1 in Hy. congruence.
      * apply NoDup_cons. split; [ | done ].
        intros Hin. apply Hfs in Hin as [_ (_ & y & Hy & _)].
        rewrite Hext, dir_lookup_remove_eq in Hy. done.
      * intros f0. rewrite !elem_of_cons, Hfs. unfold unheld_text. rewrite Hext. split.
        -- intros [->|(Hin & Htxt0 & y & Hy & Hly)].
           ++ split; [ by left | ]. split; [ done | ]. by exists x.
           ++ apply dir_lookup_remove_Some in Hy as [_ Hy].
              split; [ by right | ]. split; [ done | ]. by exists y.
        -- intros ([->|Hin] & Htxt0 & y & Hy & Hly); [ by left | ].
           destruct (decide (f = f0)) as [->|Hne]; [ by left | ]. right.
           split; [ done | ]. split; [ done | ]. exists y.
           by rewrite dir_lookup_remove_ne.
      * intros g y Hg. by apply Hmono, Hmono1.
      * rewrite Hcount, Hc. simpl. lia.
    + destruct Hsame as (_ & Hext & _ & _ & _ & Hrepo).
      destruct (IH s1 bound)
        as (s' & ks & fs & Hloop & Hnames & Hsorted & Hge & Hfiled & Hnd & Hfs & Hmono & Hcount).
      { intros j Hj. rewrite Hrepo. by apply Hbound. }
      exists s', ks, fs. rewrite Hnames, Hout, Hcount, Hc.
      unfold filed_under, unheld_text in *. rewrite Hext, Hrepo in *.
      do 6 (split; [ done | ]). split; [ | done ].
      intros f0. rewrite elem_of_cons, Hfs.
      split; [ intros [? ?]; split; [ by right | done ] | ].
      intros ([->|Hin] & Htxt0 & y & Hy & Hly);
        [ exfalso | split; [ done | ]; split; [ done | ]; by exists y ].
      destruct Hwhy as [?|[?|(y' & ? & ?)]]; congruence.
Qed.

(** C4.  The collision loop of the updater ends on the first name of the
    sequence "generated name, then _1, _2, ... before the extension" that
    is not in the repository.  A run of the updater files the text
    artifacts of the batch that are not held, each of them once: the
    [N] artifacts [fs] under [N] names, whose indices [ks] are strictly
    increasing, so that the names are pairwise distinct.  Each index is
    that of a name which the repository did not have, and which it has
    afterwards for the artifact, as it has every name of the sequence
    before it: no index is left out. *)
Theorem repository_names_increasing {L} now w (l : L) :
  timestamp_ok now ->
  (forall repo : dir,
      exists k,
        resolve_name (S (length repo)) repo (base_name_of now) (base_name_of now) 1
        = Some (suffixed_name now k, S k)
        /\ dir_lookup repo (suffixed_name now k) = None
        /\ forall j, (j < k)%nat -> is_Some (dir_lookup repo (suffixed_name now j)))
  /\ exists w' ks fs,
       update_repository now (w, l) = (Returns tt, (w', l))
       /\ moved_names (stdout w') = moved_names (stdout w) ++ (suffixed_name now <$> ks)
       /\ StronglySorted lt ks
       /\ NoDup (suffixed_name now <$> ks)
       /\ Forall (fun k => is_Some (dir_lookup (repository w') (suffixed_name now k))) ks
       /\ NoDup fs
       /\ (forall f, f ∈ fs <-> unheld_text w f)
       /\ Forall2 (filed_under now w w') ks fs
       /\ last (stdout w') = Some (Moved_and_renamed_count (length fs)).
Proof.
  intros Hok. split; [ intros repo; by apply resolve_name_first_free | ].
  destruct (file_text_loop_filed now (names (extracted_text w)) Hok
              (print Updating_repository w, 0%nat) 0%nat)
    as ([w1 c1] & ks & fs & Hloop & Hnames & Hsorted & _ & Hfiled & Hnd & Hfs & _ & Hcount);
    [ intros; lia | ].
  simpl in *. subst c1.
  exists (print (Moved_and_renamed_count (length ks)) w1), ks, fs.
  split; [ | split; [ | split; [ done | split; [ | split; [ | split; [ done | split;
    [ | split ] ] ] ] ] ] ].
  - apply wp_run. unfold update_repository. wp_go.
    eapply wp_eq; [ exact Hloop | ]. wp_go. done.
  - simpl in *. rewrite moved_names_app, Hnames, moved_names_app. simpl.
    by rewrite !app_nil_r.
  - apply NoDup_fmap_2; [ intros n m; apply suffixed_name_inj | ].
    clear -Hsorted. induction Hsorted as [|k ks _ IH Hk]; constructor; [ | done ].
    intros Hin. rewrite Forall_forall in Hk. specialize (Hk k Hin). lia.
  - clear -Hfiled. induction Hfiled as [|k f ks fs (x & _ & _ & _ & _ & Hx & _) _ IH];
      constructor; [ by exists x | done ].
  - intros f. rewrite Hfs. split; [ by intros [_ ?] | ].
    intros Hf. split; [ | done ].
    destruct Hf as (_ & x & Hx & _). apply dir_lookup_is_Some. by rewrite Hx.
  - done.
  - simpl. rewrite (Forall2_length _ _ _ Hfiled). apply last_snoc.
Qed.

(** ** A unique text whose PDF is not in the staging folder *)

Section Orphan_text.
Variables (w0 : world) (f : pystr) (x : file) (t h : pystr).
Hypothesis Hx : dir_lookup (extracted_text w0) f = Some x.
Hypothesis Hfree : locked x = false.
Hypothesis Hdata : data x = Text t.
Hypothesis Hhash : sha256_hash t = Some h.
Hypothesis Hnew : h ∉ repository_fingerprints (repository w0).
Hypothesis Hpdf : dir_lookup (main_pdf w0) (pdf_name_of f) = None.

(** Kept while the comparator classifies and copies: the text stays,
    its PDF does not appear in the staging folder, and no PDF of that
    name comes into the Unique folder unless the Exception folder had
    one. *)
Definition orphan_kept (s : world * compare_vars) : Prop :=
  dir_lookup (extracted_text s.1) f = Some x
  /\ dir_lookup (main_pdf s.1) (pdf_name_of f) = None
  /\ (dir_lookup (exception_dir w0) (pdf_name_of f) = None ->
      dir_lookup (unique_invoices s.1) (pdf_name_of f)
      = dir_lookup (unique_invoices w0) (pdf_name_of f))
  /\ exception_dir s.1 = exception_dir w0
  /\ repo_hashes s.2 = repository_fingerprints (repository w0).

Ltac orphan_leaf Hex :=
  (split; [ done | ]); dir_simpl; repeat split; try done;
  let H := fresh in
  let H' := fresh in
  intros H; pose proof H as H'; try rewrite <- Hex in H'; dir_simpl; eauto; congruence.

Lemma compare_file_keeps_orphan g s :
  orphan_kept s -> wp (compare_file g) (fun r s' => r = Returns tt /\ orphan_kept s') s.
Proof.
  destruct s as [w v]. unfold orphan_kept, compare_file, pdf_name_of in *. simpl.
  intros (He & Hm & Hu & Hex & Hr).
  destruct (decide (g = f)) as [->|Hne].
  - wp_go. rewrite decide_False by (by rewrite Hr). wp_go. done.
  - wp_cases; orphan_leaf Hex.
Qed.

Lemma copy_exception_pdf_keeps_orphan g s :
  orphan_kept s ->
  wp (copy_exception_pdf g) (fun r s' => r = Returns tt /\ orphan_kept s') s.
Proof.
  destruct s as [w v]. unfold orphan_kept, copy_exception_pdf, pdf_name_of in *. simpl.
  intros (He & Hm & Hu & Hex & Hr).
  wp_cases; orphan_leaf Hex.
Qed.

Lemma compare_file_orphan v :
  h ∉ repo_hashes v -> compare_file f (w0, v) = (Returns tt, (w0, v)).
Proof.
  intros Hv. apply wp_run. unfold compare_file, pdf_name_of in *.
  wp_go. rewrite decide_False by done. wp_go. done.
Qed.

Lemma cross_compare_keeps_orphan {L} (l : L) :
  exists w1,
    cross_compare_with_repository (w0, l) = (Returns tt, (w1, l))
    /\ dir_lookup (extracted_text w1) f = Some x
    /\ (dir_lookup (exception_dir w0) (pdf_name_of f) = None ->
        dir_lookup (unique_invoices w1) (pdf_name_of f)
        = dir_lookup (unique_invoices w0) (pdf_name_of f)).
Proof.
  apply (wp_returns cross_compare_with_repository tt
           (fun w1 => dir_lookup (extracted_text w1) f = Some x
                      /\ (dir_lookup (exception_dir w0) (pdf_name_of f) = None ->
                          dir_lookup (unique_invoices w1) (pdf_name_of f)
                          = dir_lookup (unique_invoices w0) (pdf_name_of f)))).
  unfold cross_compare_with_repository, cross_compare_body. wp_go.
  eapply wp_mono; [ | apply build_repo_hashes_run ].
  intros r [w1 v1] (-> & (E1 & E2 & E3 & E4 & E5 & E6) & Hset & _). simpl in *.
  rewrite left_id_L in Hset; [ | apply _ ].
  assert (H1 : orphan_kept (w1, v1)).
  { unfold orphan_kept. simpl. rewrite E1, E2, E3, E4. by repeat split. }
  unfold compare_extracted, copy_exception_pdfs. wp_go.
  eapply wp_mono; [ | apply (wp_for_each_inv orphan_kept) ];
    [ | intros; by apply compare_file_keeps_orphan | done ].
  intros r [w2 v2] [-> H2]. wp_go.
  eapply wp_mono; [ | apply (wp_for_each_inv orphan_kept) ];
    [ | intros; by apply copy_exception_pdf_keeps_orphan | done ].
  intros r [w3 v3] [-> (He & _ & Hu & _)]. wp_go. done.
Qed.
End Orphan_text.

(** While the updater runs: the artifact [f] is still to be met, or it has
    been filed; the Unique folder stays what it is. *)
Definition artifact_filed (U : dir) (f : pystr) (x : file) (rem : list pystr)
    (s : world * nat) : Prop :=
  unique_invoices s.1 = U
  /\ ((f ∈ rem /\ dir_lookup (extracted_text s.1) f = Some x)
      \/ (dir_lookup (extracted_text s.1) f = None
          /\ exists new_name,
               dir_lookup (repository s.1) new_name = Some x
               /\ Moved_and_renamed f new_name ∈ stdout s.1)).

Lemma file_text_loop_files now U f x listing :
  timestamp_ok now -> is_txt f = true -> locked x = false ->
  forall s, artifact_filed U f x listing s ->
    exists s', for_each listing (file_text now) s = (Returns tt, s')
               /\ artifact_filed U f x [] s'.
Proof.
  intros Hok Htxt Hfree. induction listing as [|g rest IH]; intros s Hs.
  - by exists s.
  - destruct (file_text_step now g s Hok) as (s1 & Hrun & Hstep).
    rewrite for_each_cons_exec by (by rewrite Hrun). unfold exec. rewrite Hrun. simpl.
    apply IH. destruct s as [w c], s1 as [w1 c1]. unfold artifact_filed in *. simpl in *.
    destruct Hs as [HU Hs].
    destruct Hstep as [(k & y & Hg & Hy & Hl & Hnone & _ & Hrepo & Hext & _ & _ & Hun & _ & Hout & _)
                      |(Hwhy & (_ & Hext & _ & Hun & _ & Hrepo) & _ & (out & Hout) & _)]; simpl in *.
    + split; [ congruence | ]. rewrite Hext, Hrepo, Hout.
      destruct (decide (g = f)) as [->|Hne].
      * right. rewrite dir_lookup_remove_eq. split; [ done | ].
        exists (suffixed_name now k). rewrite dir_lookup_write_eq.
        destruct Hs as [[_ Hs]|[Hs _]]; [ | congruence ].
        split; [ congruence | ]. apply elem_of_app. right. constructor.
      * rewrite dir_lookup_remove_ne by done.
        destruct Hs as [[Hin Hs]|[Hs (n & Hn & Hev)]].
        -- left. split; [ | done ].
           apply elem_of_cons in Hin as [?|?]; [ congruence | done ].
        -- right. split; [ done | ]. exists n.
           rewrite dir_lookup_write_ne by congruence.
           split; [ done | ]. apply elem_of_app. by left.
    + split; [ congruence | ]. rewrite Hext, Hrepo.
      destruct Hs as [[Hin Hs]|[Hs (n & Hn & Hev)]].
      * left. split; [ | done ].
        apply elem_of_cons in Hin as [->|?]; [ | done ].
        destruct Hwhy as [?|[?|(y & ? & ?)]]; congruence.
      * right. split; [ done | ]. exists n. split; [ done | ].
        rewrite Hout. apply elem_of_app. by left.
Qed.

(** C10.  A batch text that the comparator finds unique while its PDF is
    not in the staging folder: the comparator leaves the text where it is
    and counts nothing; the updater then moves the text into the
    repository; and the Unique folder gets no PDF of that name, unless the
    Exception folder held one for the last step of the comparator to copy. *)
Theorem unique_text_without_pdf_is_filed {L} now w (l : L) f x t h :
  timestamp_ok now ->
  is_txt f = true ->
  dir_lookup (extracted_text w) f = Some x ->
  locked x = false -> data x = Text t -> sha256_hash t = Some h ->
  h ∉ repository_fingerprints (repository w) ->
  dir_lookup (main_pdf w) (pdf_name_of f) = None ->
  (forall v, h ∉ repo_hashes v -> compare_file f (w, v) = (Returns tt, (w, v)))
  /\ exists w1 w2 new_name,
       cross_compare_with_repository (w, l) = (Returns tt, (w1, l))
       /\ dir_lookup (extracted_text w1) f = Some x
       /\ update_repository now (w1, l) = (Returns tt, (w2, l))
       /\ dir_lookup (extracted_text w2) f = None
       /\ dir_lookup (repository w2) new_name = Some x
       /\ Moved_and_renamed f new_name ∈ stdout w2
       /\ (dir_lookup (exception_dir w) (pdf_name_of f) = None ->
           dir_lookup (unique_invoices w2) (pdf_name_of f)
           = dir_lookup (unique_invoices w) (pdf_name_of f)).
Proof.
  intros Hok Htxt Hx Hfree Hdata Hhash Hnew Hpdf.
  split; [ intros v; by apply (compare_file_orphan w f x t h) | ].
  destruct (cross_compare_keeps_orphan w f x t h Hx Hfree Hdata Hhash Hnew Hpdf l)
    as (w1 & Hcmp & Hx1 & Hu1).
  destruct (file_text_loop_files now (unique_invoices w1) f x (names (extracted_text w1))
              Hok Htxt Hfree (print Updating_repository w1, 0%nat))
    as ([w2 c2] & Hloop & HU & Hfiled).
  { split; [ done | ]. left. split; [ | done ].
    apply dir_lookup_is_Some. simpl. by rewrite Hx1. }
  destruct Hfiled as [[Hin _]|(Hgone & new_name & Hrepo & Hev)];
    [ by apply elem_of_nil in Hin | ].
  exists w1, (print (Moved_and_renamed_count c2) w2), new_name. simpl in *.
  split; [ done | split; [ done | split; [ | split; [ done | split; [ done | split ] ] ] ] ].
  - apply wp_run. unfold update_repository. wp_go.
    eapply wp_eq; [ exact Hloop | ]. wp_go. done.
  - apply elem_of_app. by left.
  - intros Hexc. rewrite HU. by apply Hu1.
Qed.

(** ** Local deduplication: first seen wins *)

(** What one iteration of the deduplicator does to the PDF [p] of a
    duplicate: it moves it to the Duplicates folder, or, when it is not
    there or cannot be moved, leaves both folders as they are. *)
Definition pdf_relocated (p : pystr) (w w' : world) : Prop :=
  (main_pdf w' = main_pdf w /\ duplicates_invoices w' = duplicates_invoices w
   /\ (dir_lookup (main_pdf w) p = None
       \/ exists y, dir_lookup (main_pdf w) p = Some y
                    /\ (locked y = true
                        \/ exists z, dir_lookup (duplicates_invoices w) p = Some z
                                     /\ locked z = true)))
  \/ (exists y, dir_lookup (main_pdf w) p = Some y /\ locked y = false
                /\ main_pdf w' = dir_remove (main_pdf w) p
                /\ duplicates_invoices w' = dir_write (duplicates_invoices w) p y).

(** The three ways an iteration goes. *)
Definition dedup_failed (f : pystr) (s s' : world * dedup_vars) : Prop :=
  fingerprint_at s.1 f = None /\ same_folders s.1 s'.1 /\ s'.2 = s.2
  /\ exists e, stdout s'.1 = stdout s.1 ++ [Error_during_deduplication f e].

Definition dedup_registered (f : pystr) (s s' : world * dedup_vars) : Prop :=
  exists h, fingerprint_at s.1 f = Some h /\ seen_hashes s.2 !! h = None
            /\ s'.1 = s.1
            /\ seen_hashes s'.2 = <[h := f]> (seen_hashes s.2).

Definition dedup_removed (f : pystr) (s s' : world * dedup_vars) : Prop :=
  exists h first_seen,
    fingerprint_at s.1 f = Some h /\ seen_hashes s.2 !! h = Some first_seen
    /\ extracted_text s'.1 = dir_remove (extracted_text s.1) f
    /\ seen_hashes s'.2 = seen_hashes s.2
    /\ (exists out, stdout s'.1 = stdout s.1 ++ Removed_duplicate_text f first_seen :: out)
    /\ pdf_relocated (pdf_name_of f) s.1 s'.1.

Lemma dedup_file_step f (s : world * dedup_vars) :
  exists s',
    dedup_file f s = (Returns tt, s')
    /\ (dedup_failed f s s' \/ dedup_registered f s s' \/ dedup_removed f s s').
Proof.
  cut (wp (dedup_file f)
          (fun r s' => r = Returns tt
                       /\ (dedup_failed f s s' \/ dedup_registered f s s' \/ dedup_removed f s s'))
          s).
  { intros (r & s' & Hrun & -> & H)%wp_post. eauto. }
  destruct s as [w v].
  unfold dedup_file, dedup_failed, dedup_registered, dedup_removed, pdf_relocated,
    fingerprint_at, fingerprint_in, same_folders, pdf_name_of.
  wp_cases; (split; [ done | ]); rewrite <- ?app_assoc; simpl;
    first [ left; by eauto 10
          | right; left; by eauto 10
          | right; right; do 2 eexists; repeat (split; [ by eauto | ]);
            first [ left; by eauto 12 | right; by eauto 12 ] ].
Qed.

Lemma dedup_file_returns f s : (dedup_file f s).1 = Returns tt.
Proof. destruct (dedup_file_step f s) as (s' & -> & _). done. Qed.

Lemma deduplicate_loop_cons f fs s :
  deduplicate_loop (f :: fs) s = deduplicate_loop fs (exec (dedup_file f) s).
Proof. apply for_each_cons_exec, dedup_file_returns. Qed.

Lemma deduplicate_loop_app fs1 fs2 s :
  deduplicate_loop (fs1 ++ fs2) s = deduplicate_loop fs2 (exec (deduplicate_loop fs1) s).
Proof.
  revert s. induction fs1 as [|f fs1 IH]; intros s; [ done | ].
  change ((f :: fs1) ++ fs2) with (f :: (fs1 ++ fs2)).
  rewrite deduplicate_loop_cons, IH. unfold exec.
  by rewrite deduplicate_loop_cons.
Qed.

Lemma deduplicate_loop_returns fs s : (deduplicate_loop fs s).1 = Returns tt.
Proof.
  revert s. induction fs as [|f fs IH]; intros s; [ done | ].
  rewrite deduplicate_loop_cons. apply IH.
Qed.

Lemma exec_loop_cons f fs s :
  exec (deduplicate_loop (f :: fs)) s = exec (deduplicate_loop fs) (exec (dedup_file f) s).
Proof. unfold exec at 1 2. by rewrite deduplicate_loop_cons. Qed.

Lemma exec_loop_app fs1 fs2 s :
  exec (deduplicate_loop (fs1 ++ fs2)) s
  = exec (deduplicate_loop fs2) (exec (deduplicate_loop fs1) s).
Proof. unfold exec at 1 2. by rewrite deduplicate_loop_app. Qed.

(** What every iteration on a file of [fs] keeps, the loop on [fs] keeps. *)
Lemma deduplicate_loop_keeps (I : world * dedup_vars -> Prop) fs :
  (forall f s s', f ∈ fs -> I s ->
     dedup_failed f s s' \/ dedup_registered f s s' \/ dedup_removed f s s' -> I s') ->
  forall s, I s -> I (exec (deduplicate_loop fs) s).
Proof.
  induction fs as [|f fs IH]; intros Hstep s Hs; [ done | ].
  unfold exec. rewrite deduplicate_loop_cons. apply IH.
  - intros g s1 s2 Hg. apply Hstep. by right.
  - destruct (dedup_file_step f s) as (s' & Hrun & Hcase).
    unfold exec. rewrite Hrun. simpl. eapply Hstep; [ by left | done | done ].
Qed.

Lemma fingerprint_in_remove d f g :
  fingerprint_in (dir_remove d f) g = if decide (f = g) then None else fingerprint_in d g.
Proof.
  unfold fingerprint_in. destruct (decide (f = g)) as [->|Hne].
  - by rewrite dir_lookup_remove_eq.
  - by rewrite dir_lookup_remove_ne.
Qed.

Ltac dedup_cases H :=
  destruct H as [(Hfp & (E1 & E2 & E3 & E4 & E5 & E6) & Hv & err & Hout)
                |[(h' & Hfp & Hseen & Hw & Hv)
                 |(h' & a' & Hfp & Hseen & Hext & Hv & (out & Hout) & Hrel)]].

Section First_seen.
Variables (h A : pystr).

Lemma seen_stays fs s :
  seen_hashes s.2 !! h = Some A ->
  seen_hashes (exec (deduplicate_loop fs) s).2 !! h = Some A.
Proof.
  apply (deduplicate_loop_keeps (fun s => seen_hashes s.2 !! h = Some A)).
  intros f [w v] [w' v'] _ Hs Hstep. simpl in *. dedup_cases Hstep; simpl in *.
  - by subst.
  - rewrite Hv. destruct (decide (h' = h)) as [->|Hne]; [ congruence | ].
    by rewrite lookup_insert_ne.
  - by rewrite Hv.
Qed.

Lemma gone_stays g fs s :
  dir_lookup (extracted_text s.1) g = None ->
  dir_lookup (extracted_text (exec (deduplicate_loop fs) s).1) g = None.
Proof.
  apply (deduplicate_loop_keeps (fun s => dir_lookup (extracted_text s.1) g = None)).
  intros f [w v] [w' v'] _ Hs Hstep. simpl in *. dedup_cases Hstep; simpl in *.
  - by rewrite E2.
  - by subst.
  - rewrite Hext. destruct (decide (f = g)) as [->|Hne].
    + apply dir_lookup_remove_eq.
    + by rewrite dir_lookup_remove_ne.
Qed.

Lemma logged_stays e fs s :
  e ∈ stdout s.1 -> e ∈ stdout (exec (deduplicate_loop fs) s).1.
Proof.
  apply (deduplicate_loop_keeps (fun s => e ∈ stdout s.1)).
  intros f [w v] [w' v'] _ Hs Hstep. simpl in *. dedup_cases Hstep; simpl in *.
  - rewrite Hout. apply elem_of_app. by left.
  - by subst.
  - rewrite Hout. apply elem_of_app. by left.
Qed.

Lemma entry_kept g fs s :
  g ∉ fs ->
  dir_lookup (extracted_text (exec (deduplicate_loop fs) s).1) g
  = dir_lookup (extracted_text s.1) g.
Proof.
  intros Hg.
  apply (deduplicate_loop_keeps
           (fun s' => dir_lookup (extracted_text s'.1) g = dir_lookup (extracted_text s.1) g));
    [ | done ].
  intros f [w v] [w' v'] Hf Hs Hstep. simpl in *. dedup_cases Hstep; simpl in *.
  - by rewrite E2.
  - by subst.
  - rewrite Hext, dir_lookup_remove_ne; [ done | ]. intros ->. done.
Qed.

Lemma unseen_stays fs s :
  seen_hashes s.2 !! h = None ->
  (forall g, g ∈ fs -> fingerprint_at s.1 g <> Some h) ->
  seen_hashes (exec (deduplicate_loop fs) s).2 !! h = None.
Proof.
  intros Hs Hfs.
  apply (deduplicate_loop_keeps
           (fun s => seen_hashes s.2 !! h = None
                     /\ forall g, g ∈ fs -> fingerprint_at s.1 g <> Some h) fs);
    [ | done ].
  intros f [w v] [w' v'] Hf [Hn Hfp'] Hstep. simpl in *. dedup_cases Hstep; simpl in *.
  - subst. split; [ done | ]. unfold fingerprint_at in *. by rewrite E2.
  - subst. split; [ | done ]. rewrite Hv.
    rewrite lookup_insert_ne; [ done | ]. intros ->. by apply (Hfp' f).
  - rewrite Hv. split; [ done | ]. intros g Hg. unfold fingerprint_at in *.
    rewrite Hext, fingerprint_in_remove. destruct (decide _); [ done | by apply Hfp' ].
Qed.
End First_seen.

(** The PDF [p], read as [y] in the staging folder when the stage starts:
    it is still there and can be moved, or it is in the Duplicates folder. *)
Definition pdf_tracked (p : pystr) (y : file) (s : world * dedup_vars) : Prop :=
  (dir_lookup (main_pdf s.1) p = Some y
   /\ forall z, dir_lookup (duplicates_invoices s.1) p = Some z -> locked z = false)
  \/ (dir_lookup (main_pdf s.1) p = None
      /\ dir_lookup (duplicates_invoices s.1) p = Some y).

Definition pdf_in_duplicates (p : pystr) (y : file) (s : world * dedup_vars) : Prop :=
  dir_lookup (main_pdf s.1) p = None /\ dir_lookup (duplicates_invoices s.1) p = Some y.

Lemma pdf_tracked_step p y f s s' :
  locked y = false ->
  pdf_tracked p y s ->
  dedup_failed f s s' \/ dedup_registered f s s' \/ dedup_removed f s s' ->
  pdf_tracked p y s'
  /\ (pdf_in_duplicates p y s -> pdf_in_duplicates p y s')
  /\ (dedup_removed f s s' -> pdf_name_of f = p -> pdf_in_duplicates p y s').
Proof.
  intros Hy. destruct s as [w v], s' as [w' v'].
  unfold pdf_tracked, pdf_in_duplicates, dedup_removed. simpl.
  intros Ht Hstep. dedup_cases Hstep; simpl in *.
  - rewrite E1, E5. split; [ done | ]. split; [ done | ].
    intros (? & ? & ? & _). congruence.
  - subst. split; [ done | ]. split; [ done | ].
    intros (? & ? & ? & ? & _). congruence.
  - clear Hfp Hseen Hext Hv Hout.
    destruct Hrel as [(Em & Ed & Hwhy)|(y' & Hm & Hl & Em & Ed)]; simpl in *.
    + rewrite Em, Ed. split; [ done | ]. split; [ done | ].
      intros _ Hp. rewrite Hp in Hwhy.
      destruct Ht as [[Hmain Hfree]|?]; [ | done ].
      destruct Hwhy as [?|(y2 & ? & [?|(z & Hz & Hlz)])]; [ congruence | congruence | ].
      rewrite (Hfree z Hz) in Hlz. done.
    + rewrite Em, Ed. destruct (decide (pdf_name_of f = p)) as [Hp|Hp].
      * rewrite Hp in *. rewrite dir_lookup_remove_eq, dir_lookup_write_eq.
        destruct Ht as [[Hmain _]|[Hmain _]]; [ | congruence ].
        assert (y' = y) as -> by congruence.
        split; [ right; done | ]. split; [ intros [? _]; congruence | done ].
      * rewrite dir_lookup_remove_ne, dir_lookup_write_ne by done.
        split; [ done | ]. split; [ done | ]. intros _ ?. done.
Qed.

Lemma pdf_tracked_stays p y fs s :
  locked y = false ->
  pdf_tracked p y s -> pdf_tracked p y (exec (deduplicate_loop fs) s).
Proof.
  intros Hy. apply (deduplicate_loop_keeps (pdf_tracked p y)).
  intros f s1 s2 _ H1 Hstep. by apply (pdf_tracked_step p y f s1 s2).
Qed.

Lemma pdf_in_duplicates_stays p y fs s :
  locked y = false ->
  pdf_tracked p y s /\ pdf_in_duplicates p y s ->
  pdf_in_duplicates p y (exec (deduplicate_loop fs) s).
Proof.
  intros Hy H.
  apply (deduplicate_loop_keeps (fun s => pdf_tracked p y s /\ pdf_in_duplicates p y s) fs)
    in H; [ by destruct H | ].
  intros f s1 s2 _ [H1 H2] Hstep.
  destruct (pdf_tracked_step p y f s1 s2 Hy H1 Hstep) as (? & ? & _). auto.
Qed.

(** The loop on a listing in which [A] is the first artifact with the
    fingerprint [h] and [X] a later one. *)
Lemma first_seen_then_duplicate (s0 : world * dedup_vars) pre A r1 X r2 h :
  NoDup (pre ++ A :: r1 ++ X :: r2) ->
  seen_hashes s0.2 !! h = None ->
  (forall g, g ∈ pre -> fingerprint_at s0.1 g <> Some h) ->
  fingerprint_at s0.1 A = Some h ->
  fingerprint_at s0.1 X = Some h ->
  let s' := exec (deduplicate_loop (pre ++ A :: r1 ++ X :: r2)) s0 in
  dir_lookup (extracted_text s'.1) A = dir_lookup (extracted_text s0.1) A
  /\ seen_hashes s'.2 !! h = Some A
  /\ dir_lookup (extracted_text s'.1) X = None
  /\ Removed_duplicate_text X A ∈ stdout s'.1
  /\ forall y,
       dir_lookup (main_pdf s0.1) (pdf_name_of X) = Some y ->
       locked y = false ->
       (forall z, dir_lookup (duplicates_invoices s0.1) (pdf_name_of X) = Some z ->
                  locked z = false) ->
       dir_lookup (main_pdf s'.1) (pdf_name_of X) = None
       /\ dir_lookup (duplicates_invoices s'.1) (pdf_name_of X) = Some y.
Proof.
  intros Hnd Hunseen Hpre HA HX s'.
  apply NoDup_app in Hnd as (_ & Hpre_rest & Hnd).
  apply NoDup_cons in Hnd as (HA_rest & Hnd).
  apply NoDup_app in Hnd as (_ & Hr1_rest & Hnd).
  apply NoDup_cons in Hnd as (HX_r2 & _).
  assert (HA_pre : A ∉ pre) by (intros Hin; apply (Hpre_rest A Hin); by left).
  assert (HX_pre : X ∉ pre).
  { intros Hin. apply (Hpre_rest X Hin). right. apply elem_of_app. right. by left. }
  assert (HAX : A <> X).
  { intros ->. apply HA_rest. apply elem_of_app. right. by left. }
  assert (HA_r1 : A ∉ r1) by (intros Hin; apply HA_rest, elem_of_app; by left).
  assert (HA_r2 : A ∉ r2).
  { intros Hin. apply HA_rest, elem_of_app. right. by right. }
  assert (HX_r1 : X ∉ r1) by (intros Hin; apply (Hr1_rest X Hin); by left).
  (* the artifacts before A *)
  set (s1 := exec (deduplicate_loop pre) s0).
  assert (H1seen : seen_hashes s1.2 !! h = None) by (by apply unseen_stays).
  assert (H1A : fingerprint_at s1.1 A = Some h).
  { unfold fingerprint_at, fingerprint_in, s1. by rewrite entry_kept. }
  assert (H1X : fingerprint_at s1.1 X = Some h).
  { unfold fingerprint_at, fingerprint_in, s1. by rewrite entry_kept. }
  (* A itself *)
  destruct (dedup_file_step A s1) as (s2 & Hrun2 & Hcase2).
  assert (H2 : s2.1 = s1.1 /\ seen_hashes s2.2 !! h = Some A).
  { dedup_cases Hcase2; [ congruence | | congruence ].
    split; [ done | ]. rewrite Hv. assert (h' = h) as -> by congruence.
    apply lookup_insert_eq. }
  destruct H2 as [H2w H2seen].
  (* the artifacts between A and X *)
  set (s3 := exec (deduplicate_loop r1) s2).
  assert (H3seen : seen_hashes s3.2 !! h = Some A) by (by apply seen_stays).
  assert (H3X : fingerprint_at s3.1 X = Some h).
  { unfold fingerprint_at, fingerprint_in, s3. rewrite entry_kept by done. by rewrite H2w. }
  (* X itself *)
  destruct (dedup_file_step X s3) as (s4 & Hrun4 & Hcase4).
  assert (H4 : dedup_removed X s3 s4
               /\ dir_lookup (extracted_text s4.1) X = None
               /\ seen_hashes s4.2 !! h = Some A
               /\ Removed_duplicate_text X A ∈ stdout s4.1
               /\ dir_lookup (extracted_text s4.1) A = dir_lookup (extracted_text s3.1) A).
  { pose proof Hcase4 as Hcase. dedup_cases Hcase4; [ congruence | congruence | ].
    assert (h' = h) as -> by congruence. assert (a' = A) as -> by congruence.
    split; [ by destruct Hcase as [(? & _)|[(? & ? & ? & _)|?]]; [ congruence | congruence | ] | ].
    rewrite Hext, Hv, Hout, dir_lookup_remove_eq.
    rewrite dir_lookup_remove_ne by done.
    repeat split; try done. apply elem_of_app. right. by left. }
  destruct H4 as (H4rem & H4X & H4seen & H4log & H4A).
  (* the artifacts after X *)
  assert (Hs' : s' = exec (deduplicate_loop r2) s4).
  { assert (E2 : exec (dedup_file A) s1 = s2) by (unfold exec; by rewrite Hrun2).
    assert (E4 : exec (dedup_file X) s3 = s4) by (unfold exec; by rewrite Hrun4).
    unfold s'. rewrite exec_loop_app. fold s1. rewrite exec_loop_cons, E2.
    rewrite exec_loop_app. fold s3. by rewrite exec_loop_cons, E4. }
  rewrite Hs'. split; [ | split; [ | split; [ | split ] ] ].
  - rewrite entry_kept by done. rewrite H4A. unfold s3. rewrite entry_kept by done.
    rewrite H2w. unfold s1. by rewrite entry_kept.
  - by apply seen_stays.
  - by apply gone_stays.
  - by apply logged_stays.
  - intros y Hy Hfree Hdup.
    assert (T0 : pdf_tracked (pdf_name_of X) y s0) by (left; done).
    assert (T1 : pdf_tracked (pdf_name_of X) y s1) by (by apply pdf_tracked_stays).
    assert (T2 : pdf_tracked (pdf_name_of X) y s2).
    { destruct s1, s2. unfold pdf_tracked in *. simpl in *. by subst. }
    assert (T3 : pdf_tracked (pdf_name_of X) y s3) by (by apply pdf_tracked_stays).
    destruct (pdf_tracked_step (pdf_name_of X) y X s3 s4 Hfree T3 Hcase4) as (T4 & _ & D4).
    apply (pdf_in_duplicates_stays (pdf_name_of X) y r2 s4 Hfree). auto.
Qed.

Lemma wp_exec {L} (m : M L unit) Q s :
  (m s).1 = Returns tt -> Q (Returns tt) (exec m s) -> wp m Q s.
Proof. unfold wp, exec. by intros ->. Qed.

(** The stage is its loop between two log lines. *)
Lemma deduplicate_text_files_run {L} w (l : L) :
  let files := filter (fun f => is_txt f = true) (names (extracted_text w)) in
  let s' := exec (deduplicate_loop files) (print Starting_deduplication w, DedupVars ∅ 0) in
  deduplicate_text_files (w, l)
  = (Returns tt, (print (Deduplication_done (removed_count s'.2)) s'.1, l)).
Proof.
  intros files s'. apply wp_run. unfold deduplicate_text_files. wp_go.
  apply wp_exec; [ apply deduplicate_loop_returns | ].
  fold files. fold s'. destruct s' as [w' v']. wp_go. done.
Qed.

(** C2.  First seen wins.  Of three text artifacts with the same
    normalized content met in the order A, B, C, where no artifact before
    A has that fingerprint: A is registered as the representative and its
    text stays; the texts of B and C are deleted, as duplicates of A; and
    the PDF of B and that of C, when it is in the staging folder and can
    be moved, ends in the Duplicates folder. *)
Theorem first_seen_wins {L} w (l : L) pre A mid1 B mid2 C post xA xB xC tA tB tC h :
  NoDup (names (extracted_text w)) ->
  filter (fun f => is_txt f = true) (names (extracted_text w))
  = pre ++ A :: mid1 ++ B :: mid2 ++ C :: post ->
  dir_lookup (extracted_text w) A = Some xA -> locked xA = false -> data xA = Text tA ->
  dir_lookup (extracted_text w) B = Some xB -> locked xB = false -> data xB = Text tB ->
  dir_lookup (extracted_text w) C = Some xC -> locked xC = false -> data xC = Text tC ->
  normalized tA = normalized tB -> normalized tB = normalized tC ->
  sha256_hash tA = Some h ->
  (forall g, g ∈ pre -> fingerprint_at w g <> Some h) ->
  exists w',
    deduplicate_text_files (w, l) = (Returns tt, (w', l))
    /\ seen_hashes
         (exec (deduplicate_loop (pre ++ A :: mid1 ++ B :: mid2 ++ C :: post))
               (print Starting_deduplication w, DedupVars ∅ 0)).2 !! h = Some A
    /\ dir_lookup (extracted_text w') A = Some xA
    /\ dir_lookup (extracted_text w') B = None
    /\ dir_lookup (extracted_text w') C = None
    /\ Removed_duplicate_text B A ∈ stdout w'
    /\ Removed_duplicate_text C A ∈ stdout w'
    /\ forall X y,
         X = B \/ X = C ->
         dir_lookup (main_pdf w) (pdf_name_of X) = Some y ->
         locked y = false ->
         (forall z, dir_lookup (duplicates_invoices w) (pdf_name_of X) = Some z ->
                    locked z = false) ->
         dir_lookup (main_pdf w') (pdf_name_of X) = None
         /\ dir_lookup (duplicates_invoices w') (pdf_name_of X) = Some y.
Proof.
  intros Hnd Hfiles HA HlA HdA HB HlB HdB HC HlC HdC HAB HBC Hh Hpre.
  assert (HhB : sha256_hash tB = Some h).
  { rewrite sha256_hash_fingerprint in *. unfold fingerprint in *. by rewrite <- HAB. }
  assert (HhC : sha256_hash tC = Some h).
  { rewrite sha256_hash_fingerprint in *. unfold fingerprint in *. by rewrite <- HBC. }
  set (s0 := (print Starting_deduplication w, DedupVars ∅ 0)).
  assert (FA : fingerprint_at s0.1 A = Some h).
  { unfold fingerprint_at, fingerprint_in. simpl. by rewrite HA, HlA, HdA. }
  assert (FB : fingerprint_at s0.1 B = Some h).
  { unfold fingerprint_at, fingerprint_in. simpl. by rewrite HB, HlB, HdB. }
  assert (FC : fingerprint_at s0.1 C = Some h).
  { unfold fingerprint_at, fingerprint_in. simpl. by rewrite HC, HlC, HdC. }
  assert (Hnd' : NoDup (pre ++ A :: mid1 ++ B :: mid2 ++ C :: post)).
  { rewrite <- Hfiles. by apply NoDup_filter. }
  pose proof (first_seen_then_duplicate s0 pre A mid1 B (mid2 ++ C :: post) h
                Hnd' (lookup_empty _) Hpre FA FB) as (KA & Kseen & KB & KlogB & KpdfB).
  assert (Hre : pre ++ A :: mid1 ++ B :: mid2 ++ C :: post
                = pre ++ A :: (mid1 ++ B :: mid2) ++ C :: post).
  { by rewrite <- (app_assoc mid1). }
  rewrite Hre in Hnd'.
  pose proof (first_seen_then_duplicate s0 pre A (mid1 ++ B :: mid2) C post h
                Hnd' (lookup_empty _) Hpre FA FC) as (_ & _ & KC & KlogC & KpdfC).
  rewrite <- Hre in KC, KlogC, KpdfC.
  eexists. split; [ rewrite deduplicate_text_files_run, Hfiles; reflexivity | ].
  fold s0. simpl in *.
  split; [ done | ]. split; [ by rewrite KA | ]. split; [ done | ]. split; [ done | ].
  split; [ apply elem_of_app; by left | ]. split; [ apply elem_of_app; by left | ].
  intros X y [->| ->] Hy Hfree Hdup; [ by apply KpdfB | by apply KpdfC ].
Qed.

(** ** What the later stages leave alone *)

Lemma startswith_app (p q : pystr) : Py.startswith (p ++ q) p = true.
Proof.
  induction p as [|a p IH]; [ by destruct q | ].
  cbn [Py.startswith app]. by rewrite N.eqb_refl.
Qed.

Lemma endswith_app (r p : pystr) : Py.endswith (r ++ p) p = true.
Proof. unfold Py.endswith. rewrite rev_app_distr. apply startswith_app. Qed.

Definition touched_by_comparison (F : folder) (g : pystr) : Prop :=
  F = EXTRACTED_TEXT_FOLDER \/ F = MAIN_PDF_FOLDER \/ F = DUPLICATES_INVOICES_FOLDER
  \/ (F = UNIQUE_INVOICES_FOLDER
      /\ (is_pdf g = true \/ Py.endswith g (Py.str ".pdf") = true)).

Definition touched_by_update (F : folder) (g : pystr) : Prop :=
  F = EXTRACTED_TEXT_FOLDER \/ F = repository_folder.

Definition touched_by_cleanup (F : folder) (g : pystr) : Prop :=
  F = MAIN_PDF_FOLDER \/ (F = EXCEPTION_FOLDER /\ is_pdf g = true).

Lemma cross_compare_with_repository_frame {L} w (l : L) :
  exists w',
    cross_compare_with_repository (w, l) = (Returns tt, (w', l))
    /\ untouched touched_by_comparison w w'.
Proof.
  apply wp_returns.
  unfold cross_compare_with_repository, cross_compare_body, build_repo_hashes,
    compare_extracted, copy_exception_pdfs.
  pose (I := fun s : world * compare_vars => untouched touched_by_comparison w s.1).
  assert (Hside : forall g, touched_by_comparison UNIQUE_INVOICES_FOLDER
                              (Py.splitext_root g ++ Py.str ".pdf")).
  { intros g. unfold touched_by_comparison. do 3 right. split; [ done | ].
    right. apply endswith_app. }
  wp_frame.
  eapply wp_mono; [ | apply (wp_for_each_inv I) ].
  - intros r [w1 v1] [-> H1]. wp_frame.
    eapply wp_mono; [ | apply (wp_for_each_inv I) ].
    + intros r [w2 v2] [-> H2]. wp_frame.
      eapply wp_mono; [ | apply (wp_for_each_inv I) ].
      * intros r [w3 v3] [-> H3]. wp_frame. unfold I in *. repeat split; untouched_leaf idtac.
      * intros g [w3 v3] _ H3. unfold I in *. unfold copy_exception_pdf.
        wp_frame; (split; [ done | ]);
          untouched_leaf ltac:(unfold touched_by_comparison; auto 10).
      * done.
    + intros g [w2 v2] _ H2. unfold I in *. unfold compare_file.
      wp_frame; (split; [ done | ]);
        untouched_leaf ltac:(first [ apply Hside | unfold touched_by_comparison; auto 10 ]).
    + done.
  - intros g [w1 v1] _ H1. unfold I in *. unfold add_repo_hash.
    wp_frame; (split; [ done | ]); untouched_leaf idtac.
  - unfold I. untouched_leaf idtac.
Qed.

Lemma cleanup_main_pdf_folder_frame {L} w (l : L) :
  exists w',
    cleanup_main_pdf_folder (w, l) = (Returns tt, (w', l))
    /\ untouched touched_by_cleanup w w'.
Proof.
  apply wp_returns. unfold cleanup_main_pdf_folder. wp_frame.
  - repeat split; untouched_leaf idtac.
  - eapply wp_mono;
      [ | apply (wp_for_each_inv (fun s : world * L =>
                                    s.2 = l /\ untouched touched_by_cleanup w s.1)) ].
    + intros r [wq lq] (-> & Hl & H1). done.
    + intros g [wq lq] Hg [Hl H1]. simpl in Hl. subst lq.
      match goal with H : filter _ _ = _ |- _ => rewrite <- H in Hg end.
      apply list_elem_of_filter in Hg as [Hpdf _].
      wp_frame; (split; [ done | ]); (split; [ done | ]);
        untouched_leaf ltac:(unfold touched_by_cleanup; auto).
    + split; [ done | ]. untouched_leaf idtac.
Qed.

Lemma update_repository_frame {L} now w (l : L) :
  timestamp_ok now ->
  exists w',
    update_repository now (w, l) = (Returns tt, (w', l))
    /\ untouched touched_by_update w w'.
Proof.
  intros Hok. apply wp_returns. unfold update_repository. wp_frame.
  eapply wp_mono;
    [ | apply (wp_for_each_inv (fun s : world * nat => untouched touched_by_update w s.1)) ].
  - intros r [w1 c1] [-> H1]. wp_frame. repeat split; untouched_leaf idtac.
  - intros g [w1 c1] _ H1. unfold file_text, when.
    destruct (resolve_name_first_free now (repository w1) Hok) as (k & Hres & _).
    destruct (is_txt g); [ | by apply wp_ret ].
    apply wp_bind, wp_the_world. cbn beta iota. rewrite Hres.
    wp_frame; (split; [ done | ]);
      untouched_leaf ltac:(unfold touched_by_update; auto).
  - untouched_leaf idtac.
Qed.

(** ** A file that is not a PDF, from intake to the end of the run *)

(** "Visits every contained file once": the files the intake goes
    through, in order. *)
Definition walked_files (entries : tree) : list (pystr * file) :=
  if existsb (fun e => isdir e.2) entries
  then concat (os_walk (FolderNode entries))
  else files_of entries.

Lemma for_each_app {L X} (body : X -> M L unit) xs ys s :
  for_each (xs ++ ys) body s = bind (for_each xs body) (fun _ => for_each ys body) s.
Proof.
  revert s. induction xs as [|x xs IH]; intros s; [ done | ].
  change ((x :: xs) ++ ys) with (x :: (xs ++ ys)). simpl. rewrite bind_assoc.
  unfold bind at 1 2. destruct (body x s) as [[[]|e] s']; [ apply IH | done ].
Qed.

Lemma for_each_concat {L X} (body : X -> M L unit) (ls : list (list X)) s :
  for_each (concat ls) body s = for_each ls (fun l => for_each l body) s.
Proof.
  revert s. induction ls as [|l ls IH]; intros s; [ done | ].
  simpl. rewrite for_each_app. unfold bind.
  destruct (for_each l body s) as [[[]|e] s']; [ apply IH | done ].
Qed.

Lemma for_each_files_of {L} (body : file -> pystr -> M L unit) (entries : tree) s :
  for_each entries
    (fun e => match e.2 with FileNode x => body x e.1 | FolderNode _ => ret tt end) s
  = for_each (files_of entries) (fun e => body e.2 e.1) s.
Proof.
  revert s. induction entries as [|[g [x|sub]] es IH]; intros s; [ done | | ].
  - change (files_of ((g, FileNode x) :: es)) with ((g, x) :: files_of es).
    simpl. unfold bind. destruct (body x g s) as [[[]|e] s']; [ apply IH | done ].
  - change (files_of ((g, FolderNode sub) :: es)) with (files_of es).
    simpl. unfold bind, ret. apply IH.
Qed.

Lemma wp_for_each_concat {L X} (body : X -> M L unit) (ls : list (list X)) Q s :
  wp (for_each (concat ls) body) Q s ->
  wp (for_each ls (fun l => for_each l body)) Q s.
Proof. unfold wp. by rewrite for_each_concat. Qed.

Lemma wp_for_each_files_of {L} (body : file -> pystr -> M L unit) (entries : tree) Q s :
  wp (for_each (files_of entries) (fun e => body e.2 e.1)) Q s ->
  wp (for_each entries
        (fun e => match e.2 with FileNode x => body x e.1 | FolderNode _ => ret tt end)) Q s.
Proof. unfold wp. by rewrite for_each_files_of. Qed.

(** No file of the two staging folders is held. *)
Definition staging_free (w : world) : Prop :=
  (forall g y, dir_lookup (main_pdf w) g = Some y -> locked y = false)
  /\ (forall g y, dir_lookup (exception_dir w) g = Some y -> locked y = false).

Section Non_pdf.
Variables (f : pystr) (all : list (pystr * file)).
Hypothesis Hnot_pdf : is_pdf f = false.

(** While the intake walks: the files left are free, the staging
    folders have no held file, and [f] is still to come or is in the
    Exception folder, as one of the walked files. *)
Definition intake_going (rem : list (pystr * file)) (s : world * (nat * nat)) : Prop :=
  rem ⊆ all
  /\ Forall (fun e => locked e.2 = false) rem
  /\ staging_free s.1
  /\ (f ∈ rem.*1
      \/ exists x, (f, x) ∈ all /\ dir_lookup (exception_dir s.1) f = Some x).

Lemma process_file_step g x rem s :
  intake_going ((g, x) :: rem) s ->
  wp (process_file x g) (fun r s' => r = Returns tt /\ intake_going rem s') s.
Proof.
  destruct s as [w c]. unfold intake_going, staging_free, process_file. simpl.
  intros (Hsub & Hfree & [Hm He] & Hf).
  apply Forall_cons in Hfree as [Hx Hfree]. simpl in Hx.
  assert (Hsub' : rem ⊆ all) by (intros e He'; apply Hsub; by right).
  assert (Hin : (g, x) ∈ all) by (apply Hsub; by left).
  destruct (is_pdf g) eqn:Hg.
  - assert (Hne : g <> f) by congruence.
    assert (Hf' : f ∈ rem.*1
                  \/ exists x0, (f, x0) ∈ all /\ dir_lookup (exception_dir w) f = Some x0).
    { destruct Hf as [Hf|?]; [ | by right ].
      apply elem_of_cons in Hf as [?|?]; [ congruence | by left ]. }
    wp_go. destruct (dir_lookup (main_pdf w) g) as [y|] eqn:Hy.
    + rewrite (Hm g y Hy). wp_go. repeat split; try done.
      intros g' y'. destruct (decide (g = g')) as [<-|Hgg]; dir_simpl; [ congruence | eauto ].
    + wp_go. repeat split; try done.
      intros g' y'. destruct (decide (g = g')) as [<-|Hgg]; dir_simpl; [ congruence | eauto ].
  - wp_go. destruct (dir_lookup (exception_dir w) g) as [y|] eqn:Hy.
    + rewrite (He g y Hy). wp_go. repeat split; try done.
      * intros g' y'. destruct (decide (g = g')) as [<-|Hgg]; dir_simpl; [ congruence | eauto ].
      * destruct (decide (g = f)) as [->|Hne]; dir_simpl; [ right; eauto | ].
        destruct Hf as [Hf|?]; [ | by right ].
        apply elem_of_cons in Hf as [?|?]; [ congruence | by left ].
    + wp_go. repeat split; try done.
      * intros g' y'. destruct (decide (g = g')) as [<-|Hgg]; dir_simpl; [ congruence | eauto ].
      * destruct (decide (g = f)) as [->|Hne]; dir_simpl; [ right; eauto | ].
        destruct Hf as [Hf|?]; [ | by right ].
        apply elem_of_cons in Hf as [?|?]; [ congruence | by left ].
Qed.

Lemma intake_loop (s : world * (nat * nat)) :
  intake_going all s ->
  wp (for_each all (fun e => process_file e.2 e.1))
     (fun r s' => r = Returns tt
                  /\ exists x, (f, x) ∈ all /\ dir_lookup (exception_dir s'.1) f = Some x) s.
Proof.
  intros Hs. eapply wp_mono; [ | apply (wp_for_each intake_going) ]; [ | | exact Hs ].
  - intros r s' (-> & _ & _ & _ & [Hin|Hx]); [ by apply elem_of_nil in Hin | done ].
  - intros [g x] rem s0 H0. by apply process_file_step.
Qed.
End Non_pdf.

Opaque os_walk.

Lemma intake_copies_non_pdf {L} entries w (l : L) f :
  is_pdf f = false ->
  Forall (fun e => locked e.2 = false) (walked_files entries) ->
  staging_free w ->
  f ∈ (walked_files entries).*1 ->
  exists w' x,
    copy_pdfs_to_main_folder (Some entries) (w, l) = (Returns tt, (w', l))
    /\ (f, x) ∈ walked_files entries
    /\ dir_lookup (exception_dir w') f = Some x
    /\ untouched touched_by_intake w w'.
Proof.
  intros Hf Hfree Hstage Hin.
  destruct (copy_pdfs_to_main_folder_frame (L := L) (Some entries) w l) as (w' & Hrun & Hun).
  cut (wp (copy_pdfs_to_main_folder (Some entries))
          (fun r s' => exists x, (f, x) ∈ walked_files entries
                                 /\ dir_lookup (exception_dir s'.1) f = Some x) (w, l)).
  { unfold wp. rewrite Hrun. simpl. intros (x & ? & ?). by exists w', x. }
  assert (Hgo : intake_going f (walked_files entries) (walked_files entries)
                  (print Copying_files w, (0%nat, 0%nat))).
  { split; [ done | ]. split; [ done | ]. split; [ | by left ].
    destruct Hstage. by split. }
  pose proof (intake_loop f (walked_files entries) Hf _ Hgo) as Hloop.
  unfold copy_pdfs_to_main_folder. wp_go. unfold walked_files in *.
  destruct (existsb _ entries).
  - apply wp_for_each_concat. eapply wp_mono; [ | exact Hloop ].
    intros r [w1 c1] (-> & x & Hx & Hl). wp_go. eauto.
  - apply (wp_for_each_files_of process_file). eapply wp_mono; [ | exact Hloop ].
    intros r [w1 c1] (-> & x & Hx & Hl). wp_go. eauto.
Qed.

Transparent os_walk.

Lemma untouched_at P w w' F g :
  untouched P w w' -> ~ P F g ->
  dir_lookup (get_dir F w') g = dir_lookup (get_dir F w) g.
Proof. intros H. by apply (H F). Qed.

Lemma untouched_folder P w w' F :
  untouched P w w' -> (forall g, ~ P F g) -> get_dir F w' = get_dir F w.
Proof. intros H. by apply (H F). Qed.

(** C7, as the code has it.  A file of the source folder whose name does
    not end in ".pdf", in any letter case, is copied to the Exception
    folder and is there after the run; no stage copies it to the Unique
    folder, which has under that name what it had before the run.  (The
    intake is supposed to meet no held file, and the time stamp to be one
    that [strftime] gives.) *)
Theorem non_pdf_stays_in_exception now entries w f :
  timestamp_ok now ->
  Forall (fun e => locked e.2 = false) (walked_files entries) ->
  staging_free w ->
  f ∈ (walked_files entries).*1 ->
  is_pdf f = false ->
  Py.endswith f (Py.str ".pdf") = false ->
  exists w' dfs x,
    main (Some entries) now (w, tt) = (Returns dfs, (w', tt))
    /\ (f, x) ∈ walked_files entries
    /\ dir_lookup (exception_dir w') f = Some x
    /\ dir_lookup (unique_invoices w') f = dir_lookup (unique_invoices w) f.
Proof.
  intros Hok Hfree Hstage Hin Hpdf Hend.
  set (w0 := print Version_banner w).
  assert (Hstage0 : staging_free w0) by (destruct Hstage; by split).
  destruct (intake_copies_non_pdf (L := unit) entries w0 tt f Hpdf Hfree Hstage0 Hin)
    as (w1 & x & R1 & Hx & E1 & U1).
  destruct (extract_texts_frame (L := unit) w1 tt) as (w2 & R2 & U2).
  destruct (deduplicate_text_files_frame (L := unit) w2 tt) as (w3 & R3 & U3).
  destruct (cross_compare_with_repository_frame (L := unit) w3 tt) as (w4 & R4 & U4).
  destruct (update_repository_frame (L := unit) now w4 tt Hok) as (w5 & R5 & U5).
  destruct (cleanup_main_pdf_folder_frame (L := unit) w5 tt) as (w6 & R6 & U6).
  exists (print All_tasks_completed w6). eexists. exists x.
  split; [ | split; [ done | split ] ].
  - unfold main, ensure_folders.
    rewrite (bind_run (log Version_banner) _ (w, tt) tt (w0, tt)) by done.
    rewrite (bind_run (ret tt) _ (w0, tt) tt (w0, tt)) by done.
    rewrite (bind_run _ _ _ _ _ R1), (bind_run _ _ _ _ _ R2), (bind_run _ _ _ _ _ R3),
      (bind_run _ _ _ _ _ R4), (bind_run _ _ _ _ _ R5), (bind_run _ _ _ _ _ R6).
    reflexivity.
  - rewrite <- E1. change (exception_dir ?w) with (get_dir EXCEPTION_FOLDER w).
    rewrite get_print.
    rewrite (untouched_at _ _ _ EXCEPTION_FOLDER f U6)
      by (unfold touched_by_cleanup; intros [?|[_ ?]]; congruence).
    rewrite (untouched_at _ _ _ EXCEPTION_FOLDER f U5)
      by (unfold touched_by_update; intros [?|?]; congruence).
    rewrite (untouched_at _ _ _ EXCEPTION_FOLDER f U4)
      by (unfold touched_by_comparison; intros [?|[?|[?|[? _]]]]; congruence).
    rewrite (untouched_at _ _ _ EXCEPTION_FOLDER f U3)
      by (unfold touched_by_dedup; intros [?|[?|?]]; congruence).
    rewrite (untouched_at _ _ _ EXCEPTION_FOLDER f U2)
      by (unfold touched_by_extraction; intros [?|[?|[_ ?]]]; congruence).
    done.
  - change (unique_invoices ?w) with (get_dir UNIQUE_INVOICES_FOLDER w).
    rewrite get_print.
    rewrite (untouched_at _ _ _ UNIQUE_INVOICES_FOLDER f U6)
      by (unfold touched_by_cleanup; intros [?|[? _]]; congruence).
    rewrite (untouched_at _ _ _ UNIQUE_INVOICES_FOLDER f U5)
      by (unfold touched_by_update; intros [?|?]; congruence).
    rewrite (untouched_at _ _ _ UNIQUE_INVOICES_FOLDER f U4)
      by (unfold touched_by_comparison; intros [?|[?|[?|[_ [?|?]]]]]; congruence).
    rewrite (untouched_at _ _ _ UNIQUE_INVOICES_FOLDER f U3)
      by (unfold touched_by_dedup; intros [?|[?|?]]; congruence).
    rewrite (untouched_at _ _ _ UNIQUE_INVOICES_FOLDER f U2)
      by (unfold touched_by_extraction; intros [?|[?|[? _]]]; congruence).
    rewrite (untouched_at _ _ _ UNIQUE_INVOICES_FOLDER f U1)
      by (unfold touched_by_intake; intros [[? _]|[? _]]; congruence).
    done.
Qed.


(** * Further properties of the stages *)

(** ** The extractor *)

(** X3.  What [extract_text_from_pdf] hands to [extract_texts]: no text and no
    method, or a text of thirty characters at least with the name of the
    tool that read it.  The text layer comes first: when it is long
    enough the optical reader is not consulted.  A file that is not there,
    or is held, gives no text. *)
Theorem extract_text_from_pdf_result (at_path : option file) :
  ((extract_text_from_pdf at_path).1 = [] /\ (extract_text_from_pdf at_path).2 = None
   \/ ((30 <= length (extract_text_from_pdf at_path).1)%nat
       /\ ((extract_text_from_pdf at_path).2 = Some (Py.str "pdfplumber")
           \/ (extract_text_from_pdf at_path).2 = Some (Py.str "ocr"))))
  /\ (forall x pages,
        at_path = Some x -> locked x = false -> pdfplumber_pages x = Some pages ->
        (30 <= length (Py.strip (concat (map (default []) pages))))%nat ->
        extract_text_from_pdf at_path
        = (Py.strip (concat (map (default []) pages)), Some (Py.str "pdfplumber")))
  /\ (forall x,
        at_path = Some x -> locked x = false ->
        match pdfplumber_pages x with
        | Some pages => (length (Py.strip (concat (map (default []) pages))) < 30)%nat
        | None => True
        end ->
        extract_text_from_pdf at_path
        = match ocr_pages x with
          | Some pages =>
              if (30 <=? length (concat (map Py.strip pages)))%nat
              then (concat (map Py.strip pages), Some (Py.str "ocr"))
              else ([], None)
          | None => ([], None)
          end)
  /\ (at_path = None \/ (exists x, at_path = Some x /\ locked x = true) ->
      extract_text_from_pdf at_path = ([], None)).
Proof.
  split; [ | split; [ | split ] ].
  - unfold extract_text_from_pdf, open_with.
    destruct at_path as [x|]; [ | by left ].
    destruct (locked x); [ by left | ].
    destruct (pdfplumber_pages x) as [pages|].
    + destruct (30 <=? length (Py.strip _))%nat eqn:Hlen.
      * right. simpl. apply Nat.leb_le in Hlen. auto.
      * destruct (ocr_pages x) as [scans|]; [ | by left ].
        destruct (30 <=? length (concat _))%nat eqn:Hocr; [ | by left ].
        right. simpl. apply Nat.leb_le in Hocr. auto.
    + destruct (ocr_pages x) as [scans|]; [ | by left ].
      destruct (30 <=? length (concat _))%nat eqn:Hocr; [ | by left ].
      right. simpl. apply Nat.leb_le in Hocr. auto.
  - intros x pages -> Hx Hpages Hlen. unfold extract_text_from_pdf, open_with.
    rewrite Hx, Hpages. apply Nat.leb_le in Hlen. by rewrite Hlen.
  - intros x -> Hx Hshort. unfold extract_text_from_pdf, open_with. rewrite Hx.
    destruct (pdfplumber_pages x) as [pages|]; [ | done ].
    apply Nat.leb_gt in Hshort. by rewrite Hshort.
  - intros [->|(x & -> & Hx)]; [ done | ].
    unfold extract_text_from_pdf, open_with. by rewrite Hx.
Qed.

(** ** The intake goes through the source as a walk does *)



Lemma bind_ext {L A B} (m : M L A) (k k' : A -> M L B) s :
  (forall a s', k a s' = k' a s') -> bind m k s = bind m k' s.
Proof. intros H. unfold bind. destruct (m s) as [[a|e] s']; [ apply H | done ]. Qed.






(** ** The path of the repository *)

(** The five folders that [ensure_folders] makes are there when a stage
    runs.  The repository is at the path that the operator types, which
    [main] does not test, and no function makes a folder at this path:
    [repository_found] says whether the path names a folder, the folder
    [repository] of the world.  The functions above are those of a run
    in which it does.  Of a path that names no folder, [os.listdir]
    raises, [os.path.exists] of a path below it is false, and
    [shutil.move] to a path below it raises and leaves its source. *)
Definition os_listdir_at {L} (found : bool) (F : folder) : M L (list pystr) :=
  if found then os_listdir F else raise FileNotFoundError.

Definition build_repo_hashes_at (repository_found : bool) : M compare_vars unit :=
  listing ← os_listdir_at repository_found repository_folder;
  for_each listing add_repo_hash.

Definition cross_compare_with_repository_at {L} (repository_found : bool) : M L unit :=
  call (CompareVars ∅ 0 0)
    (log Cross_comparing;;
     build_repo_hashes_at repository_found;;
     compare_extracted;;
     copy_exception_pdfs;;
     v ← local;
     log (Cross_comparison_complete (count_unique v) (count_duplicates v))).

(** [shutil.move(src, dst)] where the folder of [dst] may not be there:
    the source is opened, and the target cannot be. *)
Definition shutil_move_at {L} (found : bool) (F : folder) (f : pystr) (G : folder) (g : pystr)
  : M L unit :=
  if found then shutil_move F f G g
  else
    w ← the_world;
    match dir_lookup (get_dir F w) f with
    | None => raise FileNotFoundError
    | Some x => if locked x then raise PermissionError else raise FileNotFoundError
    end.

Definition file_text_at (repository_found : bool) (now : timestamp) (f : pystr) : M nat unit :=
  when (is_txt f)
    (let base_name := base_name_of now in
     w ← the_world;
     let repo := if repository_found then repository w else [] in
     match resolve_name (S (length repo)) repo base_name base_name 1 with
     | None => raise LoopBoundReached
     | Some (new_name, _) =>
         try_except
           (shutil_move_at repository_found EXTRACTED_TEXT_FOLDER f repository_folder new_name;;
            log (Moved_and_renamed f new_name);;
            assign S)
           (fun e => log (Failed_to_move_and_rename f e))
     end).

Definition update_repository_at {L} (repository_found : bool) (now : timestamp) : M L unit :=
  call 0%nat
    (log Updating_repository;;
     listing ← os_listdir EXTRACTED_TEXT_FOLDER;
     for_each listing (file_text_at repository_found now);;
     moved_count ← local;
     log (Moved_and_renamed_count moved_count)).

(** [main], with the path of the repository as the operator typed it. *)
Definition main_at (repository_found : bool) (source_folder : option tree) (now : timestamp)
  : M unit (list row * list row) :=
  log Version_banner;;
  ensure_folders;;
  copy_pdfs_to_main_folder source_folder;;
  extract_texts;;
  deduplicate_text_files;;
  cross_compare_with_repository_at repository_found;;
  update_repository_at repository_found now;;
  cleanup_main_pdf_folder;;
  log All_tasks_completed;;
  df_duplicates ← get_duplicate_invoices_dataframe;
  df_unique ← get_unique_invoices_dataframe;
  ret (df_duplicates, df_unique).

Lemma cross_compare_with_repository_at_found {L} (s : world * L) :
  cross_compare_with_repository_at true s = cross_compare_with_repository s.
Proof. reflexivity. Qed.

(** On a path that names no folder the comparator raises from its first
    loop, with its first line logged and no file touched. *)
Lemma cross_compare_with_repository_at_missing {L} w (l : L) :
  cross_compare_with_repository_at false (w, l)
  = (Raises FileNotFoundError, (print Cross_comparing w, l)).
Proof. reflexivity. Qed.

Lemma update_repository_at_found {L} now (s : world * L) :
  update_repository_at true now s = update_repository now s.
Proof. reflexivity. Qed.


Lemma main_at_found source_folder now s :
  main_at true source_folder now s = main source_folder now s.
Proof. reflexivity. Qed.

(** The run up to the call of the comparator. *)
Lemma main_at_missing source_folder now w w1 w2 w3 :
  copy_pdfs_to_main_folder source_folder (print Version_banner w, tt) = (Returns tt, (w1, tt)) ->
  extract_texts (w1, tt) = (Returns tt, (w2, tt)) ->
  deduplicate_text_files (w2, tt) = (Returns tt, (w3, tt)) ->
  main_at false source_folder now (w, tt)
  = (Raises FileNotFoundError, (print Cross_comparing w3, tt)).
Proof.
  intros R1 R2 R3. unfold main_at, ensure_folders.
  rewrite (bind_run (log Version_banner) _ (w, tt) tt (print Version_banner w, tt)) by done.
  rewrite (bind_run (ret tt) _ _ tt (print Version_banner w, tt)) by done.
  rewrite (bind_run _ _ _ _ _ R1), (bind_run _ _ _ _ _ R2), (bind_run _ _ _ _ _ R3).
  unfold bind at 1. by rewrite cross_compare_with_repository_at_missing.
Qed.

(** ** The folders a stage works on *)


(** ** A staged PDF is not lost *)

(** The PDF [y] that the staging folder holds under the name [p] when the
    intake is over: wherever the name [p] is found in the staging or the
    Exception folder, it is this file, and one of the four folders has
    it. *)
Definition pdf_kept (p : pystr) (y : file) (w : world) : Prop :=
  (dir_lookup (exception_dir w) p = None \/ dir_lookup (exception_dir w) p = Some y)
  /\ (dir_lookup (main_pdf w) p = None \/ dir_lookup (main_pdf w) p = Some y)
  /\ (dir_lookup (main_pdf w) p = Some y
      \/ dir_lookup (unique_invoices w) p = Some y
      \/ dir_lookup (duplicates_invoices w) p = Some y
      \/ dir_lookup (exception_dir w) p = Some y).

Ltac rewrite_name E q :=
  rewrite ?E;
  repeat match goal with
         | H : context [q] |- _ => lazymatch H with E => fail | _ => rewrite E in H end
         end.

Ltac name_cases p :=
  repeat match goal with
         | |- context [dir_lookup (dir_write _ ?q _) p] =>
             lazymatch q with
             | p => rewrite dir_lookup_write_eq
             | _ => let E := fresh "E" in
                    destruct (decide (q = p)) as [E|?];
                    [ rewrite_name E q | rewrite (dir_lookup_write_ne _ q p) by done ]
             end
         | |- context [dir_lookup (dir_remove _ ?q) p] =>
             lazymatch q with
             | p => rewrite dir_lookup_remove_eq
             | _ => let E := fresh "E" in
                    destruct (decide (q = p)) as [E|?];
                    [ rewrite_name E q | rewrite (dir_lookup_remove_ne _ q p) by done ]
             end
         end.

Ltac clear_runtime :=
  try clear strftime_localtime; try clear pdfplumber_pages; try clear ocr_pages;
  try clear clock; try clear unicode_lower.

Ltac kept_leaf p :=
  (split; [ done | ]); clear_runtime;
  unfold pdf_kept in *; simpl in *; name_cases p;
  naive_solver.

Section Kept.
Variables (p : pystr) (y : file).

Lemma dedup_file_keeps_pdf f (s : world * dedup_vars) :
  pdf_kept p y s.1 ->
  wp (dedup_file f) (fun r s' => r = Returns tt /\ pdf_kept p y s'.1) s.
Proof.
  destruct s as [w v]. intros H. unfold dedup_file. wp_cases; kept_leaf p.
Qed.

Lemma add_repo_hash_keeps_pdf f (s : world * compare_vars) :
  pdf_kept p y s.1 ->
  wp (add_repo_hash f) (fun r s' => r = Returns tt /\ pdf_kept p y s'.1) s.
Proof.
  destruct s as [w v]. intros H. unfold add_repo_hash. wp_cases; kept_leaf p.
Qed.

Lemma compare_file_keeps_pdf f (s : world * compare_vars) :
  pdf_kept p y s.1 ->
  wp (compare_file f) (fun r s' => r = Returns tt /\ pdf_kept p y s'.1) s.
Proof.
  destruct s as [w v]. intros H. unfold compare_file. wp_cases; kept_leaf p.
Qed.

Lemma copy_exception_pdf_keeps_pdf f (s : world * compare_vars) :
  pdf_kept p y s.1 ->
  wp (copy_exception_pdf f) (fun r s' => r = Returns tt /\ pdf_kept p y s'.1) s.
Proof.
  destruct s as [w v]. intros H. unfold copy_exception_pdf. wp_cases; kept_leaf p.
Qed.

Lemma file_text_keeps_pdf now f (s : world * nat) :
  timestamp_ok now ->
  pdf_kept p y s.1 ->
  wp (file_text now f) (fun r s' => r = Returns tt /\ pdf_kept p y s'.1) s.
Proof.
  destruct s as [w c]. intros Hok H. unfold file_text, when.
  destruct (resolve_name_first_free now (repository w) Hok) as (k & Hres & _).
  destruct (is_txt f); [ | by apply wp_ret ].
  apply wp_bind, wp_the_world. cbn beta iota. rewrite Hres.
  wp_cases; kept_leaf p.
Qed.

Lemma extract_texts_keeps_pdf {L} w (l : L) :
  pdf_kept p y w ->
  exists w', extract_texts (w, l) = (Returns tt, (w', l)) /\ pdf_kept p y w'.
Proof.
  intros H. apply wp_returns. unfold extract_texts. wp_go.
  eapply wp_mono; [ | apply (wp_for_each_inv (fun s => pdf_kept p y s.1)) ].
  - intros r [w1 c] [-> H1]. wp_go. done.
  - intros f [w1 c] _ H1. wp_cases; kept_leaf p.
  - done.
Qed.

Lemma deduplicate_text_files_keeps_pdf {L} w (l : L) :
  pdf_kept p y w ->
  exists w', deduplicate_text_files (w, l) = (Returns tt, (w', l)) /\ pdf_kept p y w'.
Proof.
  intros H. apply wp_returns. unfold deduplicate_text_files, deduplicate_loop. wp_go.
  eapply wp_mono; [ | apply (wp_for_each_inv (fun s => pdf_kept p y s.1)) ].
  - intros r [w1 c] [-> H1]. wp_go. done.
  - intros f s _ Hs. by apply dedup_file_keeps_pdf.
  - done.
Qed.

Lemma cross_compare_with_repository_keeps_pdf {L} w (l : L) :
  pdf_kept p y w ->
  exists w', cross_compare_with_repository (w, l) = (Returns tt, (w', l))
             /\ pdf_kept p y w'.
Proof.
  intros H. apply wp_returns.
  unfold cross_compare_with_repository, cross_compare_body, build_repo_hashes,
    compare_extracted, copy_exception_pdfs.
  pose (I := fun s : world * compare_vars => pdf_kept p y s.1).
  wp_go.
  eapply wp_mono; [ | apply (wp_for_each_inv I) ];
    [ | intros; by apply add_repo_hash_keeps_pdf | done ].
  intros r [w1 v1] [-> H1]. wp_go.
  eapply wp_mono; [ | apply (wp_for_each_inv I) ];
    [ | intros; by apply compare_file_keeps_pdf | done ].
  intros r [w2 v2] [-> H2]. wp_go.
  eapply wp_mono; [ | apply (wp_for_each_inv I) ];
    [ | intros; by apply copy_exception_pdf_keeps_pdf | done ].
  intros r [w3 v3] [-> H3]. wp_go. done.
Qed.

Lemma update_repository_keeps_pdf {L} now w (l : L) :
  timestamp_ok now ->
  pdf_kept p y w ->
  exists w', update_repository now (w, l) = (Returns tt, (w', l)) /\ pdf_kept p y w'.
Proof.
  intros Hok H. apply wp_returns. unfold update_repository. wp_go.
  eapply wp_mono; [ | apply (wp_for_each_inv (fun s => pdf_kept p y s.1)) ];
    [ | intros; by apply file_text_keeps_pdf | done ].
  intros r [w1 c] [-> H1]. wp_go. done.
Qed.

(** The cleanup keeps the PDF, and takes it out of the staging folder
    when it is still there and is not held. *)
Definition pdf_swept (rem : list pystr) (s : world * unit) : Prop :=
  pdf_kept p y s.1 /\ (p ∈ rem \/ dir_lookup (main_pdf s.1) p = None).

Lemma cleanup_step_keeps_pdf f (s : world * unit) :
  pdf_kept p y s.1 ->
  wp (try_except
        (shutil_move MAIN_PDF_FOLDER f EXCEPTION_FOLDER f;;
         log (Moved_leftover_PDF f))
        (fun e => log (Failed_to_move_leftover_PDF f e)))
     (fun r s' => r = Returns tt /\ pdf_kept p y s'.1) s.
Proof. destruct s as [w []]. intros H. wp_cases; kept_leaf p. Qed.

Lemma cleanup_step_sweeps_pdf f rem (s : world * unit) :
  locked y = false ->
  pdf_swept (f :: rem) s ->
  wp (try_except
        (shutil_move MAIN_PDF_FOLDER f EXCEPTION_FOLDER f;;
         log (Moved_leftover_PDF f))
        (fun e => log (Failed_to_move_leftover_PDF f e)))
     (fun r s' => r = Returns tt /\ pdf_swept rem s') s.
Proof.
  destruct s as [w []]. intros Hfree [H Hp]. rewrite elem_of_cons in Hp.
  destruct (decide (f = p)) as [E|NE].
  - subst f. wp_cases; (split; [ done | ]); clear_runtime;
      unfold pdf_swept, pdf_kept in *; simpl in *; dir_simpl; intuition congruence.
  - assert (Hp' : p ∈ rem \/ dir_lookup (main_pdf w) p = None).
    { destruct Hp as [[?|?]|?]; [ congruence | by left | by right ]. }
    clear Hp.
    wp_cases; (split; [ done | ]); clear_runtime;
      unfold pdf_swept, pdf_kept in *; simpl in *; dir_simpl; intuition congruence.
Qed.

Lemma cleanup_main_pdf_folder_keeps_pdf w :
  pdf_kept p y w ->
  exists w',
    cleanup_main_pdf_folder (w, tt) = (Returns tt, (w', tt))
    /\ pdf_kept p y w'
    /\ (is_pdf p = true -> locked y = false -> dir_lookup (main_pdf w') p = None).
Proof.
  intros H.
  apply (wp_returns cleanup_main_pdf_folder tt
           (fun w' => pdf_kept p y w'
                      /\ (is_pdf p = true -> locked y = false ->
                          dir_lookup (main_pdf w') p = None))).
  assert (Hlisted : forall z, dir_lookup (main_pdf w) p = Some z -> is_pdf p = true ->
            p ∈ filter (fun f => is_pdf f = true) (names (main_pdf w))).
  { intros z Hz Hpdf. apply list_elem_of_filter. split; [ done | ].
    apply dir_lookup_is_Some. by rewrite Hz. }
  unfold cleanup_main_pdf_folder. wp_go.
  destruct (filter _ _) as [|g leftover] eqn:Hleft.
  - wp_go. do 3 (split; [ done | ]). intros Hpdf _.
    destruct (dir_lookup (main_pdf w) p) as [z|] eqn:Hz; [ | done ].
    pose proof (Hlisted z eq_refl Hpdf) as Hin. by apply elem_of_nil in Hin.
  - apply wp_bind, wp_log. cbn beta iota.
    destruct (is_pdf p) eqn:Hpdf, (locked y) eqn:Hfree;
      try (eapply wp_mono;
           [ | apply (wp_for_each_inv (fun s : world * unit => pdf_kept p y s.1)) ];
           [ intros r [w1 []] [-> H1]; by do 3 (split; [ done | ])
           | intros; by apply cleanup_step_keeps_pdf
           | done ]).
    eapply wp_mono; [ | apply (wp_for_each pdf_swept) ].
    + intros r [w1 []] (-> & H1 & [Hin|Hgone]); [ by apply elem_of_nil in Hin | ].
      by do 3 (split; [ done | ]).
    + intros f rem s Hs. by apply cleanup_step_sweeps_pdf.
    + split; [ done | ]. simpl.
      destruct (dir_lookup (main_pdf w) p) as [z|] eqn:Hz; [ left | by right ].
      by apply (Hlisted z).
Qed.
End Kept.

(** X11.  No PDF of the staging folder is lost by a run.  Take the staging
    folder as the intake leaves it, and a PDF in it whose name is not in
    the Exception folder.  After the run the file is, under its name, in
    the staging, the Unique, the Duplicates or the Exception folder,
    whether the run returns or raises from the comparator, on a
    repository path that names no folder; and after a run that had its
    repository, a file that is not held is out of the staging folder. *)
Theorem staged_pdf_is_not_lost (repository_found : bool) (source_folder : option tree) now w :
  timestamp_ok now ->
  exists w1 r w',
    copy_pdfs_to_main_folder source_folder (print Version_banner w, tt)
    = (Returns tt, (w1, tt))
    /\ main_at repository_found source_folder now (w, tt) = (r, (w', tt))
    /\ (if repository_found then exists dfs, r = Returns dfs
        else r = Raises FileNotFoundError)
    /\ forall p y,
         dir_lookup (main_pdf w1) p = Some y ->
         dir_lookup (exception_dir w1) p = None ->
         (dir_lookup (main_pdf w') p = Some y
          \/ dir_lookup (unique_invoices w') p = Some y
          \/ dir_lookup (duplicates_invoices w') p = Some y
          \/ dir_lookup (exception_dir w') p = Some y)
         /\ (repository_found = true -> is_pdf p = true -> locked y = false ->
             dir_lookup (main_pdf w') p = None
             /\ (dir_lookup (unique_invoices w') p = Some y
                 \/ dir_lookup (duplicates_invoices w') p = Some y
                 \/ dir_lookup (exception_dir w') p = Some y)).
Proof.
  intros Hok. set (w0 := print Version_banner w).
  destruct (copy_pdfs_to_main_folder_frame (L := unit) source_folder w0 tt) as (w1 & R1 & _).
  destruct (extract_texts_frame (L := unit) w1 tt) as (w2 & R2 & _).
  destruct (deduplicate_text_files_frame (L := unit) w2 tt) as (w3 & R3 & _).
  assert (K3 : forall p y, dir_lookup (main_pdf w1) p = Some y ->
                           dir_lookup (exception_dir w1) p = None -> pdf_kept p y w3).
  { intros p y Hp Hexc.
    assert (K1 : pdf_kept p y w1) by (unfold pdf_kept; auto).
    destruct (extract_texts_keeps_pdf p y (L := unit) w1 tt K1) as (w2' & R2' & K2).
    rewrite R2 in R2'. injection R2' as <-.
    destruct (deduplicate_text_files_keeps_pdf p y (L := unit) w2 tt K2) as (w3' & R3' & K3).
    rewrite R3 in R3'. by injection R3' as <-. }
  destruct repository_found.
  - destruct (cross_compare_with_repository_frame (L := unit) w3 tt) as (w4 & R4 & _).
    destruct (update_repository_frame (L := unit) now w4 tt Hok) as (w5 & R5 & _).
    destruct (cleanup_main_pdf_folder_frame (L := unit) w5 tt) as (w6 & R6 & _).
    exists w1. eexists. exists (print All_tasks_completed w6).
    split; [ done | ]. split; [ | split; [ by eexists | ] ].
    + rewrite main_at_found. unfold main, ensure_folders.
      rewrite (bind_run (log Version_banner) _ (w, tt) tt (w0, tt)) by done.
      rewrite (bind_run (ret tt) _ (w0, tt) tt (w0, tt)) by done.
      rewrite (bind_run _ _ _ _ _ R1), (bind_run _ _ _ _ _ R2), (bind_run _ _ _ _ _ R3),
        (bind_run _ _ _ _ _ R4), (bind_run _ _ _ _ _ R5), (bind_run _ _ _ _ _ R6).
      reflexivity.
    + intros p y Hp Hexc. specialize (K3 p y Hp Hexc).
      destruct (cross_compare_with_repository_keeps_pdf p y (L := unit) w3 tt K3)
        as (w4' & R4' & K4).
      rewrite R4 in R4'. injection R4' as <-.
      destruct (update_repository_keeps_pdf p y (L := unit) now w4 tt Hok K4)
        as (w5' & R5' & K5).
      rewrite R5 in R5'. injection R5' as <-.
      destruct (cleanup_main_pdf_folder_keeps_pdf p y w5 K5) as (w6' & R6' & K6 & Hout).
      rewrite R6 in R6'. injection R6' as <-.
      destruct K6 as (_ & _ & Hsome). simpl. split; [ done | ].
      intros _ Hpdf Hfree. specialize (Hout Hpdf Hfree). split; [ done | ].
      destruct Hsome as [?|?]; [ congruence | done ].
  - exists w1, (Raises FileNotFoundError), (print Cross_comparing w3).
    split; [ done | ]. split; [ by apply (main_at_missing source_folder now w w1 w2 w3) | ].
    split; [ done | ].
    intros p y Hp Hexc. destruct (K3 p y Hp Hexc) as (_ & _ & Hsome).
    split; [ exact Hsome | done ].
Qed.

(** ** Local deduplication keeps one text of each fingerprint *)

(** The fingerprint a stage computes for the file [x]. *)
Definition fingerprint_of (x : file) : option pystr :=
  if locked x then None
  else match data x with
       | Text t => sha256_hash t
       | Binary _ => None
       end.

Lemma fingerprint_in_of (d : dir) f : fingerprint_in d f = dir_lookup d f ≫= fingerprint_of.
Proof. unfold fingerprint_in, fingerprint_of. by destruct (dir_lookup d f). Qed.


(** The fingerprints of the text files of the folder. *)
Definition has_fingerprint (d : dir) (h : pystr) : Prop :=
  exists g, is_txt g = true /\ fingerprint_in d g = Some h.

Lemma deduplicate_loop_steps (P : list pystr -> world * dedup_vars -> Prop) :
  (forall f rem s s',
     P (f :: rem) s ->
     dedup_failed f s s' \/ dedup_registered f s s' \/ dedup_removed f s s' ->
     P rem s') ->
  forall fs s, P fs s -> P [] (exec (deduplicate_loop fs) s).
Proof.
  intros Hstep. induction fs as [|f fs IH]; intros s Hs; [ done | ].
  rewrite exec_loop_cons. apply IH.
  destruct (dedup_file_step f s) as (s' & Hrun & Hcase).
  unfold exec. rewrite Hrun. simpl. by apply (Hstep f fs s).
Qed.

(** While the deduplicator runs on the folder as [w0] has it: a text met
    so far whose fingerprint can be computed is the one registered for
    it; a registered text has been met and is there; the fingerprints of
    the folder are those of the start; and a file of the folder is a file
    of the start. *)
Definition dedup_going (w0 : world) (rem : list pystr) (s : world * dedup_vars) : Prop :=
  NoDup rem
  /\ Forall (fun g => is_txt g = true) rem
  /\ (forall g h, is_txt g = true -> fingerprint_at s.1 g = Some h ->
                  g ∈ rem \/ seen_hashes s.2 !! h = Some g)
  /\ (forall h g, seen_hashes s.2 !! h = Some g ->
                  (g ∉ rem) /\ is_txt g = true /\ fingerprint_at s.1 g = Some h)
  /\ (forall h, has_fingerprint (extracted_text s.1) h
                <-> has_fingerprint (extracted_text w0) h)
  /\ (forall g y, dir_lookup (extracted_text s.1) g = Some y ->
                  dir_lookup (extracted_text w0) g = Some y).

Lemma dedup_going_step w0 f rem s s' :
  dedup_going w0 (f :: rem) s ->
  dedup_failed f s s' \/ dedup_registered f s s' \/ dedup_removed f s s' ->
  dedup_going w0 rem s'.
Proof.
  destruct s as [w v], s' as [w' v']. unfold dedup_going, has_fingerprint, fingerprint_at.
  simpl. intros (Hnd & Htxt & Ha & Hb & Hj & Hk) Hstep.
  apply NoDup_cons in Hnd as [Hf Hnd]. apply Forall_cons in Htxt as [Hftxt Htxt].
  split; [ done | ]. split; [ done | ].
  dedup_cases Hstep; simpl in *; unfold fingerprint_at in *.
  - subst v'. rewrite E2. split; [ | split; [ | done ] ].
    + intros g h Hg Hh. destruct (Ha g h Hg Hh) as [Hin|?]; [ | by right ].
      apply elem_of_cons in Hin as [->|?]; [ congruence | by left ].
    + intros h g Hs. destruct (Hb h g Hs) as (Hin & ? & ?).
      split; [ | done ]. intros ?. apply Hin. by right.
  - subst w'. rewrite Hv. split; [ | split; [ | done ] ].
    + intros g h Hg Hh. destruct (Ha g h Hg Hh) as [Hin|Hs].
      * apply elem_of_cons in Hin as [->|?]; [ | by left ].
        right. assert (h = h') as -> by congruence. apply lookup_insert_eq.
      * right. rewrite lookup_insert_ne; [ done | ]. intros <-. congruence.
    + intros h g. destruct (decide (h' = h)) as [<-|Hne].
      * rewrite lookup_insert_eq. intros [= <-]. done.
      * rewrite lookup_insert_ne by done. intros Hs.
        destruct (Hb h g Hs) as (Hin & ? & ?). split; [ | done ].
        intros ?. apply Hin. by right.
  - rewrite Hv, Hext. destruct (Hb h' a' Hseen) as (Ha' & Hatxt & Hafp).
    assert (Haf : f <> a') by (intros ->; apply Ha'; by left).
    split; [ | split; [ | split ] ].
    + intros g h Hg. rewrite fingerprint_in_remove.
      destruct (decide (f = g)) as [|Hne]; [ done | ]. intros Hh.
      destruct (Ha g h Hg Hh) as [Hin|?]; [ | by right ].
      apply elem_of_cons in Hin as [->|?]; [ done | by left ].
    + intros h g Hs. destruct (Hb h g Hs) as (Hin & ? & ?).
      split; [ intros ?; apply Hin; by right | ]. split; [ done | ].
      rewrite fingerprint_in_remove. rewrite decide_False; [ done | ].
      intros ->. apply Hin. by left.
    + intros h. rewrite <- Hj. split.
      * intros (g & Hg & Hh). rewrite fingerprint_in_remove in Hh.
        destruct (decide (f = g)); [ done | ]. by exists g.
      * intros (g & Hg & Hh). destruct (decide (f = g)) as [<-|Hne].
        -- exists a'. split; [ done | ]. rewrite fingerprint_in_remove.
           rewrite decide_False by done. congruence.
        -- exists g. split; [ done | ]. rewrite fingerprint_in_remove.
           by rewrite decide_False.
    + intros g y. destruct (decide (f = g)) as [<-|Hne].
      * by rewrite dir_lookup_remove_eq.
      * rewrite dir_lookup_remove_ne by done. apply Hk.
Qed.

Lemma deduplicate_text_files_going {L} w (l : L) :
  NoDup (names (extracted_text w)) ->
  exists w' v',
    deduplicate_text_files (w, l) = (Returns tt, (w', l))
    /\ dedup_going w [] (w', v').
Proof.
  intros Hnd. rewrite deduplicate_text_files_run.
  set (files := filter (fun f => is_txt f = true) (names (extracted_text w))).
  set (s0 := (print Starting_deduplication w, DedupVars ∅ 0)).
  assert (H0 : dedup_going w files s0).
  { unfold dedup_going, fingerprint_at. simpl. split; [ by apply NoDup_filter | ].
    split; [ apply Forall_forall; by intros g [? _]%list_elem_of_filter | ].
    split; [ | split; [ | done ] ].
    - intros g h Hg Hh. left. apply list_elem_of_filter. split; [ done | ].
      apply dir_lookup_is_Some. rewrite fingerprint_in_of in Hh.
      destruct (dir_lookup (extracted_text w) g); [ eauto | done ].
    - intros h g Hs. by rewrite lookup_empty in Hs. }
  pose proof (deduplicate_loop_steps (dedup_going w) (dedup_going_step w) files s0 H0) as H1.
  destruct (exec (deduplicate_loop files) s0) as [w1 v1] eqn:Hexec.
  exists (print (Deduplication_done (removed_count v1)) w1), v1.
  split; [ done | ]. exact H1.
Qed.


(** ** The comparator, artifact by artifact *)

(** The three ways the comparator deals with a text artifact [f], whose
    PDF has the name [pdf_name_of f].  It fails, and changes nothing but
    the log: the text cannot be read or hashed, or its PDF is held, or
    the file that the PDF would replace is held. *)
Definition compare_failed (f : pystr) (s s' : world * compare_vars) : Prop :=
  same_folders s.1 s'.1 /\ s'.2 = s.2
  /\ (exists e, stdout s'.1 = stdout s.1 ++ [Error_comparing_file f e])
  /\ (fingerprint_at s.1 f = None
      \/ exists h y,
           fingerprint_at s.1 f = Some h
           /\ dir_lookup (main_pdf s.1) (pdf_name_of f) = Some y
           /\ (locked y = true
               \/ (h ∈ repo_hashes s.2
                   /\ exists z, dir_lookup (duplicates_invoices s.1) (pdf_name_of f) = Some z
                                /\ locked z = true)
               \/ ((h ∉ repo_hashes s.2)
                   /\ exists z, dir_lookup (unique_invoices s.1) (pdf_name_of f) = Some z
                                /\ locked z = true))).

(** The fingerprint is in the set: the PDF, if it is there, goes to the
    Duplicates folder, and the text is deleted and counted. *)
Definition compare_duplicate (f : pystr) (s s' : world * compare_vars) : Prop :=
  exists h,
    fingerprint_at s.1 f = Some h /\ h ∈ repo_hashes s.2
    /\ extracted_text s'.1 = dir_remove (extracted_text s.1) f
    /\ ((dir_lookup (main_pdf s.1) (pdf_name_of f) = None
         /\ main_pdf s'.1 = main_pdf s.1
         /\ duplicates_invoices s'.1 = duplicates_invoices s.1)
        \/ (exists y, dir_lookup (main_pdf s.1) (pdf_name_of f) = Some y
                      /\ locked y = false
                      /\ main_pdf s'.1 = dir_remove (main_pdf s.1) (pdf_name_of f)
                      /\ duplicates_invoices s'.1
                         = dir_write (duplicates_invoices s.1) (pdf_name_of f) y))
    /\ exception_dir s'.1 = exception_dir s.1
    /\ unique_invoices s'.1 = unique_invoices s.1
    /\ repository s'.1 = repository s.1
    /\ stdout s'.1 = stdout s.1 ++ [Moved_duplicate_and_deleted_text (pdf_name_of f)]
    /\ s'.2 = CompareVars (repo_hashes s.2) (count_unique s.2) (S (count_duplicates s.2)).

(** The fingerprint is not in the set: the text stays; the PDF, if it is
    there, goes to the Unique folder and is counted. *)
Definition compare_unique (f : pystr) (s s' : world * compare_vars) : Prop :=
  exists h,
    fingerprint_at s.1 f = Some h /\ (h ∉ repo_hashes s.2)
    /\ ((dir_lookup (main_pdf s.1) (pdf_name_of f) = None /\ s' = s)
        \/ (exists y, dir_lookup (main_pdf s.1) (pdf_name_of f) = Some y
                      /\ locked y = false
                      /\ main_pdf s'.1 = dir_remove (main_pdf s.1) (pdf_name_of f)
                      /\ unique_invoices s'.1
                         = dir_write (unique_invoices s.1) (pdf_name_of f) y
                      /\ extracted_text s'.1 = extracted_text s.1
                      /\ exception_dir s'.1 = exception_dir s.1
                      /\ duplicates_invoices s'.1 = duplicates_invoices s.1
                      /\ repository s'.1 = repository s.1
                      /\ stdout s'.1 = stdout s.1 ++ [Moved_unique_PDF (pdf_name_of f)]
                      /\ s'.2 = CompareVars (repo_hashes s.2) (S (count_unique s.2))
                                  (count_duplicates s.2))).

Lemma compare_file_step f (s : world * compare_vars) :
  exists s',
    compare_file f s = (Returns tt, s')
    /\ (compare_failed f s s' \/ compare_duplicate f s s' \/ compare_unique f s s').
Proof.
  cut (wp (compare_file f)
          (fun r s' => r = Returns tt
                       /\ (compare_failed f s s' \/ compare_duplicate f s s'
                           \/ compare_unique f s s'))
          s).
  { intros (r & s' & Hrun & -> & H)%wp_post. eauto. }
  destruct s as [w v].
  unfold compare_file, compare_failed, compare_duplicate, compare_unique,
    fingerprint_at, fingerprint_in, same_folders, pdf_name_of.
  wp_cases; (split; [ done | ]); simpl.
  all: first
    [ left; split; [ done | ]; split; [ done | ]; split; [ by eexists | ]; simpl;
      first [ by left
            | right; do 2 eexists; split; [ reflexivity | ]; split; [ reflexivity | ];
              first [ by left
                    | right; left; split; [ done | ]; by eauto
                    | right; right; split; [ done | ]; by eauto ] ]
    | right; left; eexists; split; [ reflexivity | ]; split; [ done | ];
      split; [ done | ];
      split; [ first [ left; by repeat split | right; eexists; by repeat split ]
             | by repeat split ]
    | right; right; eexists; split; [ reflexivity | ]; split; [ done | ];
      first [ left; by split | right; eexists; by repeat split ] ].
Qed.

(** No file of the folder is held. *)
Definition free_in (d : dir) : Prop :=
  forall g y, dir_lookup d g = Some y -> locked y = false.

Lemma free_in_write (d : dir) g x :
  free_in d -> locked x = false -> free_in (dir_write d g x).
Proof.
  intros Hd Hx g' y. destruct (decide (g = g')) as [<-|Hne].
  - rewrite dir_lookup_write_eq. by intros [= <-].
  - rewrite dir_lookup_write_ne by done. apply Hd.
Qed.

Lemma free_in_remove (d : dir) g : free_in d -> free_in (dir_remove d g).
Proof.
  intros Hd g' y. destruct (decide (g = g')) as [<-|Hne].
  - by rewrite dir_lookup_remove_eq.
  - rewrite dir_lookup_remove_ne by done. apply Hd.
Qed.

Lemma compare_loop_steps (P : list pystr -> world * compare_vars -> Prop) :
  (forall f rem s s',
     P (f :: rem) s ->
     compare_failed f s s' \/ compare_duplicate f s s' \/ compare_unique f s s' ->
     P rem s') ->
  forall fs s, P fs s ->
    exists s', for_each fs compare_file s = (Returns tt, s') /\ P [] s'.
Proof.
  intros Hstep. induction fs as [|f fs IH]; intros s Hs; [ by exists s | ].
  destruct (compare_file_step f s) as (s1 & Hrun & Hcase).
  rewrite for_each_cons_exec by (by rewrite Hrun). unfold exec. rewrite Hrun. simpl.
  apply IH. by apply (Hstep f fs s).
Qed.

(** While the comparator classifies the texts of the folder as [w0] has
    it, against the fingerprints [R] of the repository: a text whose
    fingerprint is in [R] is still to be met; a file of the folder is a
    file of the start; and a file of the start is still there, unless it
    is a text with a fingerprint of [R]. *)
Definition compare_going (w0 : world) (rem : list pystr) (s : world * compare_vars) : Prop :=
  let R := repository_fingerprints (repository w0) in
  Forall (fun g => is_txt g = true) rem
  /\ repo_hashes s.2 = R
  /\ repository s.1 = repository w0
  /\ free_in (main_pdf s.1) /\ free_in (duplicates_invoices s.1)
  /\ (forall g h, is_txt g = true -> fingerprint_at s.1 g = Some h -> h ∈ R -> g ∈ rem)
  /\ (forall g y, dir_lookup (extracted_text s.1) g = Some y ->
                  dir_lookup (extracted_text w0) g = Some y)
  /\ (forall g y, dir_lookup (extracted_text w0) g = Some y ->
                  dir_lookup (extracted_text s.1) g = Some y
                  \/ (is_txt g = true /\ exists h, fingerprint_of y = Some h /\ h ∈ R)).

Lemma compare_going_step w0 f rem s s' :
  compare_going w0 (f :: rem) s ->
  compare_failed f s s' \/ compare_duplicate f s s' \/ compare_unique f s s' ->
  compare_going w0 rem s'.
Proof.
  destruct s as [w v], s' as [w' v']. unfold compare_going, fingerprint_at. simpl.
  intros (Htxt & Hv & Hrepo & Hmain & Hdups & Ha & Hk & Hk') Hstep.
  apply Forall_cons in Htxt as [Hftxt Htxt]. split; [ done | ].
  unfold compare_failed, compare_duplicate, compare_unique, same_folders, fingerprint_at
    in Hstep.
  simpl in Hstep.
  destruct Hstep as [((E1 & E2 & E3 & E4 & E5 & E6) & -> & _ & Hwhy)
                    |[(h & Hfp & Hin & Hext & Hpdf & _ & _ & E6 & _ & ->)
                     |(h & Hfp & Hnin & Hpdf)]]; simpl in *; unfold fingerprint_at in *.
  - rewrite E1, E2, E5, E6. repeat (split; [ done | ]). split; [ | done ].
    intros g h Hg Hh HR. pose proof (Ha g h Hg Hh HR) as Hrem.
    apply elem_of_cons in Hrem as [->|?]; [ | done ].
    destruct Hwhy as [Hnone|(h' & y & Hfp & Hy & Hwhy)]; [ congruence | ].
    assert (h' = h) as -> by congruence.
    destruct Hwhy as [Hl|[(_ & z & Hz & Hl)|(Hnin & _)]].
    + by rewrite (Hmain _ _ Hy) in Hl.
    + by rewrite (Hdups _ _ Hz) in Hl.
    + by rewrite Hv in Hnin.
  - rewrite Hext, E6. split; [ done | ]. split; [ done | ].
    split; [ | split; [ | split; [ | split ] ] ].
    + destruct Hpdf as [(_ & -> & _)|(y & _ & _ & -> & _)];
        [ done | by apply free_in_remove ].
    + destruct Hpdf as [(_ & _ & ->)|(y & _ & Hl & _ & ->)];
        [ done | by apply free_in_write ].
    + intros g h' Hg. rewrite fingerprint_in_remove.
      destruct (decide (f = g)) as [|Hne]; [ done | ]. intros Hh HR.
      pose proof (Ha g h' Hg Hh HR) as Hrem.
      apply elem_of_cons in Hrem as [->|?]; [ done | done ].
    + intros g y. destruct (decide (f = g)) as [<-|Hne].
      * by rewrite dir_lookup_remove_eq.
      * rewrite dir_lookup_remove_ne by done. apply Hk.
    + intros g y Hg. destruct (decide (f = g)) as [<-|Hne].
      * right. split; [ done | ]. exists h. rewrite <- Hv. split; [ | done ].
        rewrite fingerprint_in_of in Hfp.
        destruct (Hk' f y Hg) as [Hy|(_ & h' & Hh' & HR)].
        -- by rewrite Hy in Hfp.
        -- destruct (dir_lookup (extracted_text w) f) as [y'|] eqn:Hy'; [ | done ].
           by rewrite (Hk f y' Hy') in Hg; injection Hg as ->.
      * rewrite dir_lookup_remove_ne by done. by apply Hk'.
  - destruct Hpdf as [(_ & [= -> ->])|(y & _ & _ & Em & _ & Ee & _ & Ed & Er & _ & ->)];
      simpl in *.
    + repeat (split; [ done | ]). split; [ | done ].
      intros g h' Hg Hh HR. pose proof (Ha g h' Hg Hh HR) as Hrem.
      apply elem_of_cons in Hrem as [->|?]; [ | done ].
      assert (h' = h) as -> by congruence. by rewrite Hv in Hnin.
    + rewrite Em, Ee, Ed, Er. split; [ done | ]. split; [ done | ].
      split; [ by apply free_in_remove | ]. split; [ done | ]. split; [ | done ].
      intros g h' Hg Hh HR. pose proof (Ha g h' Hg Hh HR) as Hrem.
      apply elem_of_cons in Hrem as [->|?]; [ | done ].
      assert (h' = h) as -> by congruence. by rewrite Hv in Hnin.
Qed.

Lemma copy_exception_pdf_keeps_texts (E : dir) (Rp : dir) f (s : world * compare_vars) :
  extracted_text s.1 = E /\ repository s.1 = Rp ->
  wp (copy_exception_pdf f)
     (fun r s' => r = Returns tt /\ extracted_text s'.1 = E /\ repository s'.1 = Rp) s.
Proof. destruct s as [w v]. intros [? ?]. unfold copy_exception_pdf. wp_cases; done. Qed.

Lemma cross_compare_with_repository_going {L} w (l : L) :
  free_in (main_pdf w) -> free_in (duplicates_invoices w) ->
  exists w' v',
    cross_compare_with_repository (w, l) = (Returns tt, (w', l))
    /\ extracted_text w' = extracted_text v'.1
    /\ repository w' = repository w
    /\ compare_going w [] v'.
Proof.
  intros Hmain Hdups.
  cut (wp cross_compare_with_repository
          (fun r s' => r = Returns tt /\ s'.2 = l
                       /\ exists v', extracted_text s'.1 = extracted_text v'.1
                                     /\ repository s'.1 = repository w
                                     /\ compare_going w [] v') (w, l)).
  { intros (r & [w' l'] & Hrun & -> & Hl & v' & H)%wp_post. simpl in *. subst l'.
    by exists w', v'. }
  unfold cross_compare_with_repository, cross_compare_body. wp_go.
  eapply wp_mono; [ | apply build_repo_hashes_run ].
  intros r [w1 v1] (-> & (E1 & E2 & E3 & E4 & E5 & E6) & Hset & _). simpl in *.
  rewrite left_id_L in Hset; [ | apply _ ].
  unfold compare_extracted, copy_exception_pdfs. wp_go.
  set (files := filter (fun f => is_txt f = true) (names (extracted_text w1))).
  assert (H1 : compare_going w files (w1, v1)).
  { unfold compare_going, fingerprint_at. simpl. rewrite E1, E2, E5, E6.
    split; [ apply Forall_forall; by intros g [? _]%list_elem_of_filter | ].
    repeat (split; [ done | ]). split; [ | split; [ done | by left ] ].
    intros g h Hg Hh _. apply list_elem_of_filter. split; [ done | ].
    apply dir_lookup_is_Some. rewrite E2. rewrite fingerprint_in_of in Hh.
    destruct (dir_lookup (extracted_text w) g); [ eauto | done ]. }
  destruct (compare_loop_steps (compare_going w) (compare_going_step w) files _ H1)
    as ([w2 v2] & Hloop & H2).
  eapply wp_eq; [ exact Hloop | ]. wp_go.
  eapply wp_mono;
    [ | apply (wp_for_each_inv
                 (fun s => extracted_text s.1 = extracted_text w2
                           /\ repository s.1 = repository w2)) ];
    [ | intros; by apply copy_exception_pdf_keeps_texts | done ].
  intros r [w3 v3] (-> & E & Er). wp_go. split; [ done | ]. split; [ done | ].
  exists (w2, v2). simpl in *. split; [ done | ]. split; [ | done ].
  destruct H2 as (_ & _ & Hr & _). simpl in Hr. congruence.
Qed.


(** ** The updater only adds to the repository *)

Lemma dir_lookup_app (d1 d2 : dir) g :
  dir_lookup (d1 ++ d2) g
  = match dir_lookup d1 g with Some x => Some x | None => dir_lookup d2 g end.
Proof.
  induction d1 as [|[k x] d1 IH]; simpl; [ done | ].
  by destruct (decide (k = g)).
Qed.

Lemma file_text_loop_steps now (P : list pystr -> world * nat -> Prop) :
  timestamp_ok now ->
  (forall f rem s s',
     P (f :: rem) s ->
     (exists k, filed_step now f k s s') \/ skipped_step f s s' ->
     P rem s') ->
  forall fs s, P fs s ->
    exists s', for_each fs (file_text now) s = (Returns tt, s') /\ P [] s'.
Proof.
  intros Hok Hstep. induction fs as [|f fs IH]; intros s Hs; [ by exists s | ].
  destruct (file_text_step now f s Hok) as (s1 & Hrun & Hcase).
  rewrite for_each_cons_exec by (by rewrite Hrun). unfold exec. rewrite Hrun. simpl.
  apply IH. by apply (Hstep f fs s).
Qed.

(** While the updater runs from [w0]: the repository is that of [w0]
    followed by the files [added], under names that [w0] did not have;
    they are the text artifacts [fs] of the batch, each one filed once and
    gone from the batch; a file of the batch is a file of the start, and
    a file of the start is in the batch unless it has been filed; a text
    that is not held is still to be met, or has been filed; and the
    counter has the number of files added. *)
Definition update_going (w0 : world) (added : list (pystr * file)) (fs : list pystr)
    (rem : list pystr) (s : world * nat) : Prop :=
  repository s.1 = repository w0 ++ added
  /\ Forall (fun e => dir_lookup (repository w0) e.1 = None) added
  /\ NoDup added.*1
  /\ NoDup fs
  /\ Forall2 (fun e f => is_txt f = true /\ dir_lookup (extracted_text w0) f = Some e.2)
       added fs
  /\ (forall f, f ∈ fs -> dir_lookup (extracted_text s.1) f = None)
  /\ (forall g y, dir_lookup (extracted_text s.1) g = Some y ->
                  dir_lookup (extracted_text w0) g = Some y)
  /\ (forall g y, dir_lookup (extracted_text w0) g = Some y ->
                  dir_lookup (extracted_text s.1) g = Some y \/ g ∈ fs)
  /\ (forall f x, is_txt f = true -> dir_lookup (extracted_text w0) f = Some x ->
                  locked x = false -> f ∈ rem \/ f ∈ fs)
  /\ s.2 = length added.

Lemma update_going_step now w0 f rem s s' :
  (exists added fs, update_going w0 added fs (f :: rem) s) ->
  (exists k, filed_step now f k s s') \/ skipped_step f s s' ->
  exists added fs, update_going w0 added fs rem s'.
Proof.
  destruct s as [w c], s' as [w' c']. unfold update_going, filed_step, skipped_step.
  simpl.
  intros (added & fs & Hrepo & Hfresh & Hnames & Hfs & Hall & Hgone & Hk & Hk' & Hrem & Hc).
  intros [(k & x & Htxt & Hx & Hl & Hnone & _ & Hrepo' & Hext' & _ & _ & _ & _ & _ & ->)
         |(Hwhy & (_ & Hext' & _ & _ & _ & Hrepo') & _ & _ & ->)].
  - exists (added ++ [(suffixed_name now k, x)]), (fs ++ [f]).
    rewrite Hrepo in Hnone. rewrite dir_lookup_app in Hnone.
    destruct (dir_lookup (repository w0) (suffixed_name now k)) eqn:H0; [ done | ].
    split; [ | split; [ | split; [ | split; [ | split; [ | split; [ | split;
      [ | split; [ | split ] ] ] ] ] ] ] ].
    + rewrite Hrepo', Hrepo. rewrite dir_write_fresh.
      * by rewrite <- app_assoc.
      * by rewrite dir_lookup_app, H0.
    + apply Forall_app. split; [ done | ]. by constructor.
    + rewrite fmap_app. apply NoDup_app. split; [ done | ]. split; [ | apply NoDup_singleton ].
      intros n Hn ->%list_elem_of_singleton.
      apply dir_lookup_None in Hnone. by apply Hnone.
    + apply NoDup_app. split; [ done | ]. split; [ | apply NoDup_singleton ].
      intros g Hg ->%list_elem_of_singleton. by rewrite (Hgone _ Hg) in Hx.
    + apply Forall2_app; [ done | ]. constructor; [ | constructor ].
      split; [ done | ]. by apply Hk.
    + intros g Hg. rewrite Hext'. destruct (decide (f = g)) as [<-|Hne].
      * apply dir_lookup_remove_eq.
      * rewrite dir_lookup_remove_ne by done.
        apply elem_of_app in Hg as [Hg|Hg%list_elem_of_singleton]; [ by apply Hgone | done ].
    + intros g y. rewrite Hext'. destruct (decide (f = g)) as [<-|Hne].
      * by rewrite dir_lookup_remove_eq.
      * rewrite dir_lookup_remove_ne by done. apply Hk.
    + intros g y Hg. rewrite Hext'. destruct (decide (f = g)) as [<-|Hne].
      * right. apply elem_of_app. right. by left.
      * rewrite dir_lookup_remove_ne by done.
        destruct (Hk' g y Hg) as [?|?]; [ by left | ]. right. apply elem_of_app. by left.
    + intros g y Hg Hy Hfree. destruct (decide (f = g)) as [<-|Hne].
      * right. apply elem_of_app. right. by left.
      * destruct (Hrem g y Hg Hy Hfree) as [Hin|?].
        -- apply elem_of_cons in Hin as [?|?]; [ congruence | by left ].
        -- right. apply elem_of_app. by left.
    + rewrite length_app. simpl. lia.
  - exists added, fs. rewrite Hrepo', Hext'. repeat (split; [ done | ]).
    split; [ | done ]. intros g y Hg Hy Hfree.
    destruct (Hrem g y Hg Hy Hfree) as [Hin|?]; [ | by right ].
    apply elem_of_cons in Hin as [->|?]; [ | by left ].
    right. destruct (Hk' f y Hy) as [Hy'|?]; [ | done ].
    destruct Hwhy as [?|[?|(x & Hx & Hl)]]; [ congruence | congruence | ].
    rewrite Hy' in Hx. injection Hx as ->. congruence.
Qed.

Lemma update_repository_going {L} now w (l : L) :
  timestamp_ok now ->
  exists w1 added fs,
    update_repository now (w, l)
    = (Returns tt, (print (Moved_and_renamed_count (length added)) w1, l))
    /\ update_going w added fs [] (w1, length added).
Proof.
  intros Hok.
  assert (H0 : exists added fs,
             update_going w added fs (names (extracted_text w))
               (print Updating_repository w, 0%nat)).
  { exists [], []. unfold update_going. simpl. rewrite app_nil_r.
    split; [ done | ]. split; [ constructor | ]. split; [ constructor | ].
    split; [ constructor | ]. split; [ constructor | ].
    split; [ intros g Hg; by apply elem_of_nil in Hg | ]. split; [ done | ].
    split; [ by left | ]. split; [ | done ].
    intros g x _ Hx _. left. apply dir_lookup_is_Some. by rewrite Hx. }
  destruct (file_text_loop_steps now
              (fun rem s => exists added fs, update_going w added fs rem s) Hok
              (update_going_step now w) _ _ H0)
    as ([w1 c1] & Hloop & added & fs & H1).
  assert (Hc : c1 = length added)
    by (by destruct H1 as (_ & _ & _ & _ & _ & _ & _ & _ & _ & ?)).
  subst c1. exists w1, added, fs. split; [ | done ].
  apply wp_run. unfold update_repository. wp_go.
  eapply wp_eq; [ exact Hloop | ]. wp_go. done.
Qed.


(** ** The repository stays free of duplicates *)

Lemma elem_of_names_write (d : dir) f x g :
  g ∈ names (dir_write d f x) <-> g = f \/ g ∈ names d.
Proof.
  rewrite <- !dir_lookup_is_Some. destruct (decide (f = g)) as [<-|Hne].
  - rewrite dir_lookup_write_eq. split; [ by left | eauto ].
  - rewrite dir_lookup_write_ne by done. split; [ by right | ].
    intros [?|?]; [ congruence | done ].
Qed.

Lemma NoDup_names_write (d : dir) f x : NoDup (names d) -> NoDup (names (dir_write d f x)).
Proof.
  induction d as [|[g y] d IH]; simpl.
  - intros _. apply NoDup_singleton.
  - intros [Hg Hd]%NoDup_cons. destruct (decide (g = f)) as [->|Hne]; simpl.
    + by apply NoDup_cons.
    + apply NoDup_cons. split; [ | by apply IH ].
      intros [?|?]%elem_of_names_write; [ congruence | done ].
Qed.

Lemma NoDup_names_remove (d : dir) f : NoDup (names d) -> NoDup (names (dir_remove d f)).
Proof.
  unfold names, dir_remove. induction d as [|[g y] d IH]; [ done | ].
  rewrite filter_cons. simpl. intros [Hg Hd]%NoDup_cons.
  destruct (decide (g <> f)); [ | by apply IH ].
  simpl. apply NoDup_cons. split; [ | by apply IH ].
  intros Hin. apply Hg. apply list_elem_of_fmap in Hin as ([g' y'] & -> & Hin).
  apply list_elem_of_filter in Hin as [_ Hin]. apply list_elem_of_fmap. by exists (g', y').
Qed.

(** What the stages before the comparator keep: the names of the text
    folder are distinct, and no file of the staging folder or of the
    Duplicates folder is held. *)
Definition ready (w : world) : Prop :=
  NoDup (names (extracted_text w))
  /\ free_in (main_pdf w) /\ free_in (duplicates_invoices w).

Ltac ready_leaf :=
  unfold ready in *; cbn beta iota zeta delta [fst snd] in *;
  repeat match goal with
         | H : _ /\ _ |- _ => destruct H
         end;
  simpl;
  repeat split;
  eauto using free_in_write, free_in_remove, NoDup_names_write, NoDup_names_remove.


Lemma extract_texts_ready {L} w (l : L) :
  ready w ->
  exists w', extract_texts (w, l) = (Returns tt, (w', l)) /\ ready w'.
Proof.
  intros H. apply wp_returns. unfold extract_texts. wp_frame.
  eapply wp_mono; [ | apply (wp_for_each_inv (fun s => ready s.1)) ].
  - intros r [w1 c] [-> H1]. wp_frame. repeat split; ready_leaf.
  - intros f [w1 c] _ H1. wp_frame; (split; [ done | ]); ready_leaf.
  - ready_leaf.
Qed.

Lemma deduplicate_text_files_ready {L} w (l : L) :
  ready w ->
  exists w', deduplicate_text_files (w, l) = (Returns tt, (w', l)) /\ ready w'.
Proof.
  intros H. apply wp_returns. unfold deduplicate_text_files, deduplicate_loop. wp_frame.
  eapply wp_mono; [ | apply (wp_for_each_inv (fun s => ready s.1)) ].
  - intros r [w1 c] [-> H1]. wp_frame. repeat split; ready_leaf.
  - intros f [w1 c] _ H1. unfold dedup_file. wp_frame; (split; [ done | ]); ready_leaf.
  - ready_leaf.
Qed.


Lemma dir_lookup_elem_of (d : dir) g y : dir_lookup d g = Some y -> (g, y) ∈ d.
Proof.
  induction d as [|[k x] d IH]; simpl; [ done | ].
  destruct (decide (k = g)) as [->|Hne].
  - intros [= ->]. by left.
  - intros H. right. by apply IH.
Qed.





(** ** A duplicate whose PDF is held *)

(** X14.  When the PDF of a duplicate is held, the move to the Duplicates
    folder raises.  The deduplicator has deleted the text and counted it
    by then, and only logs the error; the comparator moves the PDF first,
    so that it leaves the text where it is and counts nothing. *)
Theorem held_pdf_of_a_duplicate f w h y :
  fingerprint_at w f = Some h ->
  dir_lookup (main_pdf w) (pdf_name_of f) = Some y ->
  locked y = true ->
  (forall v first_seen,
      seen_hashes v !! h = Some first_seen ->
      dedup_file f (w, v)
      = (Returns tt,
         (print (Error_during_deduplication f PermissionError)
            (print (Removed_duplicate_text f first_seen)
               (set_dir EXTRACTED_TEXT_FOLDER (dir_remove (extracted_text w) f) w)),
          DedupVars (seen_hashes v) (S (removed_count v)))))
  /\ (forall v,
        h ∈ repo_hashes v ->
        compare_file f (w, v)
        = (Returns tt, (print (Error_comparing_file f PermissionError) w, v))).
Proof.
  unfold fingerprint_at, fingerprint_in, pdf_name_of. intros Hf Hy Hl.
  destruct (dir_lookup (extracted_text w) f) as [x|] eqn:Hx; [ | done ].
  destruct (locked x) eqn:Hlx; [ done | ].
  destruct (data x) as [t|] eqn:Hd; [ | done ].
  split.
  - intros v first_seen Hs. apply wp_run. unfold dedup_file. wp_go. done.
  - intros v Hin. apply wp_run. unfold compare_file. wp_go.
    rewrite decide_True by done. wp_go. done.
Qed.

Section Held_duplicate.
Variables (w0 : world) (f : pystr) (x y : file).
Hypothesis Hx : dir_lookup (extracted_text w0) f = Some x.
Hypothesis Hy : dir_lookup (main_pdf w0) (pdf_name_of f) = Some y.
Hypothesis Hheld : locked y = true.

(** Kept by the comparator: the text and its held PDF stay. *)
Definition held_kept (s : world * compare_vars) : Prop :=
  dir_lookup (extracted_text s.1) f = Some x
  /\ dir_lookup (main_pdf s.1) (pdf_name_of f) = Some y.

Lemma compare_file_keeps_held g s :
  held_kept s -> wp (compare_file g) (fun r s' => r = Returns tt /\ held_kept s') s.
Proof.
  destruct s as [w v]. unfold held_kept, compare_file, pdf_name_of in *. simpl.
  intros [He Hm].
  destruct (decide (g = f)) as [->|Hne].
  - wp_cases; done.
  - destruct (decide (Py.splitext_root g ++ Py.str ".pdf"
                      = Py.splitext_root f ++ Py.str ".pdf")) as [E|NE].
    + rewrite E. wp_cases; (split; [ done | ]); dir_simpl; done.
    + wp_cases; (split; [ done | ]); dir_simpl; done.
Qed.

Lemma cross_compare_keeps_held {L} (l : L) :
  exists w1,
    cross_compare_with_repository (w0, l) = (Returns tt, (w1, l))
    /\ dir_lookup (extracted_text w1) f = Some x.
Proof.
  apply (wp_returns cross_compare_with_repository tt
           (fun w1 => dir_lookup (extracted_text w1) f = Some x)).
  unfold cross_compare_with_repository, cross_compare_body. wp_go.
  eapply wp_mono; [ | apply build_repo_hashes_run ].
  intros r [w1 v1] (-> & (E1 & E2 & E3 & E4 & E5 & E6) & _). simpl in *.
  assert (H1 : held_kept (w1, v1)) by (unfold held_kept; simpl; by rewrite E1, E2).
  unfold compare_extracted, copy_exception_pdfs. wp_go.
  eapply wp_mono; [ | apply (wp_for_each_inv held_kept) ];
    [ | intros; by apply compare_file_keeps_held | done ].
  intros r [w2 v2] [-> [H2 _]]. wp_go.
  eapply wp_mono;
    [ | apply (wp_for_each_inv
                 (fun s => extracted_text s.1 = extracted_text w2
                           /\ repository s.1 = repository w2)) ];
    [ | intros; by apply copy_exception_pdf_keeps_texts | done ].
  intros r [w3 v3] (-> & E & _). wp_go. simpl in *. by rewrite E.
Qed.
End Held_duplicate.

Lemma dir_lookup_NoDup (d : dir) g y :
  NoDup (names d) -> (g, y) ∈ d -> dir_lookup d g = Some y.
Proof.
  induction d as [|[k z] d IH]; simpl; [ by intros _ ?%elem_of_nil | ].
  intros [Hk Hd]%NoDup_cons [[= -> ->]|Hin]%elem_of_cons.
  - by rewrite decide_True.
  - rewrite decide_False; [ by apply IH | ].
    intros ->. apply Hk. apply list_elem_of_fmap. by exists (g, y).
Qed.

(** X15.  A held PDF lets a duplicate into the repository.  A text of the
    batch whose fingerprint is that of a text of the repository, and
    whose PDF is held: the comparator leaves it in the batch, and the
    updater adds it to the repository under a new name, so that
    afterwards two texts of the repository have this fingerprint. *)
Theorem held_pdf_lets_a_duplicate_through {L} now w (l : L) f x y h g :
  timestamp_ok now ->
  is_txt f = true ->
  dir_lookup (extracted_text w) f = Some x ->
  fingerprint_of x = Some h ->
  dir_lookup (main_pdf w) (pdf_name_of f) = Some y ->
  locked y = true ->
  fingerprint_in (repository w) g = Some h ->
  exists w1 w2 added new_name,
    cross_compare_with_repository (w, l) = (Returns tt, (w1, l))
    /\ update_repository now (w1, l) = (Returns tt, (w2, l))
    /\ repository w2 = repository w ++ added
    /\ (new_name, x) ∈ added
    /\ new_name <> g
    /\ fingerprint_in (repository w2) new_name = Some h
    /\ fingerprint_in (repository w2) g = Some h.
Proof.
  intros Hok Htxt Hx Hfp Hy Hheld Hgh.
  assert (Hfree : locked x = false).
  { unfold fingerprint_of in Hfp. by destruct (locked x). }
  destruct (cross_compare_keeps_held w f x y Hx Hy Hheld l) as (w1 & R1 & Hx1).
  destruct (cross_compare_with_repository_frame w l) as (w1' & R1' & F1).
  rewrite R1 in R1'. injection R1' as <-.
  assert (Hrepo1 : repository w1 = repository w).
  { apply (F1 repository_folder). intros k [?|[?|[?|[? _]]]]; discriminate. }
  destruct (update_repository_going now w1 l Hok) as (w2 & added & fs & R2 & H2).
  destruct H2 as (Hrepo2 & Hfresh & Hnames & _ & Hall & _ & _ & _ & Hrem & _).
  simpl in *. rewrite Hrepo1 in Hrepo2, Hfresh.
  destruct (Hrem f x Htxt Hx1 Hfree) as [Hin|Hin]; [ by apply elem_of_nil in Hin | ].
  apply list_elem_of_lookup in Hin as [i Hi].
  destruct (Forall2_lookup_r _ _ _ _ _ Hall Hi) as ([n z] & Hn & _ & Hz).
  simpl in Hz. rewrite Hx1 in Hz. injection Hz as <-.
  assert (Hin : (n, x) ∈ added) by (by apply list_elem_of_lookup_2 in Hn).
  assert (Hnone : dir_lookup (repository w) n = None).
  { rewrite Forall_forall in Hfresh. by apply (Hfresh (n, x)). }
  assert (Hgy : exists z, dir_lookup (repository w) g = Some z /\ fingerprint_of z = Some h).
  { rewrite fingerprint_in_of in Hgh.
    destruct (dir_lookup (repository w) g) as [z|]; [ by exists z | done ]. }
  destruct Hgy as (z & Hz & Hzh).
  exists w1, (print (Moved_and_renamed_count (length added)) w2), added, n. simpl.
  repeat (split; [ done | ]). split; [ congruence | ]. split.
  - rewrite fingerprint_in_of, Hrepo2, dir_lookup_app, Hnone.
    by rewrite (dir_lookup_NoDup added n x).
  - rewrite fingerprint_in_of, Hrepo2, dir_lookup_app. by rewrite Hz.
Qed.

(** ** Where the intake puts the files *)

(** The PDFs among the files of a walk, and the other files. *)
Definition pdfs_of (all : list (pystr * file)) : list (pystr * file) :=
  filter (fun e => is_pdf e.1 = true) all.

Definition others_of (all : list (pystr * file)) : list (pystr * file) :=
  filter (fun e => is_pdf e.1 = false) all.

(** What a folder [d] has under the name [g] once the files [all] have
    been copied into it in turn: the last of them with that name, or what
    it had. *)
Definition placed (d : dir) (all : list (pystr * file)) (g : pystr) : option file :=
  match dir_lookup (rev all) g with
  | Some x => Some x
  | None => dir_lookup d g
  end.

Lemma placed_cons (d : dir) g0 x0 all g :
  placed d ((g0, x0) :: all) g = placed (dir_write d g0 x0) all g.
Proof.
  unfold placed. simpl. rewrite dir_lookup_app. simpl.
  destruct (dir_lookup (rev all) g); [ done | ].
  destruct (decide (g0 = g)) as [->|Hne].
  - by rewrite dir_lookup_write_eq.
  - by rewrite dir_lookup_write_ne.
Qed.

Lemma pdfs_of_cons g x all :
  pdfs_of ((g, x) :: all) = if is_pdf g then (g, x) :: pdfs_of all else pdfs_of all.
Proof. unfold pdfs_of. rewrite filter_cons. simpl. destruct (is_pdf g); by case_decide. Qed.

Lemma others_of_cons g x all :
  others_of ((g, x) :: all) = if is_pdf g then others_of all else (g, x) :: others_of all.
Proof. unfold others_of. rewrite filter_cons. simpl. destruct (is_pdf g); by case_decide. Qed.

Lemma process_file_run x g w (c : nat * nat) :
  locked x = false ->
  staging_free w ->
  process_file x g (w, c)
  = (Returns tt,
     if is_pdf g
     then (set_dir MAIN_PDF_FOLDER (dir_write (main_pdf w) g x) w, (S c.1, c.2))
     else (print (Non_PDF_moved_to_Exception g)
             (set_dir EXCEPTION_FOLDER (dir_write (exception_dir w) g x) w),
           (c.1, S c.2))).
Proof.
  intros Hx [Hm He]. apply wp_run. unfold process_file.
  destruct (is_pdf g); simpl; wp_go.
  - destruct (dir_lookup (main_pdf w) g) as [y|] eqn:Hy; [ rewrite (Hm g y Hy) | ];
      wp_go; done.
  - destruct (dir_lookup (exception_dir w) g) as [y|] eqn:Hy; [ rewrite (He g y Hy) | ];
      wp_go; done.
Qed.

Lemma intake_loop_places (all : list (pystr * file)) :
  Forall (fun e => locked e.2 = false) all ->
  forall w (c : nat * nat),
    staging_free w ->
    exists w',
      for_each all (fun e => process_file e.2 e.1) (w, c)
      = (Returns tt, (w', ((c.1 + length (pdfs_of all))%nat,
                           (c.2 + length (others_of all))%nat)))
      /\ staging_free w'
      /\ (forall g, dir_lookup (main_pdf w') g = placed (main_pdf w) (pdfs_of all) g)
      /\ (forall g, dir_lookup (exception_dir w') g
                    = placed (exception_dir w) (others_of all) g)
      /\ extracted_text w' = extracted_text w
      /\ unique_invoices w' = unique_invoices w
      /\ duplicates_invoices w' = duplicates_invoices w
      /\ repository w' = repository w
      /\ stdout w' = stdout w
                     ++ map (fun e => Non_PDF_moved_to_Exception e.1) (others_of all).
Proof.
  induction 1 as [|[g x] all Hx Hall IH]; intros w c Hfree.
  - exists w. simpl. rewrite !Nat.add_0_r, app_nil_r. by destruct c.
  - simpl in Hx.
    rewrite for_each_cons_exec by (by rewrite process_file_run).
    unfold exec. rewrite process_file_run by done.
    rewrite pdfs_of_cons, others_of_cons. simpl. destruct (is_pdf g) eqn:Hg; simpl.
    + destruct (IH (set_dir MAIN_PDF_FOLDER (dir_write (main_pdf w) g x) w) (S c.1, c.2))
        as (w' & Hrun & Hfree' & Hm & He & E1 & E2 & E3 & E4 & Hout).
      { destruct Hfree as [Hm He]. split; [ | done ]. by apply free_in_write. }
      exists w'. simpl in *. rewrite Hrun.
      split; [ do 3 f_equal; lia | ]. split; [ done | ].
      split; [ intros k; by rewrite placed_cons, Hm | ].
      by repeat split.
    + destruct (IH (print (Non_PDF_moved_to_Exception g)
                      (set_dir EXCEPTION_FOLDER (dir_write (exception_dir w) g x) w))
                   (c.1, S c.2))
        as (w' & Hrun & Hfree' & Hm & He & E1 & E2 & E3 & E4 & Hout).
      { destruct Hfree as [Hm He]. split; [ done | ]. by apply free_in_write. }
      exists w'. simpl in *. rewrite Hrun.
      split; [ do 3 f_equal; lia | ]. split; [ done | ]. split; [ done | ].
      split; [ intros k; by rewrite placed_cons, He | ].
      repeat (split; [ done | ]). by rewrite Hout, <- app_assoc.
Qed.

Opaque os_walk.

(** X2.  The intake on a source folder none of whose files is held, into
    staging folders without a held file: every file that the walk meets
    is copied, a PDF to the staging folder and any other file to the
    Exception folder, under its own name; so of two files of the same
    name, met in different sub-folders, the one met last stays, and both
    are counted.  The log has a line for each file that is not a PDF, and
    the two counts. *)
Theorem intake_places_every_file {L} (entries : tree) w (l : L) :
  Forall (fun e => locked e.2 = false) (walked_files entries) ->
  staging_free w ->
  exists w',
    copy_pdfs_to_main_folder (Some entries) (w, l) = (Returns tt, (w', l))
    /\ (forall g, dir_lookup (main_pdf w') g
                  = placed (main_pdf w) (pdfs_of (walked_files entries)) g)
    /\ (forall g, dir_lookup (exception_dir w') g
                  = placed (exception_dir w) (others_of (walked_files entries)) g)
    /\ extracted_text w' = extracted_text w
    /\ unique_invoices w' = unique_invoices w
    /\ duplicates_invoices w' = duplicates_invoices w
    /\ repository w' = repository w
    /\ stdout w'
       = stdout w ++ [Copying_files]
         ++ map (fun e => Non_PDF_moved_to_Exception e.1) (others_of (walked_files entries))
         ++ [PDFs_copied (length (pdfs_of (walked_files entries)));
             Non_PDFs_moved (length (others_of (walked_files entries)))].
Proof.
  intros Hall Hfree.
  destruct (intake_loop_places (walked_files entries) Hall (print Copying_files w)
              (0%nat, 0%nat))
    as (w1 & Hloop & _ & Hm & He & E1 & E2 & E3 & E4 & Hout);
    [ by destruct Hfree | ].
  simpl in *.
  exists (print (Non_PDFs_moved (length (others_of (walked_files entries))))
            (print (PDFs_copied (length (pdfs_of (walked_files entries)))) w1)).
  split; [ | simpl; repeat (split; [ done | ]); rewrite Hout, <- !app_assoc; done ].
  apply wp_run. unfold copy_pdfs_to_main_folder. wp_go. unfold walked_files in *.
  destruct (existsb _ entries).
  - apply wp_for_each_concat. eapply wp_eq; [ exact Hloop | ]. wp_go. done.
  - apply (wp_for_each_files_of process_file). eapply wp_eq; [ exact Hloop | ].
    wp_go. done.
Qed.

Transparent os_walk.


(** ** The cleanup empties the staging folder of PDFs *)

(** While the cleanup runs from [w0]: a PDF name is still to be met, with
    the two folders as [w0] has them under this name, or the staging
    folder has no such file and the Exception folder has the one that was
    staged, if there was one; under any other name the two folders are as
    they were. *)
Definition cleanup_going (w0 : world) (rem : list pystr) (w : world) : Prop :=
  staging_free w
  /\ Forall (fun g => is_pdf g = true) rem
  /\ extracted_text w = extracted_text w0 /\ unique_invoices w = unique_invoices w0
  /\ duplicates_invoices w = duplicates_invoices w0 /\ repository w = repository w0
  /\ forall g,
       if is_pdf g
       then (g ∈ rem /\ dir_lookup (main_pdf w) g = dir_lookup (main_pdf w0) g
             /\ dir_lookup (exception_dir w) g = dir_lookup (exception_dir w0) g)
            \/ (dir_lookup (main_pdf w) g = None
                /\ dir_lookup (exception_dir w) g
                   = match dir_lookup (main_pdf w0) g with
                     | Some y => Some y
                     | None => dir_lookup (exception_dir w0) g
                     end)
       else dir_lookup (main_pdf w) g = dir_lookup (main_pdf w0) g
            /\ dir_lookup (exception_dir w) g = dir_lookup (exception_dir w0) g.

Lemma cleanup_going_step {L} w0 f rem (s : world * L) :
  cleanup_going w0 (f :: rem) s.1 ->
  wp (try_except
        (shutil_move MAIN_PDF_FOLDER f EXCEPTION_FOLDER f;;
         log (Moved_leftover_PDF f))
        (fun e => log (Failed_to_move_leftover_PDF f e)))
     (fun r s' => r = Returns tt /\ s'.2 = s.2 /\ cleanup_going w0 rem s'.1) s.
Proof.
  destruct s as [w l]. unfold cleanup_going. simpl.
  intros ([Hm He] & Hpdf & E1 & E2 & E3 & E4 & Hall).
  apply Forall_cons in Hpdf as [Hf Hpdf].
  assert (Hother : forall g, g <> f ->
            if is_pdf g
            then (g ∈ rem /\ dir_lookup (main_pdf w) g = dir_lookup (main_pdf w0) g
                  /\ dir_lookup (exception_dir w) g = dir_lookup (exception_dir w0) g)
                 \/ (dir_lookup (main_pdf w) g = None
                     /\ dir_lookup (exception_dir w) g
                        = match dir_lookup (main_pdf w0) g with
                          | Some y => Some y
                          | None => dir_lookup (exception_dir w0) g
                          end)
            else dir_lookup (main_pdf w) g = dir_lookup (main_pdf w0) g
                 /\ dir_lookup (exception_dir w) g = dir_lookup (exception_dir w0) g).
  { intros g Hg. specialize (Hall g). destruct (is_pdf g); [ | done ].
    destruct Hall as [(Hin & ? & ?)|?]; [ left | by right ].
    apply elem_of_cons in Hin as [?|?]; [ congruence | done ]. }
  pose proof (Hall f) as Hhere. rewrite Hf in Hhere.
  destruct (dir_lookup (main_pdf w) f) as [x|] eqn:Hx.
  - pose proof (Hm f x Hx) as Hlx.
    assert (Hput : forall z, dir_lookup (exception_dir w) f = Some z -> locked z = false)
      by (intros z; apply He).
    assert (Hgoal : cleanup_going w0 rem
              (print (Moved_leftover_PDF f)
                 (set_dir MAIN_PDF_FOLDER (dir_remove (main_pdf w) f)
                    (set_dir EXCEPTION_FOLDER (dir_write (exception_dir w) f x) w)))).
    { unfold cleanup_going. simpl.
      split; [ split; [ by apply free_in_remove | apply free_in_write; eauto ] | ].
      repeat (split; [ done | ]). intros g. destruct (decide (g = f)) as [->|Hne].
      - rewrite Hf. right. rewrite dir_lookup_remove_eq, dir_lookup_write_eq.
        split; [ done | ].
        destruct Hhere as [(_ & <- & _)|[? _]]; [ done | congruence ].
      - rewrite dir_lookup_remove_ne, dir_lookup_write_ne by done. by apply Hother. }
    wp_go. destruct (dir_lookup (exception_dir w) f) as [z|] eqn:Hz;
      [ pose proof (Hput z eq_refl) as Hlz | ]; wp_go; done.
  - wp_go. split; [ done | ]. split; [ done | ]. split; [ done | ].
    repeat (split; [ done | ]). intros g. destruct (decide (g = f)) as [->|Hne].
    + rewrite Hf. right. split; [ done | ].
      destruct Hhere as [(_ & E & ->)|[_ ->]]; [ by rewrite <- E | done ].
    + by apply Hother.
Qed.

(** X9.  When no file of the staging folder or of the Exception folder is
    held, the cleanup leaves no PDF in the staging folder: each one is
    moved to the Exception folder, under its name, in place of the file
    of that name if there is one.  Files that are not PDFs stay, and the
    other folders are not touched. *)
Theorem cleanup_empties_the_staging_folder {L} w (l : L) :
  staging_free w ->
  exists w',
    cleanup_main_pdf_folder (w, l) = (Returns tt, (w', l))
    /\ (forall g, dir_lookup (main_pdf w') g
                  = if is_pdf g then None else dir_lookup (main_pdf w) g)
    /\ (forall g, dir_lookup (exception_dir w') g
                  = if is_pdf g
                    then match dir_lookup (main_pdf w) g with
                         | Some y => Some y
                         | None => dir_lookup (exception_dir w) g
                         end
                    else dir_lookup (exception_dir w) g)
    /\ extracted_text w' = extracted_text w /\ unique_invoices w' = unique_invoices w
    /\ duplicates_invoices w' = duplicates_invoices w /\ repository w' = repository w.
Proof.
  intros Hfree.
  cut (exists w', cleanup_main_pdf_folder (w, l) = (Returns tt, (w', l))
                  /\ cleanup_going w [] w').
  { intros (w' & Hrun & _ & _ & E1 & E2 & E3 & E4 & Hall). exists w'.
    split; [ done | ]. split; [ | split; [ | done ] ].
    - intros g. specialize (Hall g). destruct (is_pdf g); [ | by destruct Hall ].
      destruct Hall as [(Hin & _)|[? _]]; [ by apply elem_of_nil in Hin | done ].
    - intros g. specialize (Hall g). destruct (is_pdf g); [ | by destruct Hall ].
      destruct Hall as [(Hin & _)|[_ ?]]; [ by apply elem_of_nil in Hin | done ]. }
  apply wp_returns. unfold cleanup_main_pdf_folder. wp_go.
  assert (H0 : cleanup_going w (filter (fun f => is_pdf f = true) (names (main_pdf w))) w).
  { split; [ done | ].
    split; [ apply Forall_forall; by intros g [? _]%list_elem_of_filter | ].
    repeat (split; [ done | ]). intros g. destruct (is_pdf g) eqn:Hg; [ | done ].
    destruct (dir_lookup (main_pdf w) g) as [y|] eqn:Hy; [ left | by right ].
    split; [ | done ]. apply list_elem_of_filter. split; [ done | ].
    apply dir_lookup_is_Some. by rewrite Hy. }
  destruct (filter _ _) as [|g leftover] eqn:Hleft.
  - wp_go. split; [ done | ]. split; [ done | ].
    destruct H0 as (? & ? & ? & ? & ? & ? & Hall). repeat (split; [ done | ]). done.
  - apply wp_bind, wp_log. cbn beta iota.
    eapply wp_mono;
      [ | apply (wp_for_each (fun rem (s : world * L) =>
                                s.2 = l /\ cleanup_going w rem s.1)) ].
    + intros r [w1 l1] (-> & Hl & H1). done.
    + intros f rem [w1 l1] [Hl H1]. simpl in Hl. subst l1.
      eapply wp_mono; [ | by apply cleanup_going_step ].
      intros r [w2 l2] (-> & Hl & H2). done.
    + split; [ done | ]. simpl. destruct H0 as (Hf & Hp & E1 & E2 & E3 & E4 & Hall).
      split; [ destruct Hf; by split | ]. repeat (split; [ done | ]). done.
Qed.

(** ** What the extraction does with each staged PDF *)

(** The text the extractor finds in the file [x], the name of the text
    artifact of the PDF [f], and the file that [extract_texts] writes for
    a text: a text that cannot be encoded leaves the file empty. *)
Definition text_of (x : file) : pystr := (extract_text_from_pdf (Some x)).1.

Definition text_name (f : pystr) : pystr := Py.splitext_root f ++ Py.str ".txt".

Definition written (text : pystr) : file :=
  match Py.encode_utf8 text with
  | Some b => File (Text text) (N.of_nat (length b)) clock false
  | None => File (Text []) 0 clock false
  end.

(** What the extraction has done with the PDF [f], staged as [x]: moved
    it to the Exception folder when it has no text; else left it, with
    the text artifact holding the text of a PDF of that base name which
    has been met. *)
Definition extracted (w0 : world) (rem : list pystr) (w : world) (f : pystr) (x : file)
  : Prop :=
  if is_pdf f
  then match text_of x with
       | [] => dir_lookup (main_pdf w) f = None /\ dir_lookup (exception_dir w) f = Some x
       | _ :: _ =>
           dir_lookup (main_pdf w) f = Some x
           /\ exists g x', (g ∉ rem) /\ is_pdf g = true
                           /\ dir_lookup (main_pdf w0) g = Some x'
                           /\ text_name g = text_name f
                           /\ text_of x' <> []
                           /\ dir_lookup (extracted_text w) (text_name f)
                              = Some (written (text_of x'))
       end
  else dir_lookup (main_pdf w) f = Some x.

Definition extract_going (w0 : world) (rem : list pystr) (w : world) : Prop :=
  NoDup rem
  /\ Forall (fun f => is_Some (dir_lookup (main_pdf w0) f)) rem
  /\ free_in (main_pdf w) /\ free_in (exception_dir w) /\ free_in (extracted_text w)
  /\ unique_invoices w = unique_invoices w0
  /\ duplicates_invoices w = duplicates_invoices w0 /\ repository w = repository w0
  /\ forall f x,
       dir_lookup (main_pdf w0) f = Some x ->
       (f ∈ rem -> dir_lookup (main_pdf w) f = Some x)
       /\ (f ∉ rem -> extracted w0 rem w f x).

Lemma extract_going_skipped w0 f rem w :
  is_pdf f = false -> extract_going w0 (f :: rem) w -> extract_going w0 rem w.
Proof.
  unfold extract_going. intros Hf (Hnd & Hsome & Hm & He & Ht & E1 & E2 & E3 & Hall).
  apply NoDup_cons in Hnd as [Hfrem Hnd]. apply Forall_cons in Hsome as [Hf0 Hsome].
  repeat (split; [ done | ]).
  intros g x Hg. destruct (Hall g x Hg) as [Hin Hout]. split.
  - intros ?. apply Hin. by right.
  - intros Hgrem. destruct (decide (g = f)) as [->|Hne].
    + unfold extracted. rewrite Hf. apply Hin. by left.
    + assert (Hg' : g ∉ f :: rem) by (intros [?|?]%elem_of_cons; done).
      specialize (Hout Hg'). unfold extracted in *.
      destruct (is_pdf g); [ | done ]. destruct (text_of x); [ done | ].
      destruct Hout as (? & k & x' & Hk & ?). split; [ done | ].
      exists k, x'. split; [ | done ]. intros ?. apply Hk. by right.
Qed.

Lemma extract_going_moved w0 f rem w x :
  is_pdf f = true ->
  dir_lookup (main_pdf w) f = Some x ->
  text_of x = [] ->
  extract_going w0 (f :: rem) w ->
  extract_going w0 rem
    (set_dir MAIN_PDF_FOLDER (dir_remove (main_pdf w) f)
       (set_dir EXCEPTION_FOLDER (dir_write (exception_dir w) f x) w)).
Proof.
  unfold extract_going.
  intros Hf Hx Htext (Hnd & Hsome & Hm & He & Ht & E1 & E2 & E3 & Hall).
  apply NoDup_cons in Hnd as [Hfrem Hnd]. apply Forall_cons in Hsome as [Hf0 Hsome].
  simpl.
  split; [ done | ]. split; [ done | ]. split; [ by apply free_in_remove | ].
  split; [ apply free_in_write; eauto | ]. repeat (split; [ done | ]).
  intros g y Hg. destruct (Hall g y Hg) as [Hin Hout].
  destruct (decide (g = f)) as [->|Hne].
  - split; [ done | ]. intros _. unfold extracted. simpl.
    assert (y = x) as -> by (rewrite Hin in Hx by (by left); congruence).
    rewrite Hf, Htext, dir_lookup_remove_eq, dir_lookup_write_eq. done.
  - rewrite dir_lookup_remove_ne by done. split; [ intros ?; apply Hin; by right | ].
    intros Hgrem.
    assert (Hg' : g ∉ f :: rem) by (intros [?|?]%elem_of_cons; done).
    specialize (Hout Hg'). unfold extracted in *. simpl.
    rewrite dir_lookup_remove_ne, dir_lookup_write_ne by done.
    destruct (is_pdf g); [ | done ]. destruct (text_of y); [ done | ].
    destruct Hout as (? & k & x' & Hk & ?). split; [ done | ].
    exists k, x'. split; [ | done ]. intros ?. apply Hk. by right.
Qed.

Lemma extract_going_written w0 f rem w x :
  is_pdf f = true ->
  dir_lookup (main_pdf w) f = Some x ->
  text_of x <> [] ->
  extract_going w0 (f :: rem) w ->
  extract_going w0 rem
    (set_dir EXTRACTED_TEXT_FOLDER
       (dir_write (extracted_text w) (text_name f) (written (text_of x))) w).
Proof.
  unfold extract_going.
  intros Hf Hx Htext (Hnd & Hsome & Hm & He & Ht & E1 & E2 & E3 & Hall).
  apply NoDup_cons in Hnd as [Hfrem Hnd]. apply Forall_cons in Hsome as [Hf0 Hsome].
  simpl.
  split; [ done | ]. split; [ done | ]. split; [ done | ]. split; [ done | ].
  split; [ apply free_in_write; [ done | unfold written; by destruct (Py.encode_utf8 _) ] | ].
  repeat (split; [ done | ]).
  assert (Hx0 : dir_lookup (main_pdf w0) f = Some x).
  { destruct Hf0 as [y Hy]. destruct (Hall f y Hy) as [Hin _].
    rewrite Hin in Hx by (by left). by rewrite Hy, Hx. }
  intros g y Hg. destruct (Hall g y Hg) as [Hin Hout].
  split; [ intros ?; apply Hin; by right | ]. intros Hgrem.
  destruct (decide (g = f)) as [->|Hne].
  - assert (y = x) as -> by congruence.
    unfold extracted. simpl. rewrite Hf. destruct (text_of x) eqn:Ex; [ done | ].
    split; [ done | ]. exists f, x. rewrite dir_lookup_write_eq, Ex. done.
  - assert (Hg' : g ∉ f :: rem) by (intros [?|?]%elem_of_cons; done).
    specialize (Hout Hg'). unfold extracted in *. simpl.
    destruct (is_pdf g); [ | done ]. destruct (text_of y); [ done | ].
    destruct Hout as (? & k & x' & Hk & Hkpdf & Hk0 & Hname & Hktext & Hfile).
    split; [ done | ].
    destruct (decide (text_name f = text_name g)) as [E|NE].
    + exists f, x. rewrite <- E, dir_lookup_write_eq. done.
    + exists k, x'. rewrite dir_lookup_write_ne by done.
      split; [ intros ?; apply Hk; by right | done ].
Qed.

Lemma extract_going_print w0 rem w e :
  extract_going w0 rem w -> extract_going w0 rem (print e w).
Proof. done. Qed.

Lemma extract_texts_going {L} w (l : L) :
  NoDup (names (main_pdf w)) ->
  staging_free w ->
  free_in (extracted_text w) ->
  exists w', extract_texts (w, l) = (Returns tt, (w', l)) /\ extract_going w [] w'.
Proof.
  intros Hnd [Hm He] Ht.
  apply wp_returns. unfold extract_texts. wp_go.
  eapply wp_mono;
    [ | apply (wp_for_each (fun rem (s : world * (nat * nat)) => extract_going w rem s.1)) ].
  - intros r [w1 c] [-> H1]. wp_go. split; [ done | ]. split; [ done | ].
    destruct H1 as (? & ? & ? & ? & ? & ? & ? & ? & Hall). simpl in *.
    repeat (split; [ done | ]). done.
  - intros f rem [w1 c] H1. simpl in H1. apply wp_when.
    destruct (is_pdf f) eqn:Hf; [ | split; [ done | ]; by apply (extract_going_skipped w f) ].
    apply wp_bind, wp_the_world. cbn beta iota. cbn [get_dir].
    assert (Hx : exists x, dir_lookup (main_pdf w1) f = Some x).
    { destruct H1 as (_ & Hsome & _ & _ & _ & _ & _ & _ & Hall).
      apply Forall_cons in Hsome as [[x Hx0] _]. exists x.
      apply (Hall f x Hx0). by left. }
    destruct Hx as [x Hx]. rewrite Hx.
    pose proof (fun H => extract_going_moved w f rem w1 x Hf Hx H H1) as Hmoved.
    pose proof (fun H => extract_going_written w f rem w1 x Hf Hx H H1) as Hwritten.
    destruct H1 as (_ & _ & Hm1 & He1 & Ht1 & _).
    pose proof (Hm1 f x Hx) as Hlx.
    destruct (extract_text_from_pdf (Some x)) as [text method] eqn:Hext.
    assert (Htext : text_of x = text) by (unfold text_of; by rewrite Hext).
    clear Hext. rewrite Htext in Hmoved, Hwritten. clear Htext.
    destruct text as [|ch text].
    + specialize (Hmoved eq_refl).
      assert (Hput : forall z, dir_lookup (exception_dir w1) f = Some z -> locked z = false)
        by (intros z; apply He1).
      wp_go. destruct (dir_lookup (exception_dir w1) f) as [z|] eqn:Hz;
        [ pose proof (Hput z eq_refl) as Hlz | ]; wp_go; (split; [ done | ]);
        by apply extract_going_print, Hmoved.
    + assert (Hne : ch :: text <> []) by done.
      specialize (Hwritten Hne). clear Hne Hmoved.
      assert (Hput : forall z, dir_lookup (extracted_text w1) (text_name f) = Some z ->
                               locked z = false)
        by (intros z; apply Ht1).
      unfold text_name, written in *. generalize dependent (ch :: text). intros t Hwritten.
      wp_go. destruct (dir_lookup (extracted_text w1) _) as [z|] eqn:Hz;
        [ pose proof (Hput z eq_refl) as Hlz | ]; wp_go;
        destruct (Py.encode_utf8 t); wp_go; (split; [ done | ]);
        by apply extract_going_print, Hwritten.
  - simpl. split; [ done | ].
    split; [ rewrite Forall_forall; intros g Hg; by apply dir_lookup_is_Some | ].
    split; [ exact Hm | ]. split; [ exact He | ]. split; [ exact Ht | ].
    do 3 (split; [ done | ]). intros g y Hy. split; [ done | ].
    intros Hg. destruct Hg. apply dir_lookup_is_Some. by rewrite Hy.
Qed.

(** X4.  The extraction, when the names of the staging folder are distinct
    and no file of the staging, the Exception or the text folder is held.
    A PDF without text is moved to the Exception folder.  A PDF with a
    text stays in the staging folder, and the text artifact named after
    it holds the text of a staged PDF of that base name.  A file that is
    not a PDF stays. *)
Theorem extract_texts_files_every_pdf {L} w (l : L) :
  NoDup (names (main_pdf w)) ->
  staging_free w ->
  free_in (extracted_text w) ->
  exists w',
    extract_texts (w, l) = (Returns tt, (w', l))
    /\ (forall f x,
          dir_lookup (main_pdf w) f = Some x -> is_pdf f = true -> text_of x = [] ->
          dir_lookup (main_pdf w') f = None /\ dir_lookup (exception_dir w') f = Some x)
    /\ (forall f x,
          dir_lookup (main_pdf w) f = Some x -> is_pdf f = true -> text_of x <> [] ->
          dir_lookup (main_pdf w') f = Some x
          /\ exists g x', is_pdf g = true /\ dir_lookup (main_pdf w) g = Some x'
                          /\ text_name g = text_name f /\ text_of x' <> []
                          /\ dir_lookup (extracted_text w') (text_name f)
                             = Some (written (text_of x')))
    /\ (forall f x,
          dir_lookup (main_pdf w) f = Some x -> is_pdf f = false ->
          dir_lookup (main_pdf w') f = Some x)
    /\ unique_invoices w' = unique_invoices w
    /\ duplicates_invoices w' = duplicates_invoices w
    /\ repository w' = repository w.
Proof.
  intros Hnd Hfree Ht.
  destruct (extract_texts_going w l Hnd Hfree Ht)
    as (w' & Hrun & _ & _ & _ & _ & _ & E1 & E2 & E3 & Hall).
  exists w'.
  split; [ done | ]. split; [ | split; [ | split; [ | done ] ] ].
  - intros f x Hx Hf Htext. destruct (Hall f x Hx) as [_ Hout].
    specialize (Hout (not_elem_of_nil f)). unfold extracted in Hout.
    by rewrite Hf, Htext in Hout.
  - intros f x Hx Hf Htext. destruct (Hall f x Hx) as [_ Hout].
    specialize (Hout (not_elem_of_nil f)). unfold extracted in Hout.
    rewrite Hf in Hout. destruct (text_of x); [ done | ].
    destruct Hout as (? & g & x' & _ & ?). split; [ done | ]. by exists g, x'.
  - intros f x Hx Hf. destruct (Hall f x Hx) as [_ Hout].
    specialize (Hout (not_elem_of_nil f)). unfold extracted in Hout.
    by rewrite Hf in Hout.
Qed.

(** ** What a run reports *)

(** One row for each file of a bucket folder, in the order of the
    listing. *)
Definition inventory (d : dir) : list row :=
  map (fun e => Row e.1 (st_size e.2) (strftime_localtime (st_mtime e.2))) d.

Lemma rows_of_bucket_tree (d : dir) : rows_of (bucket_tree d) = inventory d.
Proof.
  induction d as [|[g x] d IH]; [ done | ].
  change (rows_of (bucket_tree ((g, x) :: d)))
    with (Row g (st_size x) (strftime_localtime (st_mtime x)) :: rows_of (bucket_tree d)).
  by rewrite IH.
Qed.

(** X16.  A run that has its repository returns: no stage lets an exception
    out.  The two tables it returns list the Duplicates folder and the
    Unique folder as the run leaves them, a row for each file with its
    name, its size and its time, and the last line of the log says that
    all tasks are completed.  On a repository path that names no folder
    the run ends in the comparator: the intake, the extraction and the
    deduplication have run, [FileNotFoundError] comes out of [main]
    after the first line of the comparator, and no table is made. *)
Theorem main_reports_the_final_folders (source_folder : option tree) now w :
  timestamp_ok now ->
  (exists w',
     main_at true source_folder now (w, tt)
     = (Returns (inventory (duplicates_invoices w'), inventory (unique_invoices w')),
        (w', tt))
     /\ map Filename (inventory (duplicates_invoices w')) = names (duplicates_invoices w')
     /\ map Filename (inventory (unique_invoices w')) = names (unique_invoices w')
     /\ last (stdout w') = Some All_tasks_completed)
  /\ (exists w3,
        (copy_pdfs_to_main_folder source_folder;;
         extract_texts;;
         deduplicate_text_files) (print Version_banner w, tt) = (Returns tt, (w3, tt))
        /\ main_at false source_folder now (w, tt)
           = (Raises FileNotFoundError, (print Cross_comparing w3, tt))).
Proof.
  intros Hok. set (w0 := print Version_banner w).
  destruct (copy_pdfs_to_main_folder_frame (L := unit) source_folder w0 tt) as (w1 & R1 & _).
  destruct (extract_texts_frame (L := unit) w1 tt) as (w2 & R2 & _).
  destruct (deduplicate_text_files_frame (L := unit) w2 tt) as (w3 & R3 & _).
  destruct (cross_compare_with_repository_frame (L := unit) w3 tt) as (w4 & R4 & _).
  destruct (update_repository_frame (L := unit) now w4 tt Hok) as (w5 & R5 & _).
  destruct (cleanup_main_pdf_folder_frame (L := unit) w5 tt) as (w6 & R6 & _).
  split.
  - exists (print All_tasks_completed w6).
    split; [ | split; [ | split ] ].
    + rewrite main_at_found. unfold main, ensure_folders.
      rewrite (bind_run (log Version_banner) _ (w, tt) tt (w0, tt)) by done.
      rewrite (bind_run (ret tt) _ (w0, tt) tt (w0, tt)) by done.
      rewrite (bind_run _ _ _ _ _ R1), (bind_run _ _ _ _ _ R2), (bind_run _ _ _ _ _ R3),
        (bind_run _ _ _ _ _ R4), (bind_run _ _ _ _ _ R5), (bind_run _ _ _ _ _ R6).
      unfold get_duplicate_invoices_dataframe, get_unique_invoices_dataframe,
        list_files_as_dataframe, bind, log, update_world, the_world, ret.
      simpl. by rewrite !rows_of_bucket_tree.
    + unfold inventory, names. rewrite map_map. done.
    + unfold inventory, names. rewrite map_map. done.
    + simpl. apply last_snoc.
  - exists w3. split.
    + by rewrite (bind_run _ _ _ _ _ R1), (bind_run _ _ _ _ _ R2).
    + by apply (main_at_missing source_folder now w w1 w2 w3).
Qed.

(** ** A unique invoice under the name of an old exception *)

Section Overwritten.
Variables (w0 : world) (f h : pystr) (x : file).
Let g := pdf_name_of f.
Hypothesis Hfp : fingerprint_at w0 f = Some h.
Hypothesis Honly :
  forall f', f' ∈ names (extracted_text w0) -> pdf_name_of f' = g -> f' = f.
Hypothesis Hx : locked x = false.

(** While the comparator classifies the texts [rem]: the artifact [f] is
    still to be met, with its PDF in the staging folder, or its PDF has
    been moved and logged as unique. *)
Definition overwrite_going (R : gset pystr) (rem : list pystr) (s : world * compare_vars)
  : Prop :=
  exception_dir s.1 = exception_dir w0
  /\ (forall z, dir_lookup (unique_invoices s.1) g = Some z -> locked z = false)
  /\ dir_lookup (duplicates_invoices s.1) g = dir_lookup (duplicates_invoices w0) g
  /\ repo_hashes s.2 = R
  /\ (forall f', f' ∈ rem -> f' ∈ names (extracted_text w0))
  /\ ((f ∈ rem /\ fingerprint_at s.1 f = Some h /\ dir_lookup (main_pdf s.1) g = Some x)
      \/ (dir_lookup (main_pdf s.1) g = None /\ Moved_unique_PDF g ∈ stdout s.1)).

Lemma overwrite_going_step R f' rem s s' :
  h ∉ R ->
  overwrite_going R (f' :: rem) s ->
  compare_failed f' s s' \/ compare_duplicate f' s s' \/ compare_unique f' s s' ->
  overwrite_going R rem s'.
Proof.
  intros HR (He & Hu & Hd & Hset & Hsub & Hcase) Hstep.
  assert (Hf' : f' ∈ names (extracted_text w0)) by (apply Hsub; by left).
  assert (Hsub' : forall f'', f'' ∈ rem -> f'' ∈ names (extracted_text w0))
    by (intros f'' ?; apply Hsub; by right).
  assert (Hne : f' <> f -> pdf_name_of f' <> g) by (intros Hn Hg; by apply Hn, Honly).
  destruct s as [w v], s' as [w' v'].
  unfold overwrite_going, compare_failed, compare_duplicate, compare_unique, same_folders,
    fingerprint_at in *.
  simpl in *. clear_runtime.
  destruct Hstep as [((Em & Et & Ee & Eu & Ed & Er) & -> & (e & Hout) & Hwhy)
                    |[(h' & Hh' & Hin & Et & Hmove & Ee & Eu & Er & Hout & ->)
                     |(h' & Hh' & Hnin & Hmove)]].
  - (* the comparison failed *)
    rewrite Em, Et, Ee, Eu, Ed, Hout.
    do 5 (split; [ done | ]).
    destruct Hcase as [(Hin & Hfpf & Hm)|[Hm Hlog]].
    + left. split; [ | done ].
      apply elem_of_cons in Hin as [<-|?]; [ exfalso | done ].
      destruct Hwhy as [Hnone|(h'' & y' & Hh'' & Hy' & Hwhy)]; [ congruence | ].
      fold g in Hy'. rewrite Hm in Hy'. injection Hy' as <-.
      assert (h'' = h) as -> by congruence.
      destruct Hwhy as [?|[[Hin' _]|[_ (z & Hz & Hlz)]]]; [ congruence | | ].
      * apply HR. by rewrite <- Hset.
      * fold g in Hz. rewrite (Hu z Hz) in Hlz. done.
    + right. split; [ done | ]. apply elem_of_app. by left.
  - (* a duplicate of the repository *)
    rewrite Ee, Eu, Hout, Et. simpl.
    split; [ done | ]. split; [ done | ].
    destruct Hcase as [(Hin' & Hfpf & Hm)|[Hm Hlog]].
    + assert (f' <> f) as Hn.
      { intros ->. assert (h' = h) as -> by congruence. apply HR. by rewrite <- Hset. }
      specialize (Hne Hn).
      assert (dir_lookup (main_pdf w') g = dir_lookup (main_pdf w) g
              /\ dir_lookup (duplicates_invoices w') g
                 = dir_lookup (duplicates_invoices w) g)
        as [Em Ed].
      { destruct Hmove as [(_ & -> & ->)|(y' & _ & _ & -> & ->)]; [ done | ].
        by rewrite dir_lookup_remove_ne, dir_lookup_write_ne. }
      rewrite Em, Ed. do 3 (split; [ done | ]).
      left. apply elem_of_cons in Hin' as [?|?]; [ congruence | ].
      split; [ done | ]. split; [ | done ].
      unfold fingerprint_in in *. by rewrite dir_lookup_remove_ne.
    + assert (dir_lookup (main_pdf w') g = None
              /\ dir_lookup (duplicates_invoices w') g
                 = dir_lookup (duplicates_invoices w) g)
        as [Em Ed].
      { destruct Hmove as [(_ & -> & ->)|(y' & Hy' & _ & -> & ->)]; [ done | ].
        destruct (decide (pdf_name_of f' = g)) as [E|E].
        - rewrite E in Hy'. congruence.
        - by rewrite dir_lookup_remove_ne, dir_lookup_write_ne. }
      rewrite Em, Ed. do 3 (split; [ done | ]).
      right. split; [ done | ]. apply elem_of_app. by left.
  - (* not in the repository *)
    destruct Hmove as [[Hnone [= -> ->]]
                      |(y' & Hy' & Hly' & Em & Eu & Et & Ee & Ed & Er & Hout & ->)].
    + do 5 (split; [ done | ]).
      destruct Hcase as [(Hin & Hfpf & Hm)|?]; [ left | by right ].
      apply elem_of_cons in Hin as [<-|?]; [ | done ].
      fold g in Hnone. congruence.
    + rewrite Ee, Ed, Em, Eu, Hout, Et. simpl.
      destruct (decide (f' = f)) as [->|Hn].
      * fold g. fold g in Hy'. rewrite dir_lookup_remove_eq, dir_lookup_write_eq.
        split; [ done | ]. split; [ intros z [= <-] | ].
        { destruct Hcase as [(_ & _ & Hm)|[Hm _]]; congruence. }
        do 3 (split; [ done | ]).
        right. split; [ done | ]. apply elem_of_app. right. by apply list_elem_of_singleton.
      * specialize (Hne Hn).
        rewrite dir_lookup_remove_ne, dir_lookup_write_ne by done.
        do 5 (split; [ done | ]).
        destruct Hcase as [(Hin & Hfpf & Hm)|[Hm Hlog]].
        -- left. apply elem_of_cons in Hin as [?|?]; [ congruence | done ].
        -- right. split; [ done | ]. apply elem_of_app. by left.
Qed.

End Overwritten.

Section Overwriting.
Variables (w0 : world) (g : pystr) (y : file).
Hypothesis Hy : locked y = false.
Hypothesis Hpdf : is_pdf g = true.

(** While the comparator copies the exception PDFs [rem]. *)
Definition overwrite_copying (rem : list pystr) (s : world * compare_vars) : Prop :=
  exception_dir s.1 = exception_dir w0
  /\ (forall z, dir_lookup (unique_invoices s.1) g = Some z -> locked z = false)
  /\ (g ∈ rem \/ dir_lookup (unique_invoices s.1) g = Some y)
  /\ dir_lookup (main_pdf s.1) g = None
  /\ dir_lookup (duplicates_invoices s.1) g = dir_lookup (duplicates_invoices w0) g
  /\ Moved_unique_PDF g ∈ stdout s.1.

Lemma overwrite_copying_step g' rem s :
  dir_lookup (exception_dir w0) g = Some y ->
  overwrite_copying (g' :: rem) s ->
  wp (copy_exception_pdf g') (fun r s' => r = Returns tt /\ overwrite_copying rem s') s.
Proof.
  destruct s as [w v]. unfold overwrite_copying, copy_exception_pdf.
  intros Hey (He & Hu & Hcase & Hm & Hd & Hlog). simpl in *.
  assert (Hlog' : forall e, Moved_unique_PDF g ∈ stdout w ++ [e])
    by (intros e; apply elem_of_app; by left).
  destruct (decide (g' = g)) as [->|Hne].
  - pose proof Hey as Hey'. rewrite <- He in Hey'. rewrite Hpdf. wp_go.
    destruct (dir_lookup (unique_invoices w) g) as [z|] eqn:Hz.
    + rewrite (Hu z eq_refl). wp_go. dir_simpl.
      split; [ done | ]. split; [ done | ]. split; [ by intros ? [= <-] | ].
      split; [ by right | ]. done.
    + wp_go. dir_simpl.
      split; [ done | ]. split; [ done | ]. split; [ by intros ? [= <-] | ].
      split; [ by right | ]. done.
  - assert (Hcase' : g ∈ rem \/ dir_lookup (unique_invoices w) g = Some y).
    { destruct Hcase as [Hin|?]; [ | by right ].
      apply elem_of_cons in Hin as [?|?]; [ congruence | by left ]. }
    wp_cases; dir_simpl; repeat (split; [ done | ]); done.
Qed.
End Overwriting.

(** X7.  The last loop of the comparator copies over what the loop before it
    has moved.  A text artifact [f] of the batch is not in the
    repository, and it alone has the PDF [x] of the staging folder; the
    exception folder has a PDF [y] of the same name, of an earlier run.
    Then the comparator moves [x] to the Unique folder and logs it as
    unique, and then copies [y] over it: after the stage the name has
    [y] in the Unique folder, and the staging folder and the Duplicates
    folder do not have [x] under it. *)
Theorem exception_copy_overwrites_a_unique_pdf {L} w (l : L) f h x y :
  fingerprint_at w f = Some h ->
  is_txt f = true ->
  h ∉ repository_fingerprints (repository w) ->
  (forall f', f' ∈ names (extracted_text w) -> pdf_name_of f' = pdf_name_of f -> f' = f) ->
  is_pdf (pdf_name_of f) = true ->
  dir_lookup (main_pdf w) (pdf_name_of f) = Some x ->
  locked x = false ->
  dir_lookup (exception_dir w) (pdf_name_of f) = Some y ->
  locked y = false ->
  (forall z, dir_lookup (unique_invoices w) (pdf_name_of f) = Some z -> locked z = false) ->
  exists w',
    cross_compare_with_repository (w, l) = (Returns tt, (w', l))
    /\ Moved_unique_PDF (pdf_name_of f) ∈ stdout w'
    /\ dir_lookup (unique_invoices w') (pdf_name_of f) = Some y
    /\ dir_lookup (main_pdf w') (pdf_name_of f) = None
    /\ dir_lookup (duplicates_invoices w') (pdf_name_of f)
       = dir_lookup (duplicates_invoices w) (pdf_name_of f)
    /\ exception_dir w' = exception_dir w.
Proof.
  intros Hfp Htxt Hnew Honly Hpdf Hmx Hx Hey Hy Hu.
  cut (wp cross_compare_with_repository
          (fun r s' => r = Returns tt /\ s'.2 = l
                       /\ overwrite_copying w (pdf_name_of f) y [] (s'.1, CompareVars ∅ 0 0))
          (w, l)).
  { intros (r & [w' l'] & Hrun & -> & Hl & He & _ & Hcase & Hm & Hd & Hlog)%wp_post.
    simpl in *. subst l'. exists w'.
    destruct Hcase as [Hin|Hcase]; [ by apply elem_of_nil in Hin | ]. done. }
  unfold cross_compare_with_repository, cross_compare_body. wp_go.
  eapply wp_mono; [ | apply build_repo_hashes_run ].
  intros r [w1 v1] (-> & (E1 & E2 & E3 & E4 & E5 & E6) & Hset & _). simpl in *.
  rewrite left_id_L in Hset; [ | apply _ ].
  unfold compare_extracted, copy_exception_pdfs. wp_go.
  set (files := filter (fun f => is_txt f = true) (names (extracted_text w1))).
  assert (H1 : overwrite_going w f h x (repository_fingerprints (repository w)) files
                 (w1, v1)).
  { unfold overwrite_going, fingerprint_at, files. simpl. rewrite E1, E2, E3, E4, E5.
    split; [ done | ]. split; [ done | ]. split; [ done | ]. split; [ done | ].
    split; [ by intros f' [_ ?]%list_elem_of_filter | ].
    left. split; [ | done ]. apply list_elem_of_filter. split; [ done | ].
    apply dir_lookup_is_Some. unfold fingerprint_at, fingerprint_in in Hfp.
    destruct (dir_lookup (extracted_text w) f); [ eauto | done ]. }
  destruct (compare_loop_steps
              (overwrite_going w f h x (repository_fingerprints (repository w)))
              (fun f' rem s s' => overwrite_going_step w f h x Hfp Honly Hx _ f' rem s s' Hnew)
              files _ H1)
    as ([w2 v2] & Hloop & H2).
  eapply wp_eq; [ exact Hloop | ]. wp_go.
  destruct H2 as (He2 & Hu2 & Hd2 & _ & _ & Hcase2). simpl in *.
  destruct Hcase2 as [(Hin & _)|[Hm2 Hlog2]]; [ by apply elem_of_nil in Hin | ].
  eapply wp_mono;
    [ | apply (wp_for_each (overwrite_copying w (pdf_name_of f) y)) ];
    [ | intros; by apply overwrite_copying_step | ].
  - intros r [w3 v3] (-> & He3 & Hu3 & Hcase3 & Hm3 & Hd3 & Hlog3). wp_go.
    split; [ done | ]. split; [ done | ]. unfold overwrite_copying. simpl in *.
    split; [ done | ]. split; [ done | ]. split; [ done | ]. split; [ done | ].
    split; [ done | ]. apply elem_of_app. by left.
  - unfold overwrite_copying. simpl.
    split; [ done | ]. split; [ done | ].
    split; [ left; rewrite He2; apply dir_lookup_is_Some; by rewrite Hey | ]. done.
Qed.

(** ** The repository remembers the texts of a run *)

Lemma elem_of_repository_fingerprints (d : dir) h :
  h ∈ repository_fingerprints d ->
  exists g, is_txt g = true /\ fingerprint_in d g = Some h.
Proof.
  unfold repository_fingerprints. intros Hin.
  apply elem_of_list_to_set, list_elem_of_omap in Hin as (g & _ & Hg).
  exists g. by destruct (is_txt g).
Qed.

(** X13.  From the extraction to the update of the repository, in a run
    whose repository path names a folder: the text of a staged PDF is in
    the repository afterwards, in a file that was there or in a file
    that the run has added.  The names of the staging folder are
    distinct and no other staged file has a text artifact of the same
    name; no file of the batch folders is held; the text of the PDF can
    be written and hashed. *)
Theorem every_text_reaches_the_repository {L} (repository_found : bool) now w (l : L)
    p x b h :
  repository_found = true ->
  timestamp_ok now ->
  NoDup (names (main_pdf w)) ->
  staging_free w ->
  NoDup (names (extracted_text w)) ->
  free_in (extracted_text w) ->
  free_in (duplicates_invoices w) ->
  dir_lookup (main_pdf w) p = Some x ->
  is_pdf p = true ->
  (forall g, g ∈ names (main_pdf w) -> text_name g = text_name p -> g = p) ->
  is_txt (text_name p) = true ->
  text_of x <> [] ->
  Py.encode_utf8 (text_of x) = Some b ->
  sha256_hash (text_of x) = Some h ->
  exists w1 w2 w3 w4 g,
    extract_texts (w, l) = (Returns tt, (w1, l))
    /\ deduplicate_text_files (w1, l) = (Returns tt, (w2, l))
    /\ cross_compare_with_repository_at repository_found (w2, l) = (Returns tt, (w3, l))
    /\ update_repository_at repository_found now (w3, l) = (Returns tt, (w4, l))
    /\ fingerprint_in (repository w4) g = Some h.
Proof.
  intros -> Hok Hnd Hfree Hndt Ht Hdups Hx Hpdf Honly Htxt Htext Henc Hh.
  setoid_rewrite cross_compare_with_repository_at_found.
  setoid_rewrite update_repository_at_found.
  (* the extraction *)
  destruct (extract_texts_going w l Hnd Hfree Ht) as (w1 & R1 & H1).
  destruct (extract_texts_ready w l) as (w1' & R1' & Hready1).
  { split; [ done | ]. split; [ exact (proj1 Hfree) | done ]. }
  rewrite R1 in R1'. injection R1' as <-.
  assert (F1 : fingerprint_in (extracted_text w1) (text_name p) = Some h).
  { destruct H1 as (_ & _ & _ & _ & _ & _ & _ & _ & Hall).
    destruct (Hall p x Hx) as [_ Hout]. specialize (Hout (not_elem_of_nil p)).
    unfold extracted in Hout. rewrite Hpdf in Hout.
    destruct (text_of x) as [|c t] eqn:Et; [ done | ].
    destruct Hout as (_ & g & x' & _ & _ & Hg & Hname & _ & Hart).
    assert (g = p) as ->.
    { apply Honly; [ | done ]. apply dir_lookup_is_Some. by rewrite Hg. }
    assert (x' = x) as -> by congruence.
    rewrite fingerprint_in_of, Hart. simpl. unfold written, fingerprint_of.
    rewrite Et, Henc. simpl. done. }
  (* the deduplication *)
  destruct (deduplicate_text_files_going w1 l (proj1 Hready1)) as (w2 & v2 & R2 & H2).
  destruct (deduplicate_text_files_ready w1 l Hready1) as (w2' & R2' & Hready2).
  rewrite R2 in R2'. injection R2' as <-.
  destruct H2 as (_ & _ & _ & _ & Hj & _). simpl in Hj.
  assert (F2 : has_fingerprint (extracted_text w2) h).
  { apply Hj. by exists (text_name p). }
  destruct F2 as (f & Hf & Hfh).
  assert (Hfy : exists y, dir_lookup (extracted_text w2) f = Some y
                          /\ fingerprint_of y = Some h).
  { rewrite fingerprint_in_of in Hfh.
    destruct (dir_lookup (extracted_text w2) f) as [y|]; [ by exists y | done ]. }
  destruct Hfy as (y & Hy & Hyh).
  assert (Hly : locked y = false).
  { unfold fingerprint_of in Hyh. by destruct (locked y). }
  (* the comparison *)
  destruct Hready2 as (_ & Hm2 & Hd2).
  destruct (cross_compare_with_repository_going w2 l Hm2 Hd2)
    as (w3 & v3 & R3 & Ht3 & Hr3 & H3).
  destruct H3 as (_ & _ & _ & _ & _ & _ & _ & Hk3). simpl in Hk3.
  (* the update *)
  destruct (update_repository_going now w3 l Hok) as (w4 & added & fs & R4 & H4).
  destruct H4 as (Hrepo4 & Hfresh & Hnames & _ & Hall & _ & _ & _ & Hrem & _).
  simpl in Hrepo4, Hrem.
  exists w1, w2, w3, (print (Moved_and_renamed_count (length added)) w4).
  destruct (Hk3 f y Hy) as [Hy3|(_ & h' & Hh' & Hin)].
  - (* the text is filed by this run *)
    rewrite <- Ht3 in Hy3.
    destruct (Hrem f y Hf Hy3 Hly) as [Hin|Hin]; [ by apply elem_of_nil in Hin | ].
    apply list_elem_of_lookup in Hin as [i Hi].
    destruct (Forall2_lookup_r _ _ _ _ _ Hall Hi) as ([n z] & Hn & _ & Hz).
    simpl in Hz. rewrite Hy3 in Hz. injection Hz as <-.
    assert (Hin : (n, y) ∈ added) by (by apply list_elem_of_lookup_2 in Hn).
    assert (Hnone : dir_lookup (repository w3) n = None).
    { rewrite Forall_forall in Hfresh. by apply (Hfresh (n, y)). }
    exists n. do 4 (split; [ done | ]). simpl.
    rewrite fingerprint_in_of, Hrepo4, dir_lookup_app, Hnone.
    by rewrite (dir_lookup_NoDup added n y).
  - (* a text of the repository has the fingerprint *)
    assert (h' = h) as -> by congruence.
    apply elem_of_repository_fingerprints in Hin as (g & _ & Hg).
    exists g. do 4 (split; [ done | ]). simpl.
    rewrite fingerprint_in_of in Hg |- *. rewrite Hrepo4, dir_lookup_app, Hr3.
    by destruct (dir_lookup (repository w2) g).
Qed.


(** * The pipeline class of [PyQt_Final.py] *)

(** The lines that the pipeline gives to [self.log]: those of the
    functions of [DF_Final.py], and three of its own. *)
Inductive line :=
| Line (e : event)
| Ensured_folder_structure
| Pipeline_completed
| Pipeline_error (e : exn).

(** What a running pipeline has of the window: the stop event and the
    queue of the logger, of which [queue] has the lines that the
    pipeline puts on it.  The window sets the event and the worker
    thread reads it; the event is cleared only before a worker starts.
    So what a run reads from it is [false] a number of times and [true]
    from then on: [Some n] says that the next [n] readings give [false],
    [None] that the event is not set during the run. *)
Record gui := Gui {
  stop_event : option nat;
  queue : list line
}.

(** [self.stop_event.is_set()] *)
Definition is_set {L} : M (gui * L) bool :=
  fun s =>
    match stop_event s.2.1 with
    | None => (Returns false, s)
    | Some O => (Returns true, s)
    | Some (S n) => (Returns false, (s.1, (Gui (Some n) (queue s.2.1), s.2.2)))
    end.

(** [self.log(msg)]: the line is put on the queue. *)
Definition self_log {L} (ln : line) : M (gui * L) unit :=
  assign (fun gl => (Gui (stop_event gl.1) (queue gl.1 ++ [ln]), gl.2)).

(** The local variables of a method. *)
Definition local_vars {L} : M (gui * L) L := fun s => (Returns s.2.2, s).

Definition assign_vars {L} (f : L -> L) : M (gui * L) unit :=
  assign (fun gl => (gl.1, f gl.2)).

(** A method call: the method runs on its own local variables, and on
    the stop event and the queue of the object. *)
Definition method_call {L L' A} (init : L') (m : M (gui * L') A) : M (gui * L) A :=
  fun s =>
    match m (s.1, (s.2.1, init)) with
    | (r, (w, (g, _))) => (r, (w, (g, s.2.2)))
    end.

(** [if self.stop_event.is_set(): return] before the rest of a method. *)
Definition unless_stopped {L} (rest : M (gui * L) unit) : M (gui * L) unit :=
  stopped ← is_set;
  if stopped then ret tt else rest.

(** [for x in xs: if self.stop_event.is_set(): break; body(x)] *)
Fixpoint for_each_until_stop {L X} (xs : list X) (body : X -> M (gui * L) unit)
  : M (gui * L) unit :=
  match xs with
  | [] => ret tt
  | x :: xs' =>
      stopped ← is_set;
      if stopped then ret tt else (body x;; for_each_until_stop xs' body)
  end.

Definition InvoicePipeline_ensure_folders {L} : M (gui * L) unit :=
  self_log Ensured_folder_structure.

Definition InvoicePipeline_process_file (x : file) (filename : pystr)
  : M (gui * (nat * nat)) unit :=
  let dst_folder := if is_pdf filename then MAIN_PDF_FOLDER else EXCEPTION_FOLDER in
  copy2_file x dst_folder filename;;
  if decide (dst_folder = MAIN_PDF_FOLDER)
  then assign_vars (fun c => (S c.1, c.2))
  else assign_vars (fun c => (c.1, S c.2));;
       self_log (Line (Non_PDF_moved_to_Exception filename)).

Definition InvoicePipeline_copy_pdfs_to_main_folder {L} (source_folder : option tree)
  : M (gui * L) unit :=
  method_call (0%nat, 0%nat)
    (unless_stopped
       (self_log (Line Copying_files);;
        try_except
          (entries ← match source_folder with
                      | Some entries => ret entries
                      | None => raise FileNotFoundError
                      end;
           let has_subfolders := existsb (fun e => isdir e.2) entries in
           (if has_subfolders
            then for_each_until_stop (os_walk (FolderNode entries))
                   (fun files =>
                      for_each_until_stop files
                        (fun e => InvoicePipeline_process_file e.2 e.1))
            else for_each_until_stop entries
                   (fun e => match e.2 with
                             | FileNode x => InvoicePipeline_process_file x e.1
                             | FolderNode _ => ret tt
                             end));;
           c ← local_vars;
           self_log (Line (PDFs_copied c.1));;
           self_log (Line (Non_PDFs_moved c.2)))
          (fun e => self_log (Line (Error_copying_files e))))).

(** After its test of the stop event, the method is the function of
    [DF_Final.py], line for line. *)
Definition InvoicePipeline_extract_text_from_pdf {L} (at_path : option file)
  : M (gui * L) (pystr * option pystr) :=
  stopped ← is_set;
  if stopped then ret ([], None) else ret (extract_text_from_pdf at_path).

Definition InvoicePipeline_extract_file (f : pystr) : M (gui * (nat * nat)) unit :=
  when (is_pdf f)
    (w ← the_world;
     r ← InvoicePipeline_extract_text_from_pdf (dir_lookup (get_dir MAIN_PDF_FOLDER w) f);
     match r.1 with
     | _ :: _ =>
         try_except
           (write_text clock EXTRACTED_TEXT_FOLDER
              (Py.splitext_root f ++ Py.str ".txt") r.1;;
            assign_vars (fun c => (S c.1, c.2));;
            self_log (Line (Extracted_text f (default [] r.2))))
           (fun e => self_log (Line (Failed_to_save_text f e)))
     | [] =>
         try_except
           (shutil_move MAIN_PDF_FOLDER f EXCEPTION_FOLDER f;;
            assign_vars (fun c => (c.1, S c.2));;
            self_log (Line (Extraction_failed_moved f)))
           (fun e => self_log (Line (Failed_to_move_to_Exception f e)))
     end).

Definition InvoicePipeline_extract_texts {L} : M (gui * L) unit :=
  method_call (0%nat, 0%nat)
    (unless_stopped
       (self_log (Line Starting_text_extraction);;
        listing ← os_listdir MAIN_PDF_FOLDER;
        for_each_until_stop listing InvoicePipeline_extract_file;;
        c ← local_vars;
        self_log (Line (Extraction_done c.1 c.2)))).

Definition InvoicePipeline_dedup_file (f : pystr) : M (gui * dedup_vars) unit :=
  try_except
    (content ← read_text EXTRACTED_TEXT_FOLDER f;
     h ← sha256_hash_or_raise content;
     v ← local_vars;
     match seen_hashes v !! h with
     | Some first_seen =>
         os_remove EXTRACTED_TEXT_FOLDER f;;
         assign_vars (fun v => DedupVars (seen_hashes v) (S (removed_count v)));;
         self_log (Line (Removed_duplicate_text f first_seen));;
         let pdf_name := Py.splitext_root f ++ Py.str ".pdf" in
         present ← os_path_exists MAIN_PDF_FOLDER pdf_name;
         when present
           (shutil_move MAIN_PDF_FOLDER pdf_name DUPLICATES_INVOICES_FOLDER pdf_name;;
            self_log (Line (Moved_duplicate_PDF pdf_name)))
     | None =>
         assign_vars (fun v => DedupVars (<[h := f]> (seen_hashes v)) (removed_count v))
     end)
    (fun e => self_log (Line (Error_during_deduplication f e))).

Definition InvoicePipeline_deduplicate_text_files {L} : M (gui * L) unit :=
  method_call (DedupVars ∅ 0)
    (unless_stopped
       (self_log (Line Starting_deduplication);;
        listing ← os_listdir EXTRACTED_TEXT_FOLDER;
        let files := filter (fun f => is_txt f = true) listing in
        for_each_until_stop files InvoicePipeline_dedup_file;;
        v ← local_vars;
        self_log (Line (Deduplication_done (removed_count v))))).

Definition InvoicePipeline_add_repo_hash (f : pystr) : M (gui * compare_vars) unit :=
  when (is_txt f)
    (try_except
       (content ← read_text repository_folder f;
        h ← sha256_hash_or_raise content;
        assign_vars (fun v => CompareVars ({[h]} ∪ repo_hashes v) (count_unique v)
                                (count_duplicates v)))
       (fun e => self_log (Line (Could_not_read_repo_file f e)))).

Definition InvoicePipeline_compare_file (f : pystr) : M (gui * compare_vars) unit :=
  try_except
    (content ← read_text EXTRACTED_TEXT_FOLDER f;
     h ← sha256_hash_or_raise content;
     let pdf_name := Py.splitext_root f ++ Py.str ".pdf" in
     v ← local_vars;
     if decide (h ∈ repo_hashes v)
     then
       present ← os_path_exists MAIN_PDF_FOLDER pdf_name;
       when present (shutil_move MAIN_PDF_FOLDER pdf_name DUPLICATES_INVOICES_FOLDER pdf_name);;
       os_remove EXTRACTED_TEXT_FOLDER f;;
       assign_vars (fun v => CompareVars (repo_hashes v) (count_unique v)
                               (S (count_duplicates v)));;
       self_log (Line (Moved_duplicate_and_deleted_text pdf_name))
     else
       present ← os_path_exists MAIN_PDF_FOLDER pdf_name;
       when present
         (shutil_move MAIN_PDF_FOLDER pdf_name UNIQUE_INVOICES_FOLDER pdf_name;;
          assign_vars (fun v => CompareVars (repo_hashes v) (S (count_unique v))
                                  (count_duplicates v));;
          self_log (Line (Moved_unique_PDF pdf_name))))
    (fun e => self_log (Line (Error_comparing_file f e))).

Definition InvoicePipeline_copy_exception_pdf (f : pystr) : M (gui * compare_vars) unit :=
  when (is_pdf f)
    (try_except
       (shutil_copy2 EXCEPTION_FOLDER f UNIQUE_INVOICES_FOLDER f;;
        self_log (Line (Copied_exception_PDF f)))
       (fun e => self_log (Line (Could_not_copy_exception_PDF f e)))).

Definition InvoicePipeline_cross_compare_with_repository {L} : M (gui * L) unit :=
  method_call (CompareVars ∅ 0 0)
    (unless_stopped
       (self_log (Line Cross_comparing);;
        (listing ← os_listdir repository_folder;
         for_each_until_stop listing InvoicePipeline_add_repo_hash);;
        (listing ← os_listdir EXTRACTED_TEXT_FOLDER;
         let extracted_files := filter (fun f => is_txt f = true) listing in
         for_each_until_stop extracted_files InvoicePipeline_compare_file);;
        (listing ← os_listdir EXCEPTION_FOLDER;
         for_each_until_stop listing InvoicePipeline_copy_exception_pdf);;
        v ← local_vars;
        self_log (Line (Cross_comparison_complete (count_unique v) (count_duplicates v))))).

Definition InvoicePipeline_file_text (now : timestamp) (f : pystr) : M (gui * nat) unit :=
  when (is_txt f)
    (let base_name := base_name_of now in
     w ← the_world;
     match resolve_name (S (length (repository w))) (repository w) base_name base_name 1 with
     | None => raise LoopBoundReached
     | Some (new_name, _) =>
         try_except
           (shutil_move EXTRACTED_TEXT_FOLDER f repository_folder new_name;;
            self_log (Line (Moved_and_renamed f new_name));;
            assign_vars S)
           (fun e => self_log (Line (Failed_to_move_and_rename f e)))
     end).

Definition InvoicePipeline_update_repository {L} (now : timestamp) : M (gui * L) unit :=
  method_call 0%nat
    (unless_stopped
       (self_log (Line Updating_repository);;
        listing ← os_listdir EXTRACTED_TEXT_FOLDER;
        for_each_until_stop listing (InvoicePipeline_file_text now);;
        moved_count ← local_vars;
        self_log (Line (Moved_and_renamed_count moved_count)))).

Definition InvoicePipeline_move_leftover {L} (f : pystr) : M (gui * L) unit :=
  try_except
    (shutil_move MAIN_PDF_FOLDER f EXCEPTION_FOLDER f;;
     self_log (Line (Moved_leftover_PDF f)))
    (fun e => self_log (Line (Failed_to_move_leftover_PDF f e))).

Definition InvoicePipeline_cleanup_main_pdf_folder {L} : M (gui * L) unit :=
  unless_stopped
    (listing ← os_listdir MAIN_PDF_FOLDER;
     let leftover_files := filter (fun f => is_pdf f = true) listing in
     match leftover_files with
     | [] => self_log (Line No_leftover_PDFs)
     | _ =>
         self_log (Line Cleaning_up_leftover_PDFs);;
         for_each_until_stop leftover_files InvoicePipeline_move_leftover
     end).

Definition InvoicePipeline_run_full_pipeline (source_folder : option tree) (now : timestamp)
  : M (gui * unit) unit :=
  try_except
    (InvoicePipeline_ensure_folders;;
     InvoicePipeline_copy_pdfs_to_main_folder source_folder;;
     unless_stopped
       (InvoicePipeline_extract_texts;;
        unless_stopped
          (InvoicePipeline_deduplicate_text_files;;
           unless_stopped
             (InvoicePipeline_cross_compare_with_repository;;
              unless_stopped
                (InvoicePipeline_update_repository now;;
                 unless_stopped
                   (InvoicePipeline_cleanup_main_pdf_folder;;
                    self_log Pipeline_completed))))))
    (fun e => self_log (Pipeline_error e)).

(** ** The pipeline and the script *)

(** A state of the script seen as a state of the pipeline: the folders
    are the same, the standard output is [out0], as the pipeline prints
    nothing, and the queue has, after [q], the lines that the script has
    printed. *)
Definition with_stdout (out : list event) (w : world) : world :=
  World (main_pdf w) (extracted_text w) (exception_dir w) (unique_invoices w)
        (duplicates_invoices w) (repository w) out.

Definition embed {L} (k : option nat) (q : list line) (out0 : list event) (s : world * L)
  : world * (gui * L) :=
  (with_stdout out0 s.1, (Gui k (q ++ map Line (stdout s.1)), s.2)).

(** [sim k RA mq md]: with the stop event at [k] before and after, the
    computation [mq] of the pipeline does what the computation [md] of
    the script does, with results related by [RA]. *)
Definition sim {L A} (k : option nat) (RA : A -> A -> Prop)
    (mq : M (gui * L) A) (md : M L A) : Prop :=
  forall q out0 s,
    match md s with
    | (Returns a, s') =>
        exists a', mq (embed k q out0 s) = (Returns a', embed k q out0 s') /\ RA a' a
    | (Raises e, s') => mq (embed k q out0 s) = (Raises e, embed k q out0 s')
    end.

Definition same_dirs (wq wd : world) : Prop := forall F, get_dir F wq = get_dir F wd.

Lemma sim_ret {L A} k (RA : A -> A -> Prop) (a' a : A) :
  RA a' a -> sim (L := L) k RA (ret a') (ret a).
Proof. intros H q out0 s. simpl. eauto. Qed.

Lemma sim_raise {L A} k (RA : A -> A -> Prop) e :
  sim (L := L) k RA (raise e) (raise e).
Proof. by intros q out0 s. Qed.

Lemma sim_bind {L A B} k (RA : A -> A -> Prop) (RB : B -> B -> Prop)
    (mq : M (gui * L) A) (md : M L A) kq kd :
  sim k RA mq md ->
  (forall a' a, RA a' a -> sim k RB (kq a') (kd a)) ->
  sim k RB (bind mq kq) (bind md kd).
Proof.
  intros Hm Hk q out0 s. unfold bind. specialize (Hm q out0 s).
  destruct (md s) as [[a|e] s'].
  - destruct Hm as (a' & -> & Ha). apply (Hk a' a Ha).
  - by rewrite Hm.
Qed.

Lemma sim_try_except {L A} k (RA : A -> A -> Prop)
    (bq : M (gui * L) A) (bd : M L A) hq hd :
  sim k RA bq bd ->
  (forall e, sim k RA (hq e) (hd e)) ->
  sim k RA (try_except bq hq) (try_except bd hd).
Proof.
  intros Hb Hh q out0 s. unfold try_except. specialize (Hb q out0 s).
  destruct (bd s) as [[a|e] s'].
  - destruct Hb as (a' & -> & Ha). eauto.
  - rewrite Hb. apply Hh.
Qed.

Lemma sim_when {L} k (b : bool) (mq : M (gui * L) unit) md :
  sim k eq mq md -> sim k eq (when b mq) (when b md).
Proof. destruct b; [ done | intros _; by apply sim_ret ]. Qed.

Lemma sim_self_log {L} k e : sim (L := L) k eq (self_log (Line e)) (log e).
Proof.
  intros q out0 [w l]. simpl. exists tt. split; [ | done ].
  unfold self_log, assign, embed. simpl. by rewrite map_app, app_assoc.
Qed.

Lemma sim_local_vars {L} k : sim (L := L) k eq local_vars local.
Proof. intros q out0 [w l]. simpl. eauto. Qed.

Lemma sim_assign_vars {L} k (f : L -> L) : sim k eq (assign_vars f) (assign f).
Proof. intros q out0 [w l]. simpl. eauto. Qed.

Lemma sim_the_world {L} k : sim (L := L) k same_dirs the_world the_world.
Proof.
  intros q out0 [w l]. simpl. exists (with_stdout out0 w). split; [ done | ].
  by intros [].
Qed.

Lemma sim_set_dir {L} k F d :
  sim (L := L) k eq (update_world (set_dir F d)) (update_world (set_dir F d)).
Proof.
  intros q out0 [w l]. simpl. exists tt. split; [ | done ].
  unfold update_world, embed. simpl. by destruct F.
Qed.

(** The operations on the folders are those of the script. *)
Ltac sim_world_case Hw :=
  repeat match goal with
         | |- context [get_dir ?F ?wq] =>
             lazymatch type of Hw with
             | same_dirs wq _ => rewrite (Hw F)
             end
         end.

Ltac sim_prim :=
  repeat first
    [ apply sim_ret; reflexivity
    | apply sim_raise
    | apply sim_set_dir
    | eapply sim_bind;
      [ apply sim_the_world
      | let wq := fresh "wq" in
        let wd := fresh "wd" in
        let Hw := fresh "Hw" in
        intros wq wd Hw; cbn beta iota; sim_world_case Hw ]
    | eapply sim_bind; [ solve [ sim_prim ] | intros ? ? -> ]
    | match goal with
      | |- sim _ _ (match ?x with _ => _ end) (match ?x with _ => _ end) => destruct x
      | |- sim _ _ (if ?x then _ else _) (if ?x then _ else _) => destruct x
      end ].

Lemma sim_os_listdir {L} k F : sim (L := L) k eq (os_listdir F) (os_listdir F).
Proof.
  unfold os_listdir. eapply sim_bind; [ apply sim_the_world | ].
  intros wq wd Hw. rewrite (Hw F). by apply sim_ret.
Qed.

Lemma sim_os_path_exists {L} k F f :
  sim (L := L) k eq (os_path_exists F f) (os_path_exists F f).
Proof.
  unfold os_path_exists. eapply sim_bind; [ apply sim_the_world | ].
  intros wq wd Hw. rewrite (Hw F). by apply sim_ret.
Qed.

Lemma sim_os_remove {L} k F f : sim (L := L) k eq (os_remove F f) (os_remove F f).
Proof.
  unfold os_remove. eapply sim_bind; [ apply sim_the_world | ].
  intros wq wd Hw. cbn beta. rewrite !(Hw F). sim_prim.
Qed.

Lemma sim_put_file {L} k x G g : sim (L := L) k eq (put_file x G g) (put_file x G g).
Proof.
  unfold put_file. eapply sim_bind; [ apply sim_the_world | ].
  intros wq wd Hw. cbn beta. rewrite !(Hw G). sim_prim.
Qed.

Lemma sim_copy2_file {L} k x G g : sim (L := L) k eq (copy2_file x G g) (copy2_file x G g).
Proof. unfold copy2_file. destruct (locked x); [ apply sim_raise | apply sim_put_file ]. Qed.

Lemma sim_shutil_copy2 {L} k F f G g :
  sim (L := L) k eq (shutil_copy2 F f G g) (shutil_copy2 F f G g).
Proof.
  unfold shutil_copy2. eapply sim_bind; [ apply sim_the_world | ].
  intros wq wd Hw. cbn beta. rewrite !(Hw F).
  destruct (dir_lookup _ _); [ apply sim_copy2_file | apply sim_raise ].
Qed.

Lemma sim_shutil_move {L} k F f G g :
  sim (L := L) k eq (shutil_move F f G g) (shutil_move F f G g).
Proof.
  unfold shutil_move. eapply sim_bind; [ apply sim_the_world | ].
  intros wq wd Hw. cbn beta. rewrite !(Hw F).
  destruct (dir_lookup _ _) as [x|]; [ | apply sim_raise ].
  destruct (locked x); [ apply sim_raise | ].
  eapply sim_bind; [ apply sim_put_file | ]. intros _ _ _.
  eapply sim_bind; [ apply sim_the_world | ].
  intros wq' wd' Hw'. rewrite (Hw' F). apply sim_set_dir.
Qed.

Lemma sim_read_text {L} k F f : sim (L := L) k eq (read_text F f) (read_text F f).
Proof.
  unfold read_text. eapply sim_bind; [ apply sim_the_world | ].
  intros wq wd Hw. cbn beta. rewrite !(Hw F).
  destruct (dir_lookup _ _) as [x|]; [ | apply sim_raise ].
  destruct (locked x); [ apply sim_raise | ].
  destruct (data x); [ by apply sim_ret | apply sim_raise ].
Qed.

Lemma sim_write_text {L} k clk F f text :
  sim (L := L) k eq (write_text clk F f text) (write_text clk F f text).
Proof.
  unfold write_text. eapply sim_bind; [ apply sim_the_world | ].
  intros wq wd Hw. cbn beta. rewrite !(Hw F).
  apply (sim_bind k eq eq).
  - destruct (dir_lookup _ _) as [y|]; [ destruct (locked y) | ];
      first [ apply sim_raise | by apply sim_ret ].
  - intros _ _ _. destruct (Py.encode_utf8 text).
    + apply sim_set_dir.
    + eapply sim_bind; [ apply sim_set_dir | intros _ _ _; apply sim_raise ].
Qed.

Lemma sim_sha256_hash_or_raise {L} k text :
  sim (L := L) k eq (sha256_hash_or_raise text) (sha256_hash_or_raise text).
Proof.
  unfold sha256_hash_or_raise.
  destruct (sha256_hash text); [ by apply sim_ret | apply sim_raise ].
Qed.

Ltac sim_atom :=
  first [ apply sim_self_log | apply sim_local_vars | apply sim_assign_vars
        | apply sim_os_listdir | apply sim_os_path_exists | apply sim_os_remove
        | apply sim_put_file | apply sim_copy2_file | apply sim_shutil_copy2
        | apply sim_shutil_move | apply sim_read_text | apply sim_write_text
        | apply sim_sha256_hash_or_raise | apply sim_raise
        | (apply sim_ret; reflexivity) ].

Ltac sim_go :=
  repeat first
    [ sim_atom
    | apply sim_try_except; [ | intros ? ]
    | apply sim_when
    | eapply sim_bind;
      [ apply sim_the_world
      | let wq := fresh "wq" in
        let wd := fresh "wd" in
        let Hw := fresh "Hw" in
        intros wq wd Hw; cbn beta iota zeta;
        repeat rewrite (Hw MAIN_PDF_FOLDER);
        try (let Hr := fresh "Hr" in
             pose proof (Hw repository_folder) as Hr; simpl in Hr; rewrite !Hr; clear Hr) ]
    | apply (sim_bind _ eq eq); [ | intros ? ? -> ]
    | match goal with
      | |- sim _ _ (match ?x with _ => _ end) (match ?x with _ => _ end) => destruct x
      | |- sim _ _ (if ?x then _ else _) (if ?x then _ else _) => destruct x
      end ].

(** *** The tests of the stop event *)

(** The event lets [c] more tests pass. *)
Definition enough (c : nat) (k : option nat) : Prop :=
  match k with
  | None => True
  | Some m => (c <= m)%nat
  end.

(** The event after [c] tests that it let pass. *)
Definition after (c : nat) (k : option nat) : option nat := (fun m => (m - c)%nat) <$> k.

(** [follows mq md]: the computation [mq] of the pipeline tests the stop
    event a number [c] of times, and when the event lets these tests
    pass, [mq] does what the computation [md] of the script does. *)
Definition follows {L A} (mq : M (gui * L) A) (md : M L A) : Prop :=
  forall q out0 s, exists c, forall k, enough c k ->
    mq (embed k q out0 s) = ((md s).1, embed (after c k) q out0 (md s).2).

Lemma after_0 k : after 0 k = k.
Proof. destruct k; simpl; [ f_equal; lia | done ]. Qed.

Lemma after_add c1 c2 k : after c2 (after c1 k) = after (c1 + c2) k.
Proof. destruct k; simpl; [ f_equal; lia | done ]. Qed.

Lemma enough_add c1 c2 k : enough (c1 + c2) k -> enough c1 k /\ enough c2 (after c1 k).
Proof. destruct k; simpl; [ lia | done ]. Qed.

Lemma sim_run {L A} k (mq : M (gui * L) A) md q out0 s :
  sim k eq mq md ->
  mq (embed k q out0 s) = ((md s).1, embed k q out0 (md s).2).
Proof.
  intros H. specialize (H q out0 s). destruct (md s) as [[a|e] s']; simpl.
  - by destruct H as (a' & -> & ->).
  - done.
Qed.

Lemma sim_follows {L A} (mq : M (gui * L) A) md :
  (forall k, sim k eq mq md) -> follows mq md.
Proof.
  intros H q out0 s. exists 0%nat. intros k _. rewrite after_0. by apply sim_run.
Qed.

Lemma follows_bind {L A B} (mq : M (gui * L) A) (md : M L A)
    (kq : A -> M (gui * L) B) kd :
  follows mq md ->
  (forall a, follows (kq a) (kd a)) ->
  follows (bind mq kq) (bind md kd).
Proof.
  intros Hm Hk q out0 s. unfold bind. destruct (Hm q out0 s) as [c1 H1].
  destruct (md s) as [[a|e] s']; simpl in H1.
  - destruct (Hk a q out0 s') as [c2 H2].
    exists (c1 + c2)%nat. intros k Hc. apply enough_add in Hc as [Hc1 Hc2].
    rewrite (H1 k Hc1), (H2 _ Hc2). by rewrite after_add.
  - exists c1. intros k Hc. by rewrite (H1 k Hc).
Qed.

Lemma follows_bind_ret {L A B} (mq : M (gui * L) A) (a : A)
    (kq : A -> M (gui * L) B) (md : M L B) :
  follows mq (ret a) ->
  follows (kq a) md ->
  follows (bind mq kq) md.
Proof.
  intros Hm Hk q out0 s. unfold bind. destruct (Hm q out0 s) as [c1 H1].
  simpl in H1. destruct (Hk q out0 s) as [c2 H2].
  exists (c1 + c2)%nat. intros k Hc. apply enough_add in Hc as [Hc1 Hc2].
  rewrite (H1 k Hc1), (H2 _ Hc2). by rewrite after_add.
Qed.

Lemma follows_the_world {L B} (kq : world -> M (gui * L) B) kd :
  (forall wq wd, same_dirs wq wd -> follows (kq wq) (kd wd)) ->
  follows (bind the_world kq) (bind the_world kd).
Proof.
  intros Hk q out0 [w l]. unfold bind. simpl.
  apply (Hk (with_stdout out0 w) w). by intros [].
Qed.

Lemma follows_try_except {L A} (bq : M (gui * L) A) (bd : M L A) hq hd :
  follows bq bd ->
  (forall e, follows (hq e) (hd e)) ->
  follows (try_except bq hq) (try_except bd hd).
Proof.
  intros Hb Hh q out0 s. unfold try_except. destruct (Hb q out0 s) as [c1 H1].
  destruct (bd s) as [[a|e] s']; simpl in H1.
  - exists c1. intros k Hc. by rewrite (H1 k Hc).
  - destruct (Hh e q out0 s') as [c2 H2].
    exists (c1 + c2)%nat. intros k Hc. apply enough_add in Hc as [Hc1 Hc2].
    rewrite (H1 k Hc1), (H2 _ Hc2). by rewrite after_add.
Qed.

Lemma follows_ret {L A} (a : A) : follows (L := L) (ret a) (ret a).
Proof. apply sim_follows. intros k. by apply sim_ret. Qed.

Lemma follows_when {L} (b : bool) (mq : M (gui * L) unit) md :
  follows mq md -> follows (when b mq) (when b md).
Proof. destruct b; [ done | intros _; apply follows_ret ]. Qed.

Lemma follows_method_call {L L' A} (init : L') (mq : M (gui * L') A) (md : M L' A) :
  follows mq md -> follows (L := L) (method_call init mq) (call init md).
Proof.
  intros Hm q out0 [w l]. unfold call, method_call. simpl.
  destruct (Hm q out0 (w, init)) as [c H]. exists c. intros k Hc.
  specialize (H k Hc). unfold embed in H. simpl in H. rewrite H.
  by destruct (md (w, init)) as [r [w' l']].
Qed.

(** A test that the event lets pass. *)
Lemma follows_is_set {L} : follows (L := L) is_set (ret false).
Proof.
  intros q out0 [w l]. exists 1%nat. intros [[|m]|] Hk; simpl in *; [ lia | | done ].
  unfold is_set, embed. simpl. by rewrite Nat.sub_0_r.
Qed.

Lemma follows_unless_stopped {L} (rest : M (gui * L) unit) md :
  follows rest md -> follows (unless_stopped rest) md.
Proof.
  intros H. unfold unless_stopped.
  apply (follows_bind_ret is_set false); [ apply follows_is_set | exact H ].
Qed.

Lemma follows_for_each_until_stop {L X} (xs : list X) (bq : X -> M (gui * L) unit) bd :
  (forall x, follows (bq x) (bd x)) ->
  follows (for_each_until_stop xs bq) (for_each xs bd).
Proof.
  intros Hb. induction xs as [|x xs IH]; simpl.
  - apply follows_ret.
  - apply (follows_bind_ret is_set false); [ apply follows_is_set | ].
    apply follows_bind; [ apply Hb | intros _; apply IH ].
Qed.

Ltac follows_go :=
  repeat first
    [ apply sim_follows; intros ?; solve [ sim_go ]
    | apply follows_bind; [ | intros ? ] ].

(** *** The methods, when the stop event lets their tests pass *)

Lemma sim_process_file k x filename :
  sim k eq (InvoicePipeline_process_file x filename) (process_file x filename).
Proof. unfold InvoicePipeline_process_file, process_file. sim_go. Qed.

Lemma follows_copy_pdfs_to_main_folder {L} source_folder :
  follows (L := L) (InvoicePipeline_copy_pdfs_to_main_folder source_folder)
          (copy_pdfs_to_main_folder source_folder).
Proof.
  unfold InvoicePipeline_copy_pdfs_to_main_folder, copy_pdfs_to_main_folder.
  apply follows_method_call, follows_unless_stopped.
  apply follows_bind; [ follows_go | intros _ ].
  apply follows_try_except; [ | intros e; follows_go ].
  apply follows_bind.
  { apply sim_follows. intros k.
    destruct source_folder; [ by apply sim_ret | apply sim_raise ]. }
  intros entries. cbn zeta.
  apply follows_bind; [ | intros _; follows_go ].
  destruct (existsb _ _).
  - apply follows_for_each_until_stop. intros files.
    apply follows_for_each_until_stop. intros e.
    apply sim_follows. intros k. apply sim_process_file.
  - apply follows_for_each_until_stop. intros e. apply sim_follows. intros k.
    destruct (e.2); [ apply sim_process_file | by apply sim_ret ].
Qed.

Lemma follows_extract_text_from_pdf {L} at_path :
  follows (L := L) (InvoicePipeline_extract_text_from_pdf at_path)
          (ret (extract_text_from_pdf at_path)).
Proof.
  unfold InvoicePipeline_extract_text_from_pdf.
  apply (follows_bind_ret is_set false); [ apply follows_is_set | apply follows_ret ].
Qed.

Lemma follows_extract_texts {L} :
  follows (L := L) InvoicePipeline_extract_texts extract_texts.
Proof.
  unfold InvoicePipeline_extract_texts, extract_texts.
  apply follows_method_call, follows_unless_stopped.
  apply follows_bind; [ follows_go | intros _ ].
  apply follows_bind; [ follows_go | intros listing ].
  apply follows_bind; [ | intros _; follows_go ].
  apply follows_for_each_until_stop. intros f.
  unfold InvoicePipeline_extract_file. apply follows_when.
  apply follows_the_world. intros wq wd Hw. rewrite (Hw MAIN_PDF_FOLDER).
  eapply follows_bind_ret; [ apply follows_extract_text_from_pdf | ].
  destruct (extract_text_from_pdf _) as [text method]. simpl.
  apply sim_follows. intros k. destruct text; sim_go.
Qed.

Lemma sim_dedup_file k f : sim k eq (InvoicePipeline_dedup_file f) (dedup_file f).
Proof. unfold InvoicePipeline_dedup_file, dedup_file. sim_go. Qed.

Lemma follows_deduplicate_text_files {L} :
  follows (L := L) InvoicePipeline_deduplicate_text_files deduplicate_text_files.
Proof.
  unfold InvoicePipeline_deduplicate_text_files, deduplicate_text_files, deduplicate_loop.
  apply follows_method_call, follows_unless_stopped.
  apply follows_bind; [ follows_go | intros _ ].
  apply follows_bind; [ follows_go | intros listing ].
  cbn zeta.
  apply follows_bind; [ | intros _; follows_go ].
  apply follows_for_each_until_stop. intros f. apply sim_follows. intros k.
  apply sim_dedup_file.
Qed.

Lemma sim_add_repo_hash k f : sim k eq (InvoicePipeline_add_repo_hash f) (add_repo_hash f).
Proof. unfold InvoicePipeline_add_repo_hash, add_repo_hash. sim_go. Qed.

Lemma sim_compare_file k f : sim k eq (InvoicePipeline_compare_file f) (compare_file f).
Proof. unfold InvoicePipeline_compare_file, compare_file. sim_go. Qed.

Lemma sim_copy_exception_pdf k f :
  sim k eq (InvoicePipeline_copy_exception_pdf f) (copy_exception_pdf f).
Proof. unfold InvoicePipeline_copy_exception_pdf, copy_exception_pdf. sim_go. Qed.

Lemma follows_cross_compare_with_repository {L} :
  follows (L := L) InvoicePipeline_cross_compare_with_repository
          cross_compare_with_repository.
Proof.
  unfold InvoicePipeline_cross_compare_with_repository, cross_compare_with_repository,
    cross_compare_body, build_repo_hashes, compare_extracted, copy_exception_pdfs.
  apply follows_method_call, follows_unless_stopped.
  apply follows_bind; [ follows_go | intros _ ].
  apply follows_bind.
  { apply follows_bind; [ follows_go | intros listing ].
    apply follows_for_each_until_stop. intros f. apply sim_follows. intros k.
    apply sim_add_repo_hash. }
  intros _. apply follows_bind.
  { apply follows_bind; [ follows_go | intros listing ].
    apply follows_for_each_until_stop. intros f. apply sim_follows. intros k.
    apply sim_compare_file. }
  intros _. apply follows_bind.
  { apply follows_bind; [ follows_go | intros listing ].
    apply follows_for_each_until_stop. intros f. apply sim_follows. intros k.
    apply sim_copy_exception_pdf. }
  intros _. follows_go.
Qed.

Lemma sim_file_text k now f : sim k eq (InvoicePipeline_file_text now f) (file_text now f).
Proof.
  unfold InvoicePipeline_file_text, file_text. apply sim_when. cbn zeta.
  eapply sim_bind; [ apply sim_the_world | ]. intros wq wd Hw.
  pose proof (Hw repository_folder) as Hr. simpl in Hr. rewrite !Hr.
  destruct (resolve_name _ _ _ _ _) as [[new_name c]|]; sim_go.
Qed.

Lemma follows_update_repository {L} now :
  follows (L := L) (InvoicePipeline_update_repository now) (update_repository now).
Proof.
  unfold InvoicePipeline_update_repository, update_repository.
  apply follows_method_call, follows_unless_stopped.
  apply follows_bind; [ follows_go | intros _ ].
  apply follows_bind; [ follows_go | intros listing ].
  apply follows_bind; [ | intros _; follows_go ].
  apply follows_for_each_until_stop. intros f. apply sim_follows. intros k.
  apply sim_file_text.
Qed.

Lemma sim_move_leftover {L} k f :
  sim (L := L) k eq (InvoicePipeline_move_leftover f)
      (try_except
         (shutil_move MAIN_PDF_FOLDER f EXCEPTION_FOLDER f;;
          log (Moved_leftover_PDF f))
         (fun e => log (Failed_to_move_leftover_PDF f e))).
Proof. unfold InvoicePipeline_move_leftover. sim_go. Qed.

Lemma follows_cleanup_main_pdf_folder {L} :
  follows (L := L) InvoicePipeline_cleanup_main_pdf_folder cleanup_main_pdf_folder.
Proof.
  unfold InvoicePipeline_cleanup_main_pdf_folder, cleanup_main_pdf_folder.
  apply follows_unless_stopped.
  apply follows_bind; [ follows_go | intros listing ].
  cbn zeta. destruct (filter _ _) as [|g leftover]; [ follows_go | ].
  apply follows_bind; [ follows_go | intros _ ].
  apply follows_for_each_until_stop. intros f. apply sim_follows. intros k.
  apply sim_move_leftover.
Qed.

(** *** The run *)

(** [ends fin mq md]: as [follows], and when the computation of the
    script returns, that of the pipeline goes on with [fin]. *)
Definition ends (fin mq : M (gui * unit) unit) (md : M unit unit) : Prop :=
  forall q out0 s, exists c, forall k, enough c k ->
    mq (embed k q out0 s) =
    match md s with
    | (Returns _, s') => fin (embed (after c k) q out0 s')
    | (Raises e, s') => (Raises e, embed (after c k) q out0 s')
    end.

Lemma ends_last fin (mq : M (gui * unit) unit) md :
  follows mq md -> ends fin (mq;; fin) md.
Proof.
  intros Hm q out0 s. destruct (Hm q out0 s) as [c H]. exists c. intros k Hk.
  unfold bind. rewrite (H k Hk). by destruct (md s) as [[[]|e] s'].
Qed.

Lemma is_set_passes {L} c k q out0 (s : world * L) :
  enough 1 (after c k) ->
  is_set (embed (after c k) q out0 s) = (Returns false, embed (after (c + 1) k) q out0 s).
Proof.
  rewrite <- after_add.
  destruct (after c k) as [[|m]|]; simpl; [ lia | | done ].
  intros _. unfold is_set, embed. simpl. by rewrite Nat.sub_0_r.
Qed.

Lemma ends_last_tested fin (mq : M (gui * unit) unit) md :
  follows mq md -> ends fin (mq;; unless_stopped fin) md.
Proof.
  intros Hm q out0 s. destruct (Hm q out0 s) as [c H].
  destruct (md s) as [[[]|e] s'] eqn:E; simpl in H.
  - exists (c + 1)%nat. intros k Hk. apply enough_add in Hk as [Hk1 Hk2].
    unfold bind. rewrite (H k Hk1). unfold unless_stopped, bind.
    by rewrite is_set_passes.
  - exists c. intros k Hk. unfold bind. by rewrite (H k Hk).
Qed.

Lemma ends_step fin (mq : M (gui * unit) unit) (md : M unit unit) restq restd :
  follows mq md -> ends fin restq restd ->
  ends fin (mq;; unless_stopped restq) (md;; restd).
Proof.
  intros Hm Hr q out0 s. destruct (Hm q out0 s) as [c1 H1]. unfold bind at 2.
  destruct (md s) as [[[]|e] s'] eqn:E; simpl in H1.
  - destruct (Hr q out0 s') as [c2 H2]. exists (c1 + 1 + c2)%nat. intros k Hk.
    apply enough_add in Hk as [Hk1 Hk3]. apply enough_add in Hk1 as [Hk1 Hk2].
    unfold bind at 1. rewrite (H1 k Hk1).
    unfold unless_stopped, bind. rewrite is_set_passes by done.
    rewrite (H2 _ Hk3). by rewrite !after_add.
  - exists c1. intros k Hk. unfold bind. by rewrite (H1 k Hk).
Qed.

Lemma map_Line_inj (l l' : list event) : map Line l = map Line l' -> l = l'.
Proof.
  revert l'. induction l as [|a l IH]; intros [|b l']; simpl; try done.
  intros [= -> ?]. f_equal. by apply IH.
Qed.

Lemma with_stdout_eq out w1 w2 :
  with_stdout [] w1 = with_stdout [] w2 -> stdout w2 = out -> w2 = with_stdout out w1.
Proof. destruct w1, w2. unfold with_stdout. simpl. by intros [= -> -> -> -> -> ->] ->. Qed.

(** What the script prints does not depend on what has been printed. *)
Lemma follows_prints {L A} (mq : M (gui * L) A) (md : M L A) e w l :
  follows mq md ->
  md (with_stdout (e :: stdout w) w, l)
  = match md (w, l) with
    | (r, (w', l')) => (r, (with_stdout (e :: stdout w') w', l'))
    end.
Proof.
  intros H.
  destruct (H [Line e] [] (w, l)) as [c1 H1]. specialize (H1 None I).
  destruct (H [] [] (with_stdout (e :: stdout w) w, l)) as [c2 H2].
  specialize (H2 None I).
  assert (embed None [] [] (with_stdout (e :: stdout w) w, l)
          = embed None [Line e] [] (w, l)) as E by done.
  rewrite E, H1 in H2. clear E H1.
  destruct (md (w, l)) as [r [w1 l1]],
           (md (with_stdout (e :: stdout w) w, l)) as [r' [w2 l2]].
  unfold embed in H2. simpl in H2.
  assert (with_stdout [] w1 = with_stdout [] w2) as Hw by congruence.
  assert (map Line (e :: stdout w1) = map Line (stdout w2)) as Hq by (simpl; congruence).
  apply map_Line_inj in Hq.
  assert (r = r') as <- by congruence.
  assert (l1 = l2) as <- by congruence.
  by rewrite (with_stdout_eq (e :: stdout w1) w1 w2).
Qed.

Lemma follows_step {L} (mq : M (gui * L) unit) (md : M L unit) restq restd :
  follows mq md -> follows restq restd ->
  follows (mq;; unless_stopped restq) (md;; restd).
Proof.
  intros Hm Hr. apply follows_bind; [ done | intros _ ]. by apply follows_unless_stopped.
Qed.

Lemma follows_stages {L} source_folder now :
  follows (L := L)
    (InvoicePipeline_copy_pdfs_to_main_folder source_folder;;
     unless_stopped
       (InvoicePipeline_extract_texts;;
        unless_stopped
          (InvoicePipeline_deduplicate_text_files;;
           unless_stopped
             (InvoicePipeline_cross_compare_with_repository;;
              unless_stopped
                (InvoicePipeline_update_repository now;;
                 unless_stopped InvoicePipeline_cleanup_main_pdf_folder)))))
    (copy_pdfs_to_main_folder source_folder;;
     extract_texts;;
     deduplicate_text_files;;
     cross_compare_with_repository;;
     update_repository now;;
     cleanup_main_pdf_folder).
Proof.
  apply follows_step; [ apply follows_copy_pdfs_to_main_folder | ].
  apply follows_step; [ apply follows_extract_texts | ].
  apply follows_step; [ apply follows_deduplicate_text_files | ].
  apply follows_step; [ apply follows_cross_compare_with_repository | ].
  apply follows_step; [ apply follows_update_repository | ].
  apply follows_cleanup_main_pdf_folder.
Qed.

Lemma ends_stages source_folder now :
  ends (self_log Pipeline_completed)
    (InvoicePipeline_copy_pdfs_to_main_folder source_folder;;
     unless_stopped
       (InvoicePipeline_extract_texts;;
        unless_stopped
          (InvoicePipeline_deduplicate_text_files;;
           unless_stopped
             (InvoicePipeline_cross_compare_with_repository;;
              unless_stopped
                (InvoicePipeline_update_repository now;;
                 unless_stopped
                   (InvoicePipeline_cleanup_main_pdf_folder;;
                    self_log Pipeline_completed))))))
    (copy_pdfs_to_main_folder source_folder;;
     extract_texts;;
     deduplicate_text_files;;
     cross_compare_with_repository;;
     update_repository now;;
     cleanup_main_pdf_folder).
Proof.
  apply ends_step; [ apply follows_copy_pdfs_to_main_folder | ].
  apply ends_step; [ apply follows_extract_texts | ].
  apply ends_step; [ apply follows_deduplicate_text_files | ].
  apply ends_step; [ apply follows_cross_compare_with_repository | ].
  apply ends_step; [ apply follows_update_repository | ].
  apply ends_last, follows_cleanup_main_pdf_folder.
Qed.

Lemma ends_stages_before_cleanup source_folder now :
  ends (InvoicePipeline_cleanup_main_pdf_folder;; self_log Pipeline_completed)
    (InvoicePipeline_copy_pdfs_to_main_folder source_folder;;
     unless_stopped
       (InvoicePipeline_extract_texts;;
        unless_stopped
          (InvoicePipeline_deduplicate_text_files;;
           unless_stopped
             (InvoicePipeline_cross_compare_with_repository;;
              unless_stopped
                (InvoicePipeline_update_repository now;;
                 unless_stopped
                   (InvoicePipeline_cleanup_main_pdf_folder;;
                    self_log Pipeline_completed))))))
    (copy_pdfs_to_main_folder source_folder;;
     extract_texts;;
     deduplicate_text_files;;
     cross_compare_with_repository;;
     update_repository now).
Proof.
  apply ends_step; [ apply follows_copy_pdfs_to_main_folder | ].
  apply ends_step; [ apply follows_extract_texts | ].
  apply ends_step; [ apply follows_deduplicate_text_files | ].
  apply ends_step; [ apply follows_cross_compare_with_repository | ].
  apply ends_last_tested, follows_update_repository.
Qed.

Lemma ensure_folders_run k q w :
  InvoicePipeline_ensure_folders (L := unit) (w, (Gui k q, tt))
  = (Returns tt, embed k (q ++ [Ensured_folder_structure]) (stdout w) (with_stdout [] w, tt)).
Proof.
  unfold InvoicePipeline_ensure_folders, self_log, assign, embed. simpl.
  rewrite app_nil_r. by destruct w.
Qed.

(** X17.  The pipeline class does what the script does, when the stop event
    lets its tests pass: from the same folders, and with the same file
    at the path of the source folder and the same time of day, a run of
    [run_full_pipeline] leaves the folders as [main] leaves them, and
    the lines on its queue are those that [main] prints, with the line
    of [ensure_folders] for the banner and the last line of the
    pipeline for that of the script.  The number [c] is that of the
    tests of the event in the run: a stop that comes after them changes
    nothing. *)
Theorem pipeline_does_what_the_script_does (source_folder : option tree) now w q :
  timestamp_ok now ->
  exists c w' lines dfs,
    main source_folder now (with_stdout [] w, tt) = (Returns dfs, (w', tt))
    /\ stdout w' = [Version_banner] ++ lines ++ [All_tasks_completed]
    /\ forall k, enough c k ->
         InvoicePipeline_run_full_pipeline source_folder now (w, (Gui k q, tt))
         = (Returns tt,
            (with_stdout (stdout w) w',
             (Gui (after c k)
                (q ++ [Ensured_folder_structure] ++ map Line lines ++ [Pipeline_completed]),
              tt))).
Proof.
  intros Hok. set (w0 := with_stdout [] w).
  destruct (copy_pdfs_to_main_folder_frame (L := unit) source_folder w0 tt) as (w1 & R1 & _).
  destruct (extract_texts_frame (L := unit) w1 tt) as (w2 & R2 & _).
  destruct (deduplicate_text_files_frame (L := unit) w2 tt) as (w3 & R3 & _).
  destruct (cross_compare_with_repository_frame (L := unit) w3 tt) as (w4 & R4 & _).
  destruct (update_repository_frame (L := unit) now w4 tt Hok) as (w5 & R5 & _).
  destruct (cleanup_main_pdf_folder_frame (L := unit) w5 tt) as (w6 & R6 & _).
  pose proof (follows_prints _ _ Version_banner w0 tt
                (follows_stages source_folder now)) as Hp.
  destruct (ends_stages source_folder now (q ++ [Ensured_folder_structure]) (stdout w)
              (w0, tt)) as [c Hrun].
  rewrite (bind_run _ _ _ _ _ R1), (bind_run _ _ _ _ _ R2), (bind_run _ _ _ _ _ R3),
    (bind_run _ _ _ _ _ R4), (bind_run _ _ _ _ _ R5), R6 in Hp, Hrun.
  exists c, (print All_tasks_completed (with_stdout (Version_banner :: stdout w6) w6)),
    (stdout w6).
  eexists. split; [ | split ].
  - unfold main, ensure_folders.
    rewrite (bind_run (log Version_banner) _ (w0, tt) tt
               (with_stdout (Version_banner :: stdout w0) w0, tt)) by done.
    rewrite (bind_run (ret tt) _ _ tt _) by done.
    set (rest := (log All_tasks_completed;;
                  df_duplicates ← get_duplicate_invoices_dataframe;
                  df_unique ← get_unique_invoices_dataframe;
                  ret (df_duplicates, df_unique)) : M unit (list row * list row)).
    transitivity
      (((copy_pdfs_to_main_folder source_folder;;
         extract_texts;;
         deduplicate_text_files;;
         cross_compare_with_repository;;
         update_repository now;;
         cleanup_main_pdf_folder);; rest)
         (with_stdout (Version_banner :: stdout w0) w0, tt)).
    { symmetry. repeat (rewrite bind_assoc; apply bind_ext; intros ? ?). reflexivity. }
    unfold bind at 1. rewrite Hp. unfold rest.
    unfold get_duplicate_invoices_dataframe, get_unique_invoices_dataframe,
      list_files_as_dataframe, bind, log, update_world, the_world, ret.
    simpl. reflexivity.
  - done.
  - intros k Hk. specialize (Hrun k Hk).
    unfold InvoicePipeline_run_full_pipeline, try_except.
    unfold bind at 1. rewrite ensure_folders_run. fold w0. rewrite Hrun.
    unfold self_log, assign, embed. simpl. by rewrite <- !app_assoc.
Qed.

(** X18.  Once the stop event is set, a stage that is called returns at once:
    it touches no file and logs nothing; and a run that starts then
    logs the line of [ensure_folders] and no other, not that of a
    completed run. *)
Theorem stop_request_skips_every_stage {L} (source_folder : option tree) now w q (l : L) :
  let stopped := (w, (Gui (Some 0%nat) q, l)) in
  InvoicePipeline_copy_pdfs_to_main_folder source_folder stopped = (Returns tt, stopped)
  /\ InvoicePipeline_extract_texts stopped = (Returns tt, stopped)
  /\ InvoicePipeline_deduplicate_text_files stopped = (Returns tt, stopped)
  /\ InvoicePipeline_cross_compare_with_repository stopped = (Returns tt, stopped)
  /\ InvoicePipeline_update_repository now stopped = (Returns tt, stopped)
  /\ InvoicePipeline_cleanup_main_pdf_folder stopped = (Returns tt, stopped)
  /\ InvoicePipeline_run_full_pipeline source_folder now (w, (Gui (Some 0%nat) q, tt))
     = (Returns tt, (w, (Gui (Some 0%nat) (q ++ [Ensured_folder_structure]), tt))).
Proof. by repeat split. Qed.

(** X21.  A stop that comes between the test of [run_full_pipeline] before the
    cleanup and the test of [cleanup_main_pdf_folder] itself: the
    cleanup is skipped, the PDFs that it would have moved stay in the
    staging folder, and the run logs that the pipeline is completed.
    For some number [n] of tests that the event lets pass, the run ends
    in the state from which the run that is not stopped still makes the
    cleanup. *)
Theorem completion_is_logged_when_the_cleanup_is_skipped
    (source_folder : option tree) now w q :
  timestamp_ok now ->
  exists n w5 lines,
    InvoicePipeline_run_full_pipeline source_folder now (w, (Gui (Some n) q, tt))
    = (Returns tt, (w5, (Gui (Some 0%nat) (q ++ lines ++ [Pipeline_completed]), tt)))
    /\ InvoicePipeline_run_full_pipeline source_folder now (w, (Gui None q, tt))
       = (InvoicePipeline_cleanup_main_pdf_folder;; self_log Pipeline_completed)
           (w5, (Gui None (q ++ lines), tt)).
Proof.
  intros Hok. set (w0 := with_stdout [] w).
  destruct (copy_pdfs_to_main_folder_frame (L := unit) source_folder w0 tt) as (w1 & R1 & _).
  destruct (extract_texts_frame (L := unit) w1 tt) as (w2 & R2 & _).
  destruct (deduplicate_text_files_frame (L := unit) w2 tt) as (w3 & R3 & _).
  destruct (cross_compare_with_repository_frame (L := unit) w3 tt) as (w4 & R4 & _).
  destruct (update_repository_frame (L := unit) now w4 tt Hok) as (w5 & R5 & _).
  destruct (ends_stages_before_cleanup source_folder now (q ++ [Ensured_folder_structure])
              (stdout w) (w0, tt)) as [c Hrun].
  rewrite (bind_run _ _ _ _ _ R1), (bind_run _ _ _ _ _ R2), (bind_run _ _ _ _ _ R3),
    (bind_run _ _ _ _ _ R4), R5 in Hrun.
  exists c, (with_stdout (stdout w) w5),
    ([Ensured_folder_structure] ++ map Line (stdout w5)).
  split.
  - unfold InvoicePipeline_run_full_pipeline, try_except.
    unfold bind at 1. rewrite ensure_folders_run. fold w0.
    rewrite (Hrun (Some c)) by (simpl; lia).
    simpl. rewrite Nat.sub_diag.
    unfold bind, InvoicePipeline_cleanup_main_pdf_folder, unless_stopped, bind, is_set,
      self_log, assign, embed.
    simpl. by rewrite <- !app_assoc.
  - destruct (cleanup_main_pdf_folder_frame (L := unit) w5 tt) as (w6 & R6 & _).
    destruct (follows_cleanup_main_pdf_folder (L := unit) (q ++ [Ensured_folder_structure])
                (stdout w) (w5, tt)) as [c' Hc'].
    specialize (Hc' None I). rewrite R6 in Hc'. simpl in Hc'.
    assert ((with_stdout (stdout w) w5,
             (Gui None (q ++ [Ensured_folder_structure] ++ map Line (stdout w5)), tt))
            = embed None (q ++ [Ensured_folder_structure]) (stdout w) (w5, tt)) as ->.
    { unfold embed. simpl. by rewrite <- app_assoc. }
    unfold InvoicePipeline_run_full_pipeline, try_except.
    unfold bind at 1. rewrite ensure_folders_run. fold w0. rewrite (Hrun None I).
    simpl. unfold bind. by rewrite Hc'.
Qed.

(** *** A stop between two files *)

(** A loop whose body does not test the stop event: when the event lets
    [n] tests pass, the loop is that of the script on the first [n]
    entries. *)
Lemma for_each_until_stop_take {L X} (xs : list X) (bq : X -> M (gui * L) unit) bd
    n q out0 s :
  (forall x k, sim k eq (bq x) (bd x)) ->
  (for_each (take n xs) bd s).1 = Returns tt ->
  for_each_until_stop xs bq (embed (Some n) q out0 s)
  = (Returns tt, embed (Some (n - length xs)%nat) q out0 (for_each (take n xs) bd s).2).
Proof.
  intros Hb. revert n s. induction xs as [|x xs IH]; intros n s Hret.
  - simpl. rewrite take_nil. simpl. by rewrite Nat.sub_0_r.
  - destruct n as [|n]; [ done | ].
    change (for_each_until_stop (x :: xs) bq)
      with (stopped ← is_set;
            if stopped then ret tt else (bq x;; for_each_until_stop xs bq)).
    unfold bind at 1.
    assert (is_set (embed (Some (S n)) q out0 s)
            = (Returns false, embed (Some n) q out0 s)) as -> by done.
    unfold bind at 1. rewrite (sim_run _ _ _ _ _ _ (Hb x (Some n))).
    rewrite firstn_cons in Hret |- *.
    change (for_each (x :: take n xs) bd s)
      with (bind (bd x) (fun _ => for_each (take n xs) bd) s) in Hret |- *.
    unfold bind in Hret |- *.
    destruct (bd x s) as [[[]|e] s1]; [ | done ]. simpl.
    by rewrite (IH n s1 Hret).
Qed.

(** The invariant of the updater, for a loop that ends before the
    entries [rest]: the entries [reached] are those that the loop was
    given. *)
Definition update_cut (w0 : world) (reached rest rem : list pystr) (s : world * nat) : Prop :=
  (exists added fs, update_going w0 added fs (rem ++ rest) s)
  /\ (forall g, g ∈ rem -> g ∈ reached)
  /\ (forall g, g ∉ reached ->
        dir_lookup (extracted_text s.1) g = dir_lookup (extracted_text w0) g)
  /\ main_pdf s.1 = main_pdf w0 /\ exception_dir s.1 = exception_dir w0
  /\ unique_invoices s.1 = unique_invoices w0
  /\ duplicates_invoices s.1 = duplicates_invoices w0.

Lemma update_cut_step now w0 reached rest f rem s s' :
  update_cut w0 reached rest (f :: rem) s ->
  (exists k, filed_step now f k s s') \/ skipped_step f s s' ->
  update_cut w0 reached rest rem s'.
Proof.
  intros (Hgo & Hsub & Hout & Hm & He & Hu & Hd) Hstep.
  split; [ by apply (update_going_step now w0 f (rem ++ rest) s s') | ].
  split; [ intros g Hg; apply Hsub; by right | ].
  assert (f ∈ reached) as Hf by (apply Hsub; by left).
  destruct s as [w c], s' as [w' c']. simpl in *.
  destruct Hstep as [(k & x & _ & _ & _ & _ & _ & _ & Hext & Hm' & He' & Hu' & Hd' & _)
                    |(_ & (Hm' & Hext & He' & Hu' & Hd' & _) & _)]; simpl in *.
  - split; [ | by rewrite Hm', He', Hu', Hd' ].
    intros g Hg. rewrite Hext, dir_lookup_remove_ne; [ by apply Hout | ].
    by intros ->.
  - split; [ | by rewrite Hm', He', Hu', Hd' ].
    intros g Hg. rewrite Hext. by apply Hout.
Qed.

Lemma update_cut_run now w0 n c0 :
  timestamp_ok now ->
  (exists added fs, update_going w0 added fs (names (extracted_text w0)) (w0, c0)) ->
  exists s',
    for_each (take n (names (extracted_text w0))) (file_text now) (w0, c0) = (Returns tt, s')
    /\ update_cut w0 (take n (names (extracted_text w0)))
         (drop n (names (extracted_text w0))) [] s'.
Proof.
  intros Hok H0.
  apply (file_text_loop_steps now
           (update_cut w0 (take n (names (extracted_text w0)))
              (drop n (names (extracted_text w0)))) Hok).
  - intros f rem s s'. apply update_cut_step.
  - split; [ by rewrite take_drop | ]. done.
Qed.

Lemma update_repository_cut {L} now w q (l : L) n w1 c1 :
  for_each (take n (names (extracted_text w))) (file_text now)
    (print Updating_repository (with_stdout [] w), 0%nat) = (Returns tt, (w1, c1)) ->
  InvoicePipeline_update_repository now (w, (Gui (Some (S n)) q, l))
  = (Returns tt,
     (with_stdout (stdout w) w1,
      (Gui (Some (n - length (names (extracted_text w)))%nat)
         (q ++ map Line (stdout w1) ++ [Line (Moved_and_renamed_count c1)]), l))).
Proof.
  intros Hloop. unfold InvoicePipeline_update_repository, method_call, unless_stopped.
  unfold bind at 1. cbn [is_set fst snd stop_event queue].
  assert ((w, (Gui (Some n) q, 0%nat))
          = embed (Some n) q (stdout w) (with_stdout [] w, 0%nat)) as ->.
  { unfold embed. simpl. rewrite app_nil_r. by destruct w. }
  unfold bind at 1. rewrite (sim_run _ _ _ _ _ _ (sim_self_log (Some n) Updating_repository)).
  change (log Updating_repository (with_stdout [] w, 0%nat))
    with (Returns tt, (print Updating_repository (with_stdout [] w), 0%nat)).
  cbn [fst snd].
  unfold bind at 1.
  rewrite (sim_run _ _ _ _ _ _ (sim_os_listdir (Some n) EXTRACTED_TEXT_FOLDER)).
  change (os_listdir EXTRACTED_TEXT_FOLDER
            (print Updating_repository (with_stdout [] w), 0%nat))
    with (Returns (names (extracted_text w)),
          (print Updating_repository (with_stdout [] w), 0%nat)).
  cbn [fst snd].
  unfold bind at 1.
  rewrite (for_each_until_stop_take _ _ (file_text now)), Hloop;
    [ | intros; apply sim_file_text | by rewrite Hloop ].
  unfold bind, local_vars, self_log, assign, embed. simpl.
  by rewrite <- app_assoc.
Qed.

(** X19.  A stop that comes while the updater files the batch, after [n] of
    its tests in the loop: the updater has met the first [n] entries of
    the listing and no other.  What it filed is among them, each file
    whole and under a new name at the end of the repository; the
    entries that it did not file are in the batch as they were, with
    every text artifact that is not held and was not reached; no other
    folder has changed; and the count in the last line is that of the
    files it filed. *)
Theorem a_stopped_update_files_the_entries_reached {L} now w q (l : L) n :
  timestamp_ok now ->
  exists w' lines added fs,
    InvoicePipeline_update_repository now (w, (Gui (Some (S n)) q, l))
    = (Returns tt,
       (w', (Gui (Some (n - length (names (extracted_text w)))%nat) (q ++ lines), l)))
    /\ last lines = Some (Line (Moved_and_renamed_count (length added)))
    /\ repository w' = repository w ++ added
    /\ Forall2 (fun e f => is_txt f = true /\ dir_lookup (extracted_text w) f = Some e.2)
         added fs
    /\ (forall f, f ∈ fs -> f ∈ take n (names (extracted_text w)))
    /\ (length added <= n)%nat
    /\ (forall f, f ∈ fs -> dir_lookup (extracted_text w') f = None)
    /\ (forall f, f ∉ fs ->
          dir_lookup (extracted_text w') f = dir_lookup (extracted_text w) f)
    /\ (forall f x, is_txt f = true -> dir_lookup (extracted_text w) f = Some x ->
                    locked x = false ->
                    f ∈ drop n (names (extracted_text w)) \/ f ∈ fs)
    /\ main_pdf w' = main_pdf w /\ exception_dir w' = exception_dir w
    /\ unique_invoices w' = unique_invoices w
    /\ duplicates_invoices w' = duplicates_invoices w
    /\ stdout w' = stdout w.
Proof.
  intros Hok. set (w0 := print Updating_repository (with_stdout [] w)).
  assert (H0 : exists added fs,
             update_going w0 added fs (names (extracted_text w0)) (w0, 0%nat)).
  { exists [], []. unfold update_going. simpl. rewrite app_nil_r.
    split; [ done | ]. split; [ constructor | ]. split; [ constructor | ].
    split; [ constructor | ]. split; [ constructor | ].
    split; [ intros g Hg; by apply elem_of_nil in Hg | ]. split; [ done | ].
    split; [ by left | ]. split; [ | done ].
    intros g x _ Hx _. left. apply dir_lookup_is_Some. by rewrite Hx. }
  destruct (update_cut_run now w0 n 0%nat Hok H0) as ([w1 c1] & Hloop & Hcut).
  destruct Hcut as ((added & fs & Hgo) & _ & Hout & Hm & He & Hu & Hd).
  destruct Hgo as (Hrepo & Hfresh & Hnames & Hfs & Hall & Hgone & Hk & Hk' & Hrem & Hc).
  simpl in *. subst c1.
  assert (Hreached : forall f, f ∈ fs -> f ∈ take n (names (extracted_text w))).
  { intros f Hf.
    destruct (decide (f ∈ take n (names (extracted_text w)))) as [|Hn]; [ done | ].
    exfalso. pose proof (Hgone f Hf) as Hnone. rewrite (Hout f Hn) in Hnone.
    apply list_elem_of_lookup in Hf as [i Hi].
    destruct (Forall2_lookup_r _ _ _ _ _ Hall Hi) as (e & _ & _ & Hx).
    congruence. }
  exists (with_stdout (stdout w) w1),
    (map Line (stdout w1) ++ [Line (Moved_and_renamed_count (length added))]), added, fs.
  split; [ by apply update_repository_cut | ].
  split; [ apply last_snoc | ].
  split; [ done | ]. split; [ done | ]. split; [ done | ].
  split.
  { rewrite (Forall2_length _ _ _ Hall).
    transitivity (length (take n (names (extracted_text w)))); [ | rewrite length_take; lia ].
    apply submseteq_length, NoDup_submseteq; done. }
  split; [ done | ].
  split.
  { intros f Hf. simpl.
    destruct (dir_lookup (extracted_text w) f) as [y|] eqn:E.
    - by destruct (Hk' f y E).
    - destruct (dir_lookup (extracted_text w1) f) as [y|] eqn:E'; [ | done ].
      apply Hk in E'. congruence. }
  split; [ done | ]. done.
Qed.

(** *** A stop during the extraction *)

Lemma for_each_until_stop_stopped {L X} (xs : list X) (body : X -> M (gui * L) unit) w q l :
  for_each_until_stop xs body (w, (Gui (Some 0%nat) q, l))
  = (Returns tt, (w, (Gui (Some 0%nat) q, l))).
Proof. by destruct xs. Qed.

Lemma move_to_exception_run {L} w (g : gui) (l : L) f x :
  dir_lookup (main_pdf w) f = Some x ->
  locked x = false ->
  (forall y, dir_lookup (exception_dir w) f = Some y -> locked y = false) ->
  shutil_move MAIN_PDF_FOLDER f EXCEPTION_FOLDER f (w, (g, l))
  = (Returns tt,
     (set_dir MAIN_PDF_FOLDER (dir_remove (main_pdf w) f)
        (set_dir EXCEPTION_FOLDER (dir_write (exception_dir w) f x) w), (g, l))).
Proof.
  intros Hf Hx Hexc. unfold shutil_move, put_file, bind, the_world, update_world. simpl.
  rewrite Hf, Hx. simpl.
  destruct (dir_lookup (exception_dir w) f) as [y|] eqn:E; [ | done ].
  by rewrite (Hexc y).
Qed.

(** X20.  A stop that comes after the loop of [extract_texts] has
    tested the event for the first entry of the staging folder, a PDF,
    and before [extract_text_from_pdf] tests it: the method returns no
    text, whatever the PDF holds, and the loop takes the PDF for one
    without text.  It moves it to the Exception folder and logs a failed
    extraction; no text artifact is written, and the loop ends. *)
Theorem a_stop_during_extraction_misfiles_the_pdf {L} w q (l : L) f x d :
  main_pdf w = (f, x) :: d ->
  is_pdf f = true ->
  locked x = false ->
  (forall y, dir_lookup (exception_dir w) f = Some y -> locked y = false) ->
  InvoicePipeline_extract_texts (w, (Gui (Some 2%nat) q, l))
  = (Returns tt,
     (set_dir MAIN_PDF_FOLDER (dir_remove (main_pdf w) f)
        (set_dir EXCEPTION_FOLDER (dir_write (exception_dir w) f x) w),
      (Gui (Some 0%nat)
         (q ++ [Line Starting_text_extraction; Line (Extraction_failed_moved f);
                Line (Extraction_done 0 1)]), l))).
Proof.
  intros Hmain Hpdf Hx Hexc.
  assert (dir_lookup (main_pdf w) f = Some x) as Hf.
  { rewrite Hmain. simpl. by rewrite decide_True. }
  unfold InvoicePipeline_extract_texts, method_call, unless_stopped.
  unfold bind at 1. cbn [is_set fst snd stop_event queue].
  unfold bind at 1. cbn [self_log assign fst snd stop_event queue].
  unfold bind at 1. unfold os_listdir at 1. unfold bind at 1. cbn [the_world ret fst snd].
  unfold get_dir at 1. rewrite Hmain at 1.
  change (names ((f, x) :: d)) with (f :: names d).
  unfold bind at 1.
  change (for_each_until_stop (f :: names d) InvoicePipeline_extract_file)
    with (stopped ← is_set;
          if stopped then ret tt
          else (InvoicePipeline_extract_file f;;
                for_each_until_stop (names d) InvoicePipeline_extract_file)).
  unfold bind at 1. cbn [is_set fst snd stop_event queue].
  unfold bind at 1. unfold InvoicePipeline_extract_file at 1. rewrite Hpdf.
  unfold when. unfold bind at 1. cbn [the_world fst snd].
  unfold bind at 1. unfold InvoicePipeline_extract_text_from_pdf at 1.
  unfold bind at 1. cbn [is_set fst snd stop_event queue ret].
  unfold try_except, bind at 1.
  rewrite (move_to_exception_run _ _ _ _ _ Hf Hx Hexc).
  unfold bind at 1. cbn [assign_vars assign self_log fst snd stop_event queue].
  rewrite for_each_until_stop_stopped.
  unfold bind, local_vars, self_log, assign. cbn [fst snd stop_event queue].
  by rewrite <- !app_assoc.
Qed.

End Pipeline.

(** ** Sample runs *)

(** A runtime for the samples.  Every string of the samples is ASCII, and
    on such a string [str.lower] does not consult the Unicode tables. *)
Definition sample_lower (s : pystr) : pystr := s.

(** The external tools of the samples: no PDF has a text layer, and the
    optical reader returns the bytes of the file as its text. *)
Definition sample_pdfplumber (x : file) : option (list (option pystr)) := None.

Definition sample_ocr (x : file) : option (list pystr) :=
  match data x with
  | Binary b => Some [b]
  | Text _ => None
  end.

Definition sample_strftime (t : Z) : pystr := Py.str_of_nat (Z.to_nat t).

Definition sample_now : timestamp :=
  Timestamp (Py.str "03112026") (Py.str "101500") (Py.str "Nov_26").

Definition text_file (t : string) : file := File (Text (Py.str t)) 0 0 false.
Definition pdf_file (b : list N) : file := File (Binary b) 0 0 false.
Definition held (x : file) : file := File (data x) (st_size x) (st_mtime x) true.

Definition empty_world : world := World [] [] [] [] [] [] [].

(** Three texts with the same normalized content after another one, and
    their PDFs. *)
Definition dedup_world : world :=
  World [ (Py.str "a.pdf", pdf_file [1]); (Py.str "b.pdf", pdf_file [2]);
          (Py.str "c.pdf", pdf_file [3]) ]
        [ (Py.str "0.txt", text_file "Order 77");
          (Py.str "a.txt", text_file "Invoice  #123");
          (Py.str "b.txt", text_file "invoice#123");
          (Py.str "c.txt", text_file "INVOICE #123 ") ]
        [] [] [] [] [].

Definition invoice_123 : pystr :=
  Py.str "5f14a9570854f36322d244519f60ce06f8767cb5f91d59add3094b069fc4ec54".

(** A duplicate text whose PDF is gone. *)
Definition orphan_duplicate_world : world :=
  World [] [ (Py.str "b.txt", text_file "invoice#123") ] [] [] [] [] [].

(** A unique text whose PDF is gone, and a repository with the generated
    name and its first suffix taken. *)
Definition orphan_unique_world : world :=
  World [] [ (Py.str "b.txt", text_file "invoice#123") ] [] [] []
        [ (Py.str "INVC_03112026_101500_Nov_26.txt", text_file "Order 77");
          (Py.str "INVC_03112026_101500_Nov_26_1.txt", text_file "Order 78") ]
        [].

(** Three texts to file in a repository that has the generated name. *)
Definition filing_world : world :=
  World [] [ (Py.str "a.txt", text_file "one"); (Py.str "b.txt", text_file "two");
             (Py.str "c.txt", text_file "three") ] [] [] []
        [ (Py.str "INVC_03112026_101500_Nov_26.txt", text_file "Order 77") ]
        [].

(** A PDF in the Exception folder. *)
Definition exception_world : world :=
  World [] [] [ (Py.str "scan.pdf", pdf_file [7]) ] [] [] [] [].

(** A source folder with a held PDF before another PDF, and one with a
    file that is not a PDF. *)
Definition held_source : tree :=
  [ (Py.str "a.pdf", FileNode (held (pdf_file [1])));
    (Py.str "b.pdf", FileNode (pdf_file [2])) ].

Definition notes_source : tree :=
  [ (Py.str "notes.txt", FileNode (text_file "to do")) ].

(** C7 as the specification has it: a file of the source folder that is
    not a PDF is, after the run, in the Exception folder and in the Unique
    folder. *)
Definition non_pdf_copied_to_unique : Prop :=
  forall unicode_lower pdfplumber_pages ocr_pages strftime_localtime clock
         now entries w f,
    timestamp_ok now ->
    Forall (fun e => locked e.2 = false) (walked_files entries) ->
    staging_free w ->
    f ∈ (walked_files entries).*1 ->
    is_pdf unicode_lower f = false ->
    exists w' dfs,
      main unicode_lower pdfplumber_pages ocr_pages strftime_localtime clock
           (Some entries) now (w, tt) = (Returns dfs, (w', tt))
      /\ is_Some (dir_lookup (exception_dir w') f)
      /\ is_Some (dir_lookup (unique_invoices w') f).

Lemma sample_now_ok : timestamp_ok sample_now.
Proof. unfold timestamp_ok. vm_compute. repeat constructor; discriminate. Qed.

Lemma empty_world_staging_free : staging_free empty_world.
Proof. split; intros g y Hy; discriminate Hy. Qed.

(** The run on [notes_source]. *)
Lemma notes_run :
  main sample_lower sample_pdfplumber sample_ocr sample_strftime 0
       (Some notes_source) sample_now (empty_world, tt)
  = (Returns ([], []),
     (World [] [] [ (Py.str "notes.txt", text_file "to do") ] [] [] []
            [ Version_banner; Copying_files;
              Non_PDF_moved_to_Exception (Py.str "notes.txt");
              PDFs_copied 0; Non_PDFs_moved 1; Starting_text_extraction;
              Extraction_done 0 0; Starting_deduplication; Deduplication_done 0;
              Cross_comparing; Cross_comparison_complete 0 0; Updating_repository;
              Moved_and_renamed_count 0; No_leftover_PDFs; All_tasks_completed ],
      tt)).
Proof. vm_compute. reflexivity. Qed.

(** C7, counterexample: after the run on a source folder that holds
    "notes.txt", the file is in the Exception folder and the Unique folder
    is empty. *)
Lemma non_pdf_copied_to_unique_fails : ~ non_pdf_copied_to_unique.
Proof.
  intros H.
  destruct (H sample_lower sample_pdfplumber sample_ocr sample_strftime 0%Z
              sample_now notes_source empty_world (Py.str "notes.txt"))
    as (w' & dfs & Hrun & _ & [y Hy]).
  - exact sample_now_ok.
  - vm_compute. repeat constructor.
  - exact empty_world_staging_free.
  - vm_compute. constructor.
  - vm_compute. reflexivity.
  - rewrite notes_run in Hrun. injection Hrun as _ <-. discriminate Hy.
Qed.

(** ** The theorems at the samples *)

Lemma sha256_hash_is_fingerprint_witness :
  sha256_hash sample_lower (Py.str "Invoice  #123") = Some invoice_123
  /\ length invoice_123 = 64%nat
  /\ sha256_hash sample_lower (Py.str "Invoice  #123")
     = Some (SHA256.hexdigest (SHA256.digest (Py.str "invoice#123"))).
Proof.
  destruct (sha256_hash_is_fingerprint sample_lower (Py.str "Invoice  #123"))
    as (_ & Hbytes & Hwidth & Hsame & _ & Hvalue).
  assert (E : sha256_hash sample_lower (Py.str "Invoice  #123") = Some invoice_123).
  { rewrite (Hsame (Py.str "invoice#123")); [ exact Hvalue | vm_compute; reflexivity ]. }
  split; [ exact E | ]. split; [ exact (Hwidth _ E) | ].
  apply Hbytes. vm_compute. reflexivity.
Defined.

Lemma first_seen_wins_witness :
  exists w',
    deduplicate_text_files sample_lower (dedup_world, tt) = (Returns tt, (w', tt))
    /\ dir_lookup (extracted_text w') (Py.str "a.txt") = Some (text_file "Invoice  #123")
    /\ dir_lookup (extracted_text w') (Py.str "b.txt") = None
    /\ dir_lookup (extracted_text w') (Py.str "c.txt") = None
    /\ dir_lookup (duplicates_invoices w') (Py.str "b.pdf") = Some (pdf_file [2])
    /\ dir_lookup (duplicates_invoices w') (Py.str "c.pdf") = Some (pdf_file [3]).
Proof.
  destruct (first_seen_wins sample_lower (L := unit) dedup_world tt
              [Py.str "0.txt"] (Py.str "a.txt") [] (Py.str "b.txt") [] (Py.str "c.txt") []
              (text_file "Invoice  #123") (text_file "invoice#123")
              (text_file "INVOICE #123 ")
              (Py.str "Invoice  #123") (Py.str "invoice#123") (Py.str "INVOICE #123 ")
              invoice_123)
    as (w' & Hrun & _ & HA & HB & HC & _ & _ & Hpdf).
  - apply (bool_decide_unpack _). vm_compute. exact I.
  - vm_compute. reflexivity.
  - reflexivity.
  - reflexivity.
  - reflexivity.
  - reflexivity.
  - reflexivity.
  - reflexivity.
  - reflexivity.
  - reflexivity.
  - reflexivity.
  - vm_compute. reflexivity.
  - vm_compute. reflexivity.
  - vm_compute. reflexivity.
  - intros g Hg. apply list_elem_of_singleton in Hg. subst g. vm_compute. discriminate.
  - exists w'. split; [ exact Hrun | ]. split; [ exact HA | ].
    split; [ exact HB | ]. split; [ exact HC | ].
    destruct (Hpdf (Py.str "b.txt") (pdf_file [2])) as [_ Hb];
      [ by left | reflexivity | reflexivity | intros z Hz; discriminate Hz | ].
    destruct (Hpdf (Py.str "c.txt") (pdf_file [3])) as [_ Hc];
      [ by right | reflexivity | reflexivity | intros z Hz; discriminate Hz | ].
    split; [ exact Hb | exact Hc ].
Defined.

Lemma intake_stops_at_first_failure_witness :
  copy_pdfs_to_main_folder sample_lower (Some held_source) (empty_world, tt)
  = (Returns tt,
     (World [] [] [] [] [] [] [ Copying_files; Error_copying_files PermissionError ], tt)).
Proof.
  apply (intake_stops_at_first_failure sample_lower (L := unit)
           (Py.str "a.pdf") (held (pdf_file [1]))
           [ (Py.str "b.pdf", FileNode (pdf_file [2])) ] empty_world tt).
  - reflexivity.
  - reflexivity.
Defined.

Lemma repository_names_increasing_witness :
  exists w' ks fs,
    update_repository sample_lower sample_now (filing_world, tt) = (Returns tt, (w', tt))
    /\ ks = [1; 2; 3]%nat
    /\ fs = [Py.str "a.txt"; Py.str "b.txt"; Py.str "c.txt"]
    /\ moved_names (stdout w') = suffixed_name sample_now <$> ks
    /\ Forall2 (filed_under sample_lower sample_now filing_world w') ks fs
    /\ last (stdout w') = Some (Moved_and_renamed_count 3).
Proof.
  destruct (repository_names_increasing sample_lower (L := unit) sample_now filing_world tt)
    as (_ & w' & ks & fs & Hrun & Hnames & _ & _ & _ & _ & _ & Hfiled & Hlast).
  - unfold timestamp_ok. vm_compute. repeat constructor; discriminate.
  - exists w', ks, fs. split; [ exact Hrun | ].
    assert (Hks : ks = [1; 2; 3]%nat).
    { pose proof Hrun as Hw. vm_compute in Hw. injection Hw as Hw. subst w'.
      destruct ks as [|k1 [|k2 [|k3 [|k4 ks]]]]; try discriminate Hnames.
      injection Hnames as E1 E2 E3.
      rewrite <- (suffixed_name_inj sample_now 1 k1) by (rewrite <- E1; vm_compute; reflexivity).
      rewrite <- (suffixed_name_inj sample_now 2 k2) by (rewrite <- E2; vm_compute; reflexivity).
      rewrite <- (suffixed_name_inj sample_now 3 k3) by (rewrite <- E3; vm_compute; reflexivity).
      reflexivity. }
    split; [ exact Hks | ].
    assert (Hfs : fs = [Py.str "a.txt"; Py.str "b.txt"; Py.str "c.txt"]).
    { pose proof Hrun as Hw. vm_compute in Hw. injection Hw as Hw.
      rewrite Hks in Hfiled. rewrite <- Hw in Hfiled.
      apply Forall2_cons_inv_l in Hfiled as (f1 & fs1 & H1 & Hfiled & ->).
      apply Forall2_cons_inv_l in Hfiled as (f2 & fs2 & H2 & Hfiled & ->).
      apply Forall2_cons_inv_l in Hfiled as (f3 & fs3 & H3 & Hfiled & ->).
      apply Forall2_nil_inv_l in Hfiled as ->.
      destruct H1 as (x1 & _ & Hx1 & _ & _ & Hin1 & _).
      destruct H2 as (x2 & _ & Hx2 & _ & _ & Hin2 & _).
      destruct H3 as (x3 & _ & Hx3 & _ & _ & Hin3 & _).
      vm_compute in Hin1, Hin2, Hin3.
      injection Hin1 as <-. injection Hin2 as <-. injection Hin3 as <-.
      apply dir_lookup_elem_of in Hx1, Hx2, Hx3.
      vm_compute in Hx1, Hx2, Hx3.
      assert (E1 : f1 = Py.str "a.txt").
      { repeat (apply elem_of_cons in Hx1 as [Hx1|Hx1]);
          [ by injection Hx1 as -> | discriminate Hx1 | discriminate Hx1
          | by apply elem_of_nil in Hx1 ]. }
      assert (E2 : f2 = Py.str "b.txt").
      { repeat (apply elem_of_cons in Hx2 as [Hx2|Hx2]);
          [ discriminate Hx2 | by injection Hx2 as -> | discriminate Hx2
          | by apply elem_of_nil in Hx2 ]. }
      assert (E3 : f3 = Py.str "c.txt").
      { repeat (apply elem_of_cons in Hx3 as [Hx3|Hx3]);
          [ discriminate Hx3 | discriminate Hx3 | by injection Hx3 as ->
          | by apply elem_of_nil in Hx3 ]. }
      by rewrite E1, E2, E3. }
    split; [ exact Hfs | ].
    split; [ rewrite Hnames; reflexivity | ].
    split; [ exact Hfiled | ].
    rewrite Hlast, Hfs. reflexivity.
Defined.

Lemma exception_pdf_copied_not_moved_witness :
  exists w',
    cross_compare_with_repository sample_lower (exception_world, tt) = (Returns tt, (w', tt))
    /\ exception_dir w' = exception_dir exception_world
    /\ dir_lookup (exception_dir w') (Py.str "scan.pdf") = Some (pdf_file [7])
    /\ dir_lookup (unique_invoices w') (Py.str "scan.pdf") = Some (pdf_file [7]).
Proof.
  apply (exception_pdf_copied_not_moved sample_lower (L := unit) exception_world tt
           (Py.str "scan.pdf") (pdf_file [7])).
  - reflexivity.
  - vm_compute. reflexivity.
  - reflexivity.
  - intros y Hy. discriminate Hy.
Defined.

Lemma non_pdf_stays_in_exception_witness :
  exists w' dfs x,
    main sample_lower sample_pdfplumber sample_ocr sample_strftime 0
         (Some notes_source) sample_now (empty_world, tt) = (Returns dfs, (w', tt))
    /\ (Py.str "notes.txt", x) ∈ walked_files notes_source
    /\ dir_lookup (exception_dir w') (Py.str "notes.txt") = Some x
    /\ dir_lookup (unique_invoices w') (Py.str "notes.txt") = None.
Proof.
  apply (non_pdf_stays_in_exception sample_lower sample_pdfplumber sample_ocr
           sample_strftime 0%Z sample_now notes_source empty_world (Py.str "notes.txt")).
  - unfold timestamp_ok. vm_compute. repeat constructor; discriminate.
  - vm_compute. repeat constructor.
  - split; intros g y Hy; discriminate Hy.
  - vm_compute. constructor.
  - vm_compute. reflexivity.
  - vm_compute. reflexivity.
Defined.

Definition sample_seen : dedup_vars :=
  DedupVars {[ invoice_123 := Py.str "a.txt" ]} 0.

Lemma dedup_duplicate_without_pdf_witness :
  dedup_file sample_lower (Py.str "b.txt") (orphan_duplicate_world, sample_seen)
  = (Returns tt,
     (World [] [] [] [] [] []
            [ Removed_duplicate_text (Py.str "b.txt") (Py.str "a.txt") ],
      DedupVars {[ invoice_123 := Py.str "a.txt" ]} 1)).
Proof.
  destruct (dedup_duplicate_without_pdf sample_lower (Py.str "b.txt") []
              orphan_duplicate_world sample_seen invoice_123 (Py.str "a.txt"))
    as (Hrun & _).
  - vm_compute. reflexivity.
  - apply lookup_singleton_eq.
  - reflexivity.
  - exact Hrun.
Defined.

Lemma unique_text_without_pdf_is_filed_witness :
  exists w1 w2 new_name,
    cross_compare_with_repository sample_lower (orphan_unique_world, tt)
    = (Returns tt, (w1, tt))
    /\ dir_lookup (extracted_text w1) (Py.str "b.txt") = Some (text_file "invoice#123")
    /\ update_repository sample_lower sample_now (w1, tt) = (Returns tt, (w2, tt))
    /\ dir_lookup (extracted_text w2) (Py.str "b.txt") = None
    /\ dir_lookup (repository w2) new_name = Some (text_file "invoice#123")
    /\ dir_lookup (unique_invoices w2) (Py.str "b.pdf") = None.
Proof.
  destruct (unique_text_without_pdf_is_filed sample_lower (L := unit) sample_now
              orphan_unique_world tt (Py.str "b.txt") (text_file "invoice#123")
              (Py.str "invoice#123") invoice_123)
    as (_ & w1 & w2 & new_name & H1 & H2 & H3 & H4 & H5 & _ & H6).
  - unfold timestamp_ok. vm_compute. repeat constructor; discriminate.
  - vm_compute. reflexivity.
  - reflexivity.
  - reflexivity.
  - reflexivity.
  - vm_compute. reflexivity.
  - apply (bool_decide_unpack _). vm_compute. exact I.
  - reflexivity.
  - exists w1, w2, new_name. repeat (split; [ assumption | ]).
    apply H6. reflexivity.
Defined.

(** ** Further samples *)

Ltac sample_time := unfold timestamp_ok; vm_compute; repeat constructor; discriminate.

Ltac sample_names := apply (bool_decide_unpack _); vm_compute; exact I.

Lemma free_in_unlocked (d : dir) : Forall (fun e => locked e.2 = false) d -> free_in d.
Proof.
  intros H g y Hy. apply dir_lookup_elem_of in Hy. rewrite Forall_forall in H.
  exact (H (g, y) Hy).
Defined.

Ltac sample_free := apply free_in_unlocked; repeat constructor.

(** What the optical reader of the samples finds in a scanned invoice,
    and the fingerprint of this text. *)
Definition invoice_scan : pystr := Py.str "Invoice number 123 of the year 2026".

Definition invoice_scan_hash : pystr :=
  SHA256.hexdigest (SHA256.digest (Py.str "invoicenumber123oftheyear2026")).

Definition order_77 : pystr := SHA256.hexdigest (SHA256.digest (Py.str "order77")).

(** A staged PDF with a text, and one without. *)
Definition staged_world : world :=
  World [ (Py.str "a.pdf", pdf_file invoice_scan); (Py.str "blank.pdf", pdf_file [1]) ]
        [] [] [] [] [] [].

Definition scan_source : tree := [ (Py.str "a.pdf", FileNode (pdf_file invoice_scan)) ].

(** A text of the batch whose PDF is held, and a repository that has its
    text. *)
Definition held_world : world :=
  World [ (Py.str "b.pdf", held (pdf_file [2])) ]
        [ (Py.str "b.txt", text_file "invoice#123") ] [] [] []
        [ (Py.str "old.txt", text_file "Invoice  #123") ] [].

(** A new invoice under the name of a PDF of the Exception folder. *)
Definition overwrite_world : world :=
  World [ (Py.str "a.pdf", pdf_file [1]) ]
        [ (Py.str "a.txt", text_file "Order 77") ]
        [ (Py.str "a.pdf", pdf_file [9]) ] [] [] [] [].

Lemma staged_world_staging_free : staging_free staged_world.
Proof. split; [ sample_free | intros g y Hy; discriminate Hy ]. Defined.

(** ** Further properties at the samples *)


Lemma staged_pdf_is_not_lost_witness :
  (exists w' dfs,
     main_at sample_lower sample_pdfplumber sample_ocr sample_strftime 0
       true (Some scan_source) sample_now (empty_world, tt) = (Returns dfs, (w', tt))
     /\ dir_lookup (main_pdf w') (Py.str "a.pdf") = None
     /\ (dir_lookup (unique_invoices w') (Py.str "a.pdf") = Some (pdf_file invoice_scan)
         \/ dir_lookup (duplicates_invoices w') (Py.str "a.pdf")
            = Some (pdf_file invoice_scan)
         \/ dir_lookup (exception_dir w') (Py.str "a.pdf") = Some (pdf_file invoice_scan)))
  /\ (exists w',
        main_at sample_lower sample_pdfplumber sample_ocr sample_strftime 0
          false (Some scan_source) sample_now (empty_world, tt)
        = (Raises FileNotFoundError, (w', tt))
        /\ dir_lookup (main_pdf w') (Py.str "a.pdf") = Some (pdf_file invoice_scan)).
Proof.
  split.
  - destruct (staged_pdf_is_not_lost sample_lower sample_pdfplumber sample_ocr sample_strftime
                0%Z true (Some scan_source) sample_now empty_world)
      as (w1 & r & w' & Hcopy & Hmain & (dfs & ->) & Hall).
    + sample_time.
    + vm_compute in Hcopy. injection Hcopy as <-.
      destruct (Hall (Py.str "a.pdf") (pdf_file invoice_scan)) as [_ H];
        [ vm_compute; reflexivity | vm_compute; reflexivity | ].
      exists w', dfs. split; [ exact Hmain | ].
      apply H; [ reflexivity | vm_compute; reflexivity | reflexivity ].
  - destruct (staged_pdf_is_not_lost sample_lower sample_pdfplumber sample_ocr sample_strftime
                0%Z false (Some scan_source) sample_now empty_world)
      as (w1 & r & w' & Hcopy & Hmain & -> & Hall).
    + sample_time.
    + exists w'. split; [ exact Hmain | ].
      vm_compute in Hmain. injection Hmain as <-. vm_compute. reflexivity.
Defined.





Lemma held_pdf_of_a_duplicate_witness :
  compare_file sample_lower (Py.str "b.txt") (held_world, CompareVars {[ invoice_123 ]} 0 0)
  = (Returns tt,
     (print (Error_comparing_file (Py.str "b.txt") PermissionError) held_world,
      CompareVars {[ invoice_123 ]} 0 0)).
Proof.
  destruct (held_pdf_of_a_duplicate sample_lower (Py.str "b.txt") held_world invoice_123
              (held (pdf_file [2])))
    as [_ H].
  - vm_compute. reflexivity.
  - vm_compute. reflexivity.
  - reflexivity.
  - apply H. simpl. apply elem_of_singleton_2. reflexivity.
Defined.

Lemma held_pdf_lets_a_duplicate_through_witness :
  exists w1 w2 new_name,
    cross_compare_with_repository sample_lower (held_world, tt) = (Returns tt, (w1, tt))
    /\ update_repository sample_lower sample_now (w1, tt) = (Returns tt, (w2, tt))
    /\ new_name <> Py.str "old.txt"
    /\ fingerprint_in sample_lower (repository w2) new_name = Some invoice_123
    /\ fingerprint_in sample_lower (repository w2) (Py.str "old.txt") = Some invoice_123.
Proof.
  destruct (held_pdf_lets_a_duplicate_through sample_lower (L := unit) sample_now held_world
              tt (Py.str "b.txt") (text_file "invoice#123") (held (pdf_file [2]))
              invoice_123 (Py.str "old.txt"))
    as (w1 & w2 & added & new_name & H1 & H2 & _ & _ & Hne & Hnew & Hold).
  - sample_time.
  - vm_compute. reflexivity.
  - vm_compute. reflexivity.
  - vm_compute. reflexivity.
  - vm_compute. reflexivity.
  - reflexivity.
  - vm_compute. reflexivity.
  - exists w1, w2, new_name. split; [ exact H1 | ]. split; [ exact H2 | ].
    split; [ exact Hne | ]. split; [ exact Hnew | exact Hold ].
Defined.

Lemma intake_places_every_file_witness :
  exists w',
    copy_pdfs_to_main_folder sample_lower (Some notes_source) (empty_world, tt)
    = (Returns tt, (w', tt))
    /\ dir_lookup (exception_dir w') (Py.str "notes.txt") = Some (text_file "to do")
    /\ dir_lookup (main_pdf w') (Py.str "notes.txt") = None.
Proof.
  destruct (intake_places_every_file sample_lower (L := unit) notes_source empty_world tt)
    as (w' & Hrun & Hmain & Hexc & _).
  - vm_compute. repeat constructor.
  - split; intros g y Hy; discriminate Hy.
  - exists w'. split; [ exact Hrun | ].
    rewrite Hmain, Hexc. split; vm_compute; reflexivity.
Defined.

Lemma cleanup_empties_the_staging_folder_witness :
  exists w',
    cleanup_main_pdf_folder sample_lower (staged_world, tt) = (Returns tt, (w', tt))
    /\ dir_lookup (main_pdf w') (Py.str "a.pdf") = None
    /\ dir_lookup (exception_dir w') (Py.str "a.pdf") = Some (pdf_file invoice_scan).
Proof.
  destruct (cleanup_empties_the_staging_folder sample_lower (L := unit) staged_world tt)
    as (w' & Hrun & Hmain & Hexc & _).
  - split; [ sample_free | intros g y Hy; discriminate Hy ].
  - exists w'. split; [ exact Hrun | ].
    rewrite Hmain, Hexc. split; vm_compute; reflexivity.
Defined.

Lemma extract_texts_files_every_pdf_witness :
  exists w',
    extract_texts sample_lower sample_pdfplumber sample_ocr 0 (staged_world, tt)
    = (Returns tt, (w', tt))
    /\ dir_lookup (main_pdf w') (Py.str "blank.pdf") = None
    /\ dir_lookup (exception_dir w') (Py.str "blank.pdf") = Some (pdf_file [1])
    /\ dir_lookup (main_pdf w') (Py.str "a.pdf") = Some (pdf_file invoice_scan).
Proof.
  destruct (extract_texts_files_every_pdf sample_lower sample_pdfplumber sample_ocr 0%Z
              (L := unit) staged_world tt)
    as (w' & Hrun & Hnone & Hsome & _).
  - sample_names.
  - split; [ sample_free | intros g y Hy; discriminate Hy ].
  - intros g y Hy. discriminate Hy.
  - exists w'. split; [ exact Hrun | ].
    destruct (Hnone (Py.str "blank.pdf") (pdf_file [1])) as [H1 H2];
      [ vm_compute; reflexivity | vm_compute; reflexivity | vm_compute; reflexivity | ].
    destruct (Hsome (Py.str "a.pdf") (pdf_file invoice_scan)) as [H3 _];
      [ vm_compute; reflexivity | vm_compute; reflexivity | vm_compute; discriminate | ].
    split; [ exact H1 | ]. split; [ exact H2 | exact H3 ].
Defined.

Lemma main_reports_the_final_folders_witness :
  (exists w',
     main_at sample_lower sample_pdfplumber sample_ocr sample_strftime 0
       true (Some scan_source) sample_now (empty_world, tt)
     = (Returns (inventory sample_strftime (duplicates_invoices w'),
                 inventory sample_strftime (unique_invoices w')), (w', tt))
     /\ last (stdout w') = Some All_tasks_completed)
  /\ (exists w',
        main_at sample_lower sample_pdfplumber sample_ocr sample_strftime 0
          false (Some scan_source) sample_now (empty_world, tt)
        = (Raises FileNotFoundError, (w', tt))
        /\ last (stdout w') = Some Cross_comparing).
Proof.
  destruct (main_reports_the_final_folders sample_lower sample_pdfplumber sample_ocr
              sample_strftime 0%Z (Some scan_source) sample_now empty_world)
    as ((w' & Hrun & _ & _ & Hlast) & (w3 & _ & Hraise)).
  - sample_time.
  - split.
    + exists w'. split; [ exact Hrun | exact Hlast ].
    + exists (print Cross_comparing w3). split; [ exact Hraise | apply last_snoc ].
Defined.

Lemma exception_copy_overwrites_a_unique_pdf_witness :
  exists w',
    cross_compare_with_repository sample_lower (overwrite_world, tt) = (Returns tt, (w', tt))
    /\ Moved_unique_PDF (Py.str "a.pdf") ∈ stdout w'
    /\ dir_lookup (unique_invoices w') (Py.str "a.pdf") = Some (pdf_file [9])
    /\ dir_lookup (main_pdf w') (Py.str "a.pdf") = None.
Proof.
  destruct (exception_copy_overwrites_a_unique_pdf sample_lower (L := unit) overwrite_world
              tt (Py.str "a.txt") order_77 (pdf_file [1]) (pdf_file [9]))
    as (w' & Hrun & Hlog & Hu & Hm & _).
  - vm_compute. reflexivity.
  - vm_compute. reflexivity.
  - apply not_elem_of_empty.
  - intros f' Hf'. apply list_elem_of_singleton in Hf'. by intros _.
  - vm_compute. reflexivity.
  - vm_compute. reflexivity.
  - reflexivity.
  - vm_compute. reflexivity.
  - reflexivity.
  - intros z Hz. discriminate Hz.
  - exists w'. split; [ exact Hrun | ]. split; [ exact Hlog | ].
    split; [ exact Hu | exact Hm ].
Defined.

Lemma every_text_reaches_the_repository_witness :
  exists w1 w2 w3 w4 g,
    extract_texts sample_lower sample_pdfplumber sample_ocr 0 (staged_world, tt)
    = (Returns tt, (w1, tt))
    /\ deduplicate_text_files sample_lower (w1, tt) = (Returns tt, (w2, tt))
    /\ cross_compare_with_repository_at sample_lower true (w2, tt) = (Returns tt, (w3, tt))
    /\ update_repository_at sample_lower true sample_now (w3, tt) = (Returns tt, (w4, tt))
    /\ fingerprint_in sample_lower (repository w4) g = Some invoice_scan_hash.
Proof.
  apply (every_text_reaches_the_repository sample_lower sample_pdfplumber sample_ocr 0%Z
           (L := unit) true sample_now staged_world tt (Py.str "a.pdf")
           (pdf_file invoice_scan) invoice_scan invoice_scan_hash).
  - reflexivity.
  - sample_time.
  - sample_names.
  - split; [ sample_free | intros g y Hy; discriminate Hy ].
  - constructor.
  - intros g y Hy. discriminate Hy.
  - intros g y Hy. discriminate Hy.
  - vm_compute. reflexivity.
  - vm_compute. reflexivity.
  - intros g Hg Hname. apply elem_of_cons in Hg as [->|Hg]; [ reflexivity | ].
    apply list_elem_of_singleton in Hg. subst g. vm_compute in Hname. discriminate Hname.
  - vm_compute. reflexivity.
  - vm_compute. discriminate.
  - vm_compute. reflexivity.
  - vm_compute. reflexivity.
Defined.

Lemma pipeline_does_what_the_script_does_witness :
  exists w' lines dfs,
    main sample_lower sample_pdfplumber sample_ocr sample_strftime 0
         (Some scan_source) sample_now (empty_world, tt) = (Returns dfs, (w', tt))
    /\ stdout w' = [Version_banner] ++ lines ++ [All_tasks_completed]
    /\ InvoicePipeline_run_full_pipeline sample_lower sample_pdfplumber sample_ocr 0
         (Some scan_source) sample_now (empty_world, (Gui None [], tt))
       = (Returns tt,
          (with_stdout [] w',
           (Gui None ([Ensured_folder_structure] ++ map Line lines ++ [Pipeline_completed]),
            tt))).
Proof.
  destruct (pipeline_does_what_the_script_does sample_lower sample_pdfplumber sample_ocr
              sample_strftime 0%Z (Some scan_source) sample_now empty_world [])
    as (c & w' & lines & dfs & Hmain & Hout & Hrun).
  - sample_time.
  - exists w', lines, dfs. split; [ exact Hmain | ]. split; [ exact Hout | ].
    exact (Hrun None I).
Defined.

Lemma completion_is_logged_when_the_cleanup_is_skipped_witness :
  exists n w5 lines,
    InvoicePipeline_run_full_pipeline sample_lower sample_pdfplumber sample_ocr 0
      (Some scan_source) sample_now (empty_world, (Gui (Some n) [], tt))
    = (Returns tt, (w5, (Gui (Some 0%nat) (lines ++ [Pipeline_completed]), tt))).
Proof.
  destruct (completion_is_logged_when_the_cleanup_is_skipped sample_lower sample_pdfplumber
              sample_ocr 0%Z (Some scan_source) sample_now empty_world [])
    as (n & w5 & lines & Hrun & _).
  - sample_time.
  - exists n, w5, lines. exact Hrun.
Defined.

Lemma a_stopped_update_files_the_entries_reached_witness :
  exists w' lines added (fs : list pystr),
    InvoicePipeline_update_repository sample_lower sample_now
      (filing_world, (Gui (Some 2%nat) [], tt))
    = (Returns tt, (w', (Gui (Some 0%nat) lines, tt)))
    /\ repository w' = repository filing_world ++ added
    /\ (length added <= 1)%nat
    /\ (forall f, f ∈ fs -> f ∈ [Py.str "a.txt"])
    /\ (forall f, f ∉ fs ->
          dir_lookup (extracted_text w') f = dir_lookup (extracted_text filing_world) f).
Proof.
  destruct (a_stopped_update_files_the_entries_reached sample_lower (L := unit) sample_now
              filing_world [] tt 1%nat)
    as (w' & lines & added & fs & Hrun & _ & Hrepo & _ & Hfs & Hlen & _ & Hrest & _).
  - sample_time.
  - exists w', lines, added, fs. split; [ exact Hrun | ]. split; [ exact Hrepo | ].
    split; [ exact Hlen | ]. split; [ exact Hfs | exact Hrest ].
Defined.

Lemma a_stop_during_extraction_misfiles_the_pdf_witness :
  InvoicePipeline_extract_texts sample_lower sample_pdfplumber sample_ocr 0
    (staged_world, (Gui (Some 2%nat) [], tt))
  = (Returns tt,
     (World [ (Py.str "blank.pdf", pdf_file [1]) ] []
            [ (Py.str "a.pdf", pdf_file invoice_scan) ] [] [] [] [],
      (Gui (Some 0%nat)
         [ Line Starting_text_extraction; Line (Extraction_failed_moved (Py.str "a.pdf"));
           Line (Extraction_done 0 1) ], tt))).
Proof.
  rewrite (a_stop_during_extraction_misfiles_the_pdf sample_lower sample_pdfplumber
             sample_ocr 0%Z (L := unit) staged_world [] tt (Py.str "a.pdf")
             (pdf_file invoice_scan) [ (Py.str "blank.pdf", pdf_file [1]) ]).
  - vm_compute. reflexivity.
  - reflexivity.
  - vm_compute. reflexivity.
  - reflexivity.
  - intros y Hy. discriminate Hy.
Defined.
